(** * GRAVITYchat: the retrieval, prompt, generation, citation and ingestion
      code of the repository, embedded as Rocq functions.

    Python [str] values are modelled as [string] (a sequence of 8-bit
    characters; a non-ASCII character of the source is its UTF-8 bytes).
    [lower], [split] and [strip] agree with Python on ASCII text; bytes
    above 127 carry no case and are never white space.  Python [int] is [Z].
    Exceptions are values of [exn], a call that may raise returns
    [result]. *)

From Stdlib Require Import String Ascii List ZArith Lia Bool Arith.
From Stdlib Require Import Numbers.DecimalString.
From Stdlib Require Floats.PrimFloat.
Import ListNotations.

Open Scope list_scope.
Open Scope string_scope.

(** ** Python values and exceptions *)

Inductive exn : Type :=
| NameError (name : string)
| ValueError (msg : string)
| IndexError (msg : string)
| ValidationError (msg : string)
| RequestException (msg : string)
| AzureError (msg : string).

Inductive result (A : Type) : Type :=
| Ok (a : A)
| Raise (e : exn).

Arguments Ok {A} a.
Arguments Raise {A} e.

Definition bind {A B : Type} (m : result A) (k : A -> result B) : result B :=
  match m with
  | Ok a => k a
  | Raise e => Raise e
  end.

Notation "x <- m ;; k" := (bind m (fun x => k))
  (at level 61, m at next level, right associativity).

(** [try: body except Exception: handler] *)
Definition try_except {A : Type} (body : result A) (handler : exn -> result A)
  : result A :=
  match body with
  | Ok a => Ok a
  | Raise e => handler e
  end.

(** ** Python string operations *)

Module PyStr.

Definition nl : string := String "010"%char EmptyString.
Definition dq : string := String "034"%char EmptyString.

Definition is_empty (s : string) : bool :=
  match s with
  | EmptyString => true
  | String _ _ => false
  end.

(** Truth value of a [str]: the empty string is falsy. *)
Definition truthy (s : string) : bool := negb (is_empty s).

Definition is_upper (c : ascii) : bool :=
  let n := nat_of_ascii c in ((65 <=? n) && (n <=? 90))%nat.

Definition lower_char (c : ascii) : ascii :=
  if is_upper c then ascii_of_nat (nat_of_ascii c + 32) else c.

(** [s.lower()] *)
Fixpoint lower (s : string) : string :=
  match s with
  | EmptyString => EmptyString
  | String c r => String (lower_char c) (lower r)
  end.

(** [c.isspace()] on ASCII: tab, line feed, vertical tab, form feed,
    carriage return, the four separators 28..31 and the space. *)
Definition isspace (c : ascii) : bool :=
  let n := nat_of_ascii c in
  (((9 <=? n) && (n <=? 13)) || ((28 <=? n) && (n <=? 31)) || (n =? 32))%nat.

Definition is_digit (c : ascii) : bool :=
  let n := nat_of_ascii c in ((48 <=? n) && (n <=? 57))%nat.

(** [s.startswith(p)] *)
Fixpoint startswith (p s : string) : bool :=
  match p with
  | EmptyString => true
  | String a p' =>
      match s with
      | EmptyString => false
      | String b s' => Ascii.eqb a b && startswith p' s'
      end
  end.

(** [sub in s] *)
Fixpoint contains (sub s : string) : bool :=
  startswith sub s
  || match s with
     | EmptyString => false
     | String _ r => contains sub r
     end.

(** [s.lstrip()], [s.rstrip()], [s.strip()] *)
Fixpoint lstrip (s : string) : string :=
  match s with
  | EmptyString => EmptyString
  | String c r => if isspace c then lstrip r else s
  end.

Fixpoint rstrip (s : string) : string :=
  match s with
  | EmptyString => EmptyString
  | String c r =>
      let r' := rstrip r in
      if isspace c && is_empty r' then EmptyString else String c r'
  end.

Definition strip (s : string) : string := rstrip (lstrip s).

Definition push_word (cur : string) (ws : list string) : list string :=
  if is_empty cur then ws else cur :: ws.

(** The scan behind [s.split()]: the pair is the word that is open at the
    start of [s] and the words that follow it. *)
Fixpoint split_ws_go (s : string) : string * list string :=
  match s with
  | EmptyString => (EmptyString, [])
  | String c r =>
      let (cur, ws) := split_ws_go r in
      if isspace c then (EmptyString, push_word cur ws) else (String c cur, ws)
  end.

(** [s.split()]: the maximal runs of characters that are not white space. *)
Definition split_ws (s : string) : list string :=
  let (cur, ws) := split_ws_go s in push_word cur ws.

(** The scan behind [s.split(sep)] for a non-empty [sep], left to right
    without overlap: [skip] counts the characters of a matched separator
    that are still to be dropped; the pair is the piece that is open at the
    start of [s] and the pieces after it. *)
Fixpoint split_sep_go (sep : string) (skip : nat) (s : string)
  : string * list string :=
  match s with
  | EmptyString => (EmptyString, [])
  | String c r =>
      match skip with
      | S k => split_sep_go sep k r
      | O =>
          if startswith sep s
          then let (p, ps) := split_sep_go sep (String.length sep - 1) r in
               (EmptyString, p :: ps)
          else let (p, ps) := split_sep_go sep 0 r in
               (String c p, ps)
      end
  end.

(** [s.split(sep)] *)
Definition split_sep (sep s : string) : list string :=
  let (p, ps) := split_sep_go sep 0 s in p :: ps.

(** [sep.join(parts)] *)
Definition join (sep : string) (parts : list string) : string :=
  String.concat sep parts.

(** [str(n)] for an [int] *)
Definition str_of_int (n : Z) : string :=
  NilZero.string_of_int (Z.to_int n).

(** [l[:stop]]: a negative [stop] counts from the end, [None] keeps all. *)
Definition slice_to {A : Type} (stop : option Z) (l : list A) : list A :=
  match stop with
  | None => l
  | Some k =>
      if (0 <=? k)%Z then firstn (Z.to_nat k) l
      else firstn (List.length l - Z.to_nat (- k)) l
  end.

(** [any(f(x) for x in l)] *)
Definition any {A : Type} (f : A -> bool) (l : list A) : bool := existsb f l.

(** [for x in l: if keep(x): acc.append(x)] started from [acc]. *)
Definition append_if {A : Type} (keep : A -> bool) (acc : list A) (x : A)
  : list A :=
  if keep x then (acc ++ [x])%list else acc.

Definition for_append {A : Type} (keep : A -> bool) (l : list A) (acc : list A)
  : list A :=
  fold_left (append_if keep) l acc.

End PyStr.

Import PyStr.

(** ** app/main.py: the demo service *)

Module Main.

(** An entry of [MOCK_DOCUMENTS], a dict with these seven keys. *)
Record Doc : Type := mkDoc {
  id : string;
  content : string;
  title : string;
  authors : string;
  url : string;
  year : Z;
  source : string
}.

Record ChatRequest : Type := mkChatRequest {
  question : string;
  top_k : option Z;
  max_tokens : option Z
}.

Record Citation : Type := mkCitation {
  c_title : string;
  c_authors : option string;
  c_url : option string;
  c_year : option Z;
  c_source : string
}.

Record ChatResponse : Type := mkChatResponse {
  answer : string;
  citations : list Citation;
  sources_used : Z;
  confidence : string
}.

Definition MOCK_DOCUMENTS : list Doc :=
  [ {| id := "mock-1";
       content := "LIGO (Laser Interferometer Gravitational-Wave Observatory) is a large-scale physics experiment designed to detect cosmic gravitational waves. The observatory uses laser interferometry to measure the minute ripples in space-time caused by passing gravitational waves from cataclysmic cosmic events such as merging neutron stars or black holes.";
       title := "Introduction to LIGO";
       authors := "LIGO Scientific Collaboration";
       url := "https://www.ligo.org/science.php";
       year := 2023;
       source := "LIGO Documentation" |};
    {| id := "mock-2";
       content := "Gravity Spy is a citizen science project that helps classify glitches in LIGO data. Volunteers examine spectrograms of gravitational wave detector noise to identify and categorize different types of instrumental artifacts that could interfere with gravitational wave detection.";
       title := "Gravity Spy Citizen Science";
       authors := "Gravity Spy Team";
       url := "https://www.zooniverse.org/projects/zooniverse/gravity-spy";
       year := 2024;
       source := "Zooniverse" |};
    {| id := "mock-3";
       content := "aLOGs (LIGO Online Glitch Database) contain detailed information about instrumental glitches detected in LIGO data. These logs help scientists understand the sources of noise and improve detector sensitivity by identifying and mitigating systematic issues.";
       title := "Understanding aLOGs";
       authors := "LIGO Detector Characterization Group";
       url := "https://alog.ligo-wa.caltech.edu/";
       year := 2023;
       source := "aLOG Database" |} ].

(** The test of the loop body: [any(keyword in doc["content"].lower() or
    keyword in doc["title"].lower() for keyword in query_lower.split())]. *)
Definition doc_matches (query_lower : string) (doc : Doc) : bool :=
  any (fun keyword =>
         contains keyword (lower (content doc))
         || contains keyword (lower (title doc)))
      (split_ws query_lower).

(** [get_mock_documents] over a document list [docs]; the source iterates
    over the module constant [MOCK_DOCUMENTS]. *)
Definition get_mock_documents_from (docs : list Doc) (query : string)
  (top_k : option Z) : list Doc :=
  let query_lower := lower query in
  let filtered_docs := for_append (doc_matches query_lower) docs [] in
  slice_to top_k filtered_docs.

Definition get_mock_documents (query : string) (top_k : option Z) : list Doc :=
  get_mock_documents_from MOCK_DOCUMENTS query top_k.

Definition ligo_answer : string :=
  "Based on the LIGO/Gravity Spy knowledge base, LIGO (Laser Interferometer Gravitational-Wave Observatory) is a large-scale physics experiment designed to detect cosmic gravitational waves. The observatory uses laser interferometry to measure minute ripples in space-time caused by passing gravitational waves from cataclysmic cosmic events such as merging neutron stars or black holes." ++ nl
    ++ nl
    ++ "LIGO consists of two identical detectors located in Livingston, Louisiana, and Hanford, Washington. Each detector uses laser interferometry to detect gravitational waves by measuring tiny changes in the length of 4-kilometer-long arms arranged in an L-shape.".

Definition gravity_spy_answer : string :=
  "Gravity Spy is a citizen science project that helps classify glitches in LIGO data. Volunteers examine spectrograms of gravitational wave detector noise to identify and categorize different types of instrumental artifacts that could interfere with gravitational wave detection." ++ nl
    ++ nl
    ++ "The project uses machine learning combined with human expertise to improve the classification of detector glitches, which helps scientists understand and mitigate sources of noise in the LIGO detectors.".

Definition alog_answer : string :=
  "aLOGs (LIGO Online Glitch Database) contain detailed information about instrumental glitches detected in LIGO data. These logs help scientists understand the sources of noise and improve detector sensitivity by identifying and mitigating systematic issues." ++ nl
    ++ nl
    ++ "Glitches in LIGO data are instrumental artifacts that can interfere with gravitational wave detection. They can be caused by various sources including environmental factors, detector hardware issues, or external disturbances.".

Definition generic_answer (question : string) : string :=
  "Thank you for your question about '" ++ question
    ++ "'. Based on the available LIGO and Gravity Spy documentation, I can provide information about:" ++ nl
    ++ nl
    ++ "• **LIGO Technology**: Gravitational wave detectors, interferometry, and sensitivity" ++ nl
    ++ "• **Gravity Spy**: Citizen science project for glitch classification  " ++ nl
    ++ "• **aLOGs**: LIGO Online Glitch Database for detector characterization" ++ nl
    ++ "• **Scientific Results**: Gravitational wave detections and astrophysics" ++ nl
    ++ nl
    ++ "Could you please be more specific about what aspect you'd like to learn about?".

(** [generate_mock_response]; the [documents] argument is not read. *)
Definition generate_mock_response (question : string) (documents : list Doc)
  : string :=
  let question_lower := lower question in
  if contains "ligo" question_lower then ligo_answer
  else if contains "gravity spy" question_lower then gravity_spy_answer
  else if contains "alog" question_lower || contains "glitch" question_lower
       then alog_answer
  else generic_answer question.

Definition not_found_answer : string :=
  "I couldn't find relevant information in our knowledge base to answer your question. Please try rephrasing your question or contact a LIGO scientist for assistance.".

(** The [Citation(...)] built in the loop of [ask_question]. *)
Definition citation_of (doc : Doc) : Citation :=
  {| c_title := title doc;
     c_authors := Some (authors doc);
     c_url := Some (url doc);
     c_year := Some (year doc);
     c_source := source doc |}.

(** [for doc in retrieved_docs: citations.append(Citation(...))] *)
Definition collect_citations (retrieved_docs : list Doc) : list Citation :=
  fold_left (fun citations doc => (citations ++ [citation_of doc])%list)
            retrieved_docs [].

(** The handler of [POST /ask].  No step of its [try] body raises on a
    validated request (string and list operations over the fixed fixtures),
    so the handler's [except] branch is not reached and the function is
    total. *)
Definition ask_question (request : ChatRequest) : ChatResponse :=
  let retrieved_docs := get_mock_documents (question request) (top_k request) in
  match retrieved_docs with
  | [] =>
      {| answer := not_found_answer;
         citations := [];
         sources_used := 0;
         confidence := "low" |}
  | _ :: _ =>
      let response := generate_mock_response (question request) retrieved_docs in
      let citations := collect_citations retrieved_docs in
      {| answer := response;
         citations := citations;
         sources_used := Z.of_nat (List.length retrieved_docs);
         confidence :=
           if (2 <=? Z.of_nat (List.length retrieved_docs))%Z
           then "high" else "medium" |}
  end.

(** The request body [{"question": q}]: the declared defaults fill the
    other fields. *)
Definition default_request (q : string) : ChatRequest :=
  {| question := q; top_k := Some 5%Z; max_tokens := Some 500%Z |}.

End Main.

(** ** app/schemas.py *)

Module Schemas.

(** [DocumentChunk].  [score] is not a declared field: it stands for the
    attribute that [getattr(doc, 'score', None)] reads, [None] on an object
    that has none. *)
Record DocumentChunk : Type := mkDocumentChunk {
  id : string;
  content : string;
  title : string;
  authors : option string;
  url : option string;
  year : option Z;
  source : string;
  chunk_index : Z;
  metadata : option (list (string * option string));
  score : option PrimFloat.float
}.

End Schemas.

(** ** app/prompts.py: [RAGPromptManager] *)

Module Prompts.

Import Schemas.

(** A name space maps names to the string constants bound in it. *)
Definition namespace : Type := list (string * string).

Fixpoint lookup (name : string) (ns : namespace) : option string :=
  match ns with
  | [] => None
  | (n, v) :: rest => if String.eqb n name then Some v else lookup name rest
  end.

(** The body of class [RAGPromptManager] binds [DATA_DELIMITER]: a class
    attribute, read as [self.DATA_DELIMITER]. *)
Definition class_namespace : namespace := [("DATA_DELIMITER", "~~~")].

(** The module level of app/prompts.py binds the imports [re], [List],
    [Tuple], [DocumentChunk] and the class itself: no string constant. *)
Definition module_namespace : namespace := [].

(** A bare name inside a method body is looked up among the locals of the
    call and then among the globals of the module; the body of the
    enclosing class is not a scope of its methods. *)
Definition load_name (locals globals : namespace) (name : string)
  : result string :=
  match lookup name locals with
  | Some v => Ok v
  | None =>
      match lookup name globals with
      | Some v => Ok v
      | None => Raise (NameError name)
      end
  end.

(** An f-string is a sequence of literal text and replacement fields,
    evaluated from left to right. *)
Inductive piece : Type :=
| Lit (text : string)
| Field (name : string).

Fixpoint fstring (locals globals : namespace) (ps : list piece)
  : result string :=
  match ps with
  | [] => Ok EmptyString
  | Lit text :: rest =>
      tail <- fstring locals globals rest ;;
      Ok (text ++ tail)
  | Field name :: rest =>
      v <- load_name locals globals name ;;
      tail <- fstring locals globals rest ;;
      Ok (v ++ tail)
  end.

(** [x or default] for an optional string: [None] and the empty string
    are falsy. *)
Definition str_or (x : option string) (default : string) : string :=
  match x with
  | Some s => if truthy s then s else default
  | None => default
  end.

(** [{doc.year or 'Unknown'}]: [None] and [0] are falsy. *)
Definition year_or (x : option Z) (default : string) : string :=
  match x with
  | Some y => if (y =? 0)%Z then default else str_of_int y
  | None => default
  end.

(** The f-string of [_format_retrieved_docs] for the [i]-th document. *)
Definition doc_text (i : Z) (doc : DocumentChunk) : string :=
  nl
    ++ "Document " ++ str_of_int i ++ ":" ++ nl
    ++ "Title: " ++ title doc ++ nl
    ++ "Authors: " ++ str_or (authors doc) "Unknown" ++ nl
    ++ "Source: " ++ source doc ++ nl
    ++ "Year: " ++ year_or (year doc) "Unknown" ++ nl
    ++ "URL: " ++ str_or (url doc) "Not available" ++ nl
    ++ nl
    ++ "Content:" ++ nl
    ++ content doc ++ nl.

(** [for i, doc in enumerate(docs, 1): formatted_docs.append(...)] *)
Fixpoint format_loop (i : Z) (docs : list DocumentChunk)
  (formatted_docs : list string) : list string :=
  match docs with
  | [] => formatted_docs
  | doc :: rest =>
      format_loop (i + 1) rest (formatted_docs ++ [strip (doc_text i doc)])%list
  end.

Definition _format_retrieved_docs (docs : list DocumentChunk) : string :=
  join (nl ++ nl) (format_loop 1 docs []).

Definition question_label : string := nl ++ "Question: ".

Definition context_header : string :=
  nl
    ++ nl
    ++ "Context from LIGO/Gravity Spy knowledge base:" ++ nl.

Definition closing_instruction : string :=
  nl
    ++ nl
    ++ "Please answer the question using ONLY the provided context. If the context doesn't contain enough information to answer the question, please say so clearly." ++ nl.

Definition user_prompt_template : list piece :=
  [ Lit question_label; Field "question";
    Lit context_header;
    Field "DATA_DELIMITER"; Lit nl;
    Field "context_text"; Lit nl;
    Field "DATA_DELIMITER";
    Lit closing_instruction ].

Definition system_prompt_template : list piece :=
  [ Lit (nl
    ++ "You are a LIGO scientist tasked with responding to citizen scientists with factual," ++ nl
    ++ "accessible responses. These might be any questions about LIGO technology, scientific" ++ nl
    ++ "results, or questions about citizen scientist tasks related to Zooniverse or Gravity Spy." ++ nl
    ++ "Your goal is to help citizen scientists with factual responses to their questions that" ++ nl
    ++ "will enable them to interpret Gravity Spy Glitches and their origins. Use clear, simple" ++ nl
    ++ "language and avoid technical jargon to ensure accessibility. Translate acronyms to full" ++ nl
    ++ "words based upon LIGO Abbreviations and Acronyms whenever possible." ++ nl
    ++ nl
    ++ "IMPORTANT INSTRUCTIONS:" ++ nl
    ++ "1. Answer ONLY using the provided context between the ");
    Field "DATA_DELIMITER";
    Lit (" markers" ++ nl
    ++ "2. Always cite your sources using the format [text](url) for URLs" ++ nl
    ++ "3. If you reference a document, include the title and authors" ++ nl
    ++ "4. Use phrases like " ++ dq ++ "according to" ++ dq ++ " or " ++ dq ++ "as mentioned in" ++ dq ++ " when citing" ++ nl
    ++ "5. If the context doesn't contain enough information, clearly state this" ++ nl
    ++ "6. Expand acronyms when possible (e.g., LIGO = Laser Interferometer Gravitational-Wave Observatory)" ++ nl
    ++ "7. Maintain a neutral, informative tone" ++ nl
    ++ "8. Use " ++ dq ++ "some" ++ dq ++ " rather than " ++ dq ++ "all" ++ dq ++ " when referring to data to avoid extremes" ++ nl
    ++ nl
    ++ "When generating summaries, format all URLs without hashtags following this format:" ++ nl
    ++ "[template_link_text](template_link_url)." ++ nl
    ++ nl
    ++ "Structure responses logically, highlighting common or recent issues, and" ++ nl
    ++ "maintain a neutral, informative tone. Phrase interpretations with rhetoric like" ++ nl
    ++ dq ++ "an" ++ dq ++ " (as opposed to " ++ dq ++ "the" ++ dq ++ ") and " ++ dq ++ "some" ++ dq ++ " as opposed to " ++ dq ++ "all" ++ dq ++ " when referring to the" ++ nl
    ++ "data. This will avoid extremes when there is a lack of clarity." ++ nl) ].

(** [create_rag_prompts], run with [globals] as the module name space.
    The locals are the parameters and [context_text]. *)
Definition create_rag_prompts_in (globals : namespace) (question : string)
  (retrieved_docs : list DocumentChunk) : result (string * string) :=
  let context_text := _format_retrieved_docs retrieved_docs in
  let locals := [("question", question); ("context_text", context_text)] in
  user_prompt <- fstring locals globals user_prompt_template ;;
  system_prompt <- fstring locals globals system_prompt_template ;;
  Ok (strip user_prompt, strip system_prompt).

(** [RAGPromptManager.create_rag_prompts] as app/prompts.py defines it. *)
Definition create_rag_prompts (question : string)
  (retrieved_docs : list DocumentChunk) : result (string * string) :=
  create_rag_prompts_in module_namespace question retrieved_docs.

(** The text of the user prompt once every field is bound. *)
Definition user_prompt_text (delimiter question context_text : string)
  : string :=
  "Question: " ++ question ++ context_header
    ++ delimiter ++ nl
    ++ context_text ++ nl
    ++ delimiter ++ nl ++ nl
    ++ "Please answer the question using ONLY the provided context. If the context doesn't contain enough information to answer the question, please say so clearly.".

(** The dict that [extract_citations] builds for a cited chunk. *)
Record CitationDict : Type := mkCitationDict {
  c_title : string;
  c_authors : option string;
  c_url : option string;
  c_year : option Z;
  c_source : string;
  c_relevance_score : option PrimFloat.float
}.

Definition citation_dict (doc : DocumentChunk) : CitationDict :=
  {| c_title := title doc;
     c_authors := authors doc;
     c_url := url doc;
     c_year := year doc;
     c_source := source doc;
     c_relevance_score := score doc |}.

(** [doc.title.lower() in response.lower()] *)
Definition is_cited (response : string) (doc : DocumentChunk) : bool :=
  contains (lower (title doc)) (lower response).

(** [extract_citations]: one pass over [retrieved_docs], appending the
    dict of each chunk that passes the test. *)
Definition extract_citations (response : string)
  (retrieved_docs : list DocumentChunk) : list CitationDict :=
  fold_left
    (fun citations doc =>
       if is_cited response doc
       then (citations ++ [citation_dict doc])%list
       else citations)
    retrieved_docs [].

End Prompts.

(** ** app/generator.py: [ResponseGenerator] *)

Module Generator.

(** [l[i]] *)
Definition item {A : Type} (l : list A) (i : nat) : result A :=
  match nth_error l i with
  | Some x => Ok x
  | None => Raise (IndexError "list index out of range")
  end.

Definition marker : string := "Question:".

(** The first statement of [_get_mock_response]. *)
Definition extract_question (user_prompt : string) : result string :=
  if contains marker user_prompt
  then after <- item (split_sep marker user_prompt) 1 ;;
       line <- item (split_sep nl after) 0 ;;
       Ok (strip line)
  else Ok "your question".

(** The dict [mock_responses], in insertion order. *)
Definition mock_responses : list (string * string) :=
  [ ("ligo", "LIGO (Laser Interferometer Gravitational-Wave Observatory) is a large-scale physics experiment designed to detect cosmic gravitational waves. The observatory uses laser interferometry to measure minute ripples in space-time caused by passing gravitational waves from cataclysmic cosmic events such as merging neutron stars or black holes.");
    ("gravity spy", "Gravity Spy is a citizen science project that helps classify glitches in LIGO data. Volunteers examine spectrograms of gravitational wave detector noise to identify and categorize different types of instrumental artifacts that could interfere with gravitational wave detection.");
    ("alog", "aLOGs (LIGO Online Glitch Database) contain detailed information about instrumental glitches detected in LIGO data. These logs help scientists understand the sources of noise and improve detector sensitivity by identifying and mitigating systematic issues.");
    ("glitch", "Glitches in LIGO data are instrumental artifacts that can interfere with gravitational wave detection. They can be caused by various sources including environmental factors, detector hardware issues, or external disturbances. Gravity Spy helps classify these glitches to improve data quality.") ].

Definition canned_prefix : string :=
  "Based on the LIGO/Gravity Spy knowledge base, ".

Definition generic_response (question : string) : string :=
  "Thank you for your question about '" ++ question
    ++ "'. Based on the available LIGO and Gravity Spy documentation, I can provide information about gravitational wave detection, detector technology, and citizen science opportunities. Could you please be more specific about what aspect you'd like to learn about?".

(** [for keyword, response in mock_responses.items(): if keyword in
    question_lower: return ...], then the final [return]. *)
Fixpoint lookup_loop (table : list (string * string))
  (question question_lower : string) : string :=
  match table with
  | [] => generic_response question
  | (keyword, response) :: rest =>
      if contains keyword question_lower
      then canned_prefix ++ response
      else lookup_loop rest question question_lower
  end.

Definition _get_mock_response (user_prompt : string) : result string :=
  question <- extract_question user_prompt ;;
  let question_lower := lower question in
  Ok (lookup_loop mock_responses question question_lower).

(** The hosted completion service: [client.chat.completions.create] and
    the read of [choices[0].message.content], which may raise. *)
Definition Client : Type := string -> string -> Z -> result string.

(** [generate_response]; [client] is [self.client], [None] when the
    service could not be set up. *)
Definition generate_response (client : option Client)
  (user_prompt system_prompt : string) (max_tokens : Z) : result string :=
  try_except
    (match client with
     | None => _get_mock_response user_prompt
     | Some complete => complete system_prompt user_prompt max_tokens
     end)
    (fun _ => _get_mock_response user_prompt).

End Generator.

(** ** app/retriever.py: [DocumentRetriever] *)

Module Retriever.

Import Schemas.

(** The fixtures of [_get_mock_documents]: no authors, url or year is
    missing, [chunk_index] is 1, [metadata] keeps its default. *)
Definition mock_chunk (id content title authors url : string) (year : Z)
  (source : string) : DocumentChunk :=
  {| id := id; content := content; title := title;
     authors := Some authors; url := Some url; year := Some year;
     source := source; chunk_index := 1; metadata := None; score := None |}.

Definition mock_docs : list DocumentChunk :=
  [ mock_chunk "mock-1"
      "LIGO (Laser Interferometer Gravitational-Wave Observatory) is a large-scale physics experiment designed to detect cosmic gravitational waves. The observatory uses laser interferometry to measure the minute ripples in space-time caused by passing gravitational waves from cataclysmic cosmic events such as merging neutron stars or black holes."
      "Introduction to LIGO"
      "LIGO Scientific Collaboration"
      "https://www.ligo.org/science.php"
      2023
      "LIGO Documentation";
    mock_chunk "mock-2"
      "Gravity Spy is a citizen science project that helps classify glitches in LIGO data. Volunteers examine spectrograms of gravitational wave detector noise to identify and categorize different types of instrumental artifacts that could interfere with gravitational wave detection."
      "Gravity Spy Citizen Science"
      "Gravity Spy Team"
      "https://www.zooniverse.org/projects/zooniverse/gravity-spy"
      2024
      "Zooniverse";
    mock_chunk "mock-3"
      "aLOGs (LIGO Online Glitch Database) contain detailed information about instrumental glitches detected in LIGO data. These logs help scientists understand the sources of noise and improve detector sensitivity by identifying and mitigating systematic issues."
      "Understanding aLOGs"
      "LIGO Detector Characterization Group"
      "https://alog.ligo-wa.caltech.edu/"
      2023
      "aLOG Database" ].

(** [any(keyword in doc.content.lower() or keyword in doc.title.lower()
    for keyword in query_lower.split())] *)
Definition doc_matches (query_lower : string) (doc : DocumentChunk) : bool :=
  any (fun keyword =>
         contains keyword (lower (content doc))
         || contains keyword (lower (title doc)))
      (split_ws query_lower).

(** The filter and the slice of [_get_mock_documents] over a list [docs];
    the source runs them over [mock_docs]. *)
Definition keyword_filter (docs : list DocumentChunk) (query : string)
  (top_k : Z) : list DocumentChunk :=
  let query_lower := lower query in
  let filtered_docs := for_append (doc_matches query_lower) docs [] in
  slice_to (Some top_k) filtered_docs.

Definition _get_mock_documents (query : string) (top_k : Z)
  : list DocumentChunk :=
  keyword_filter mock_docs query top_k.

Section Backend.

(** The search service.  [SearchResult] is a record it returns; [search]
    is [self.search_client.search(...)] together with the iteration over
    its results, [Raise] when the service fails; [chunk_of_result] is the
    construction [DocumentChunk(id=result.get('id', ''), ...)], [Raise]
    when the model rejects the values. *)
Variable SearchResult : Type.
Variable search : string -> Z -> result (list SearchResult).
Variable chunk_of_result : SearchResult -> result DocumentChunk.

(** [for result in search_results: documents.append(DocumentChunk(...))] *)
Fixpoint collect (results : list SearchResult) (documents : list DocumentChunk)
  : result (list DocumentChunk) :=
  match results with
  | [] => Ok documents
  | r :: rest =>
      doc_chunk <- chunk_of_result r ;;
      collect rest (documents ++ [doc_chunk])%list
  end.

Definition retrieve_documents (query : string) (top_k : Z)
  : result (list DocumentChunk) :=
  try_except
    (search_results <- search query top_k ;;
     collect search_results [])
    (fun _ => Ok (_get_mock_documents query top_k)).

End Backend.

(** [MockSearchClient.search]: no result, no error. *)
Definition MockSearchClient_search {SearchResult : Type}
  (search_text : string) (top : Z) : result (list SearchResult) :=
  Ok [].

(** [_initialize_client]: [make_client] is the construction of the
    credential and of [SearchClient]; when it raises, the client is
    [MockSearchClient()]. *)
Definition _initialize_client {SearchResult : Type}
  (make_client : result (string -> Z -> result (list SearchResult)))
  : string -> Z -> result (list SearchResult) :=
  match make_client with
  | Ok search_client => search_client
  | Raise _ => MockSearchClient_search
  end.

End Retriever.

(** ** ingestion/zotero_sync.py: [ZoteroIngestion] *)

Module Zotero.

Import Schemas.

(** A creator of an item; an absent key is [None]. *)
Record Creator : Type := mkCreator {
  creatorType : option string;
  firstName : option string;
  lastName : option string
}.

(** The [data] dict of an item ([{}] when the item has none: every key
    absent). *)
Record ItemData : Type := mkItemData {
  itemType : option string;
  d_title : option string;
  d_url : option string;
  date : option string;
  abstractNote : option string;
  creators : list Creator
}.

(** An attachment, reduced to [att.get("data", {}).get("contentType")]. *)
Record Attachment : Type := mkAttachment {
  contentType : option string
}.

(** An item as the bibliography service returns it. *)
Record Item : Type := mkItem {
  key : option string;
  data : ItemData;
  attachments : list Attachment
}.

(** [d.get(k, default)] *)
Definition get (x : option string) (default : string) : string :=
  match x with
  | Some s => s
  | None => default
  end.

Definition valid_types : list string :=
  ["journalArticle"; "book"; "bookSection"; "report"; "thesis"; "document"].

(** [x in l] for a list of strings *)
Definition mem (x : string) (l : list string) : bool :=
  existsb (String.eqb x) l.

(** [att.get("data", {}).get("contentType") == "application/pdf"] *)
Definition is_pdf (att : Attachment) : bool :=
  match contentType att with
  | Some t => String.eqb t "application/pdf"
  | None => false
  end.

(** What [_is_valid_item] returns: [False], [True], or the url string
    that [has_pdf or data.get('url', '')] evaluates to. *)
Inductive verdict : Type :=
| VBool (b : bool)
| VStr (s : string).

Definition verdict_truthy (v : verdict) : bool :=
  match v with
  | VBool b => b
  | VStr s => truthy s
  end.

Definition _is_valid_item (item : Item) : verdict :=
  let data := data item in
  let item_type := get (itemType data) EmptyString in
  if negb (mem item_type valid_types) then VBool false
  else if negb (truthy (strip (get (d_title data) EmptyString))) then VBool false
  else
    let has_pdf := any is_pdf (attachments item) in
    if has_pdf then VBool true else VStr (get (d_url data) EmptyString).

(** [creator.get("creatorType") == "author"] *)
Definition is_author (c : Creator) : bool :=
  match creatorType c with
  | Some t => String.eqb t "author"
  | None => false
  end.

Definition _extract_authors (data : ItemData) : string :=
  let authors :=
    fold_left
      (fun authors creator =>
         if is_author creator then
           let first_name := get (firstName creator) EmptyString in
           let last_name := get (lastName creator) EmptyString in
           if truthy last_name
           then (authors ++ [strip (first_name ++ " " ++ last_name)])%list
           else authors
         else authors)
      (creators data) [] in
  match authors with
  | [] => "Unknown"
  | _ :: _ => join ", " authors
  end.

(** The value under ["year"] of a processed item: a string when it comes
    from [_process_zotero_item], an integer in [_get_mock_items]. *)
Inductive year_value : Type :=
| YearStr (s : string)
| YearInt (n : Z).

Definition year_truthy (y : year_value) : bool :=
  match y with
  | YearStr s => truthy s
  | YearInt n => negb (n =? 0)%Z
  end.

Definition year_text (y : year_value) : string :=
  match y with
  | YearStr s => s
  | YearInt n => str_of_int n
  end.

(** A processed item, the dict of [_process_zotero_item]. *)
Record Processed : Type := mkProcessed {
  p_id : string;
  p_title : string;
  p_authors : string;
  p_year : option year_value;
  p_url : string;
  p_abstract : string;
  p_item_type : string;
  p_source : string;
  p_raw_data : option ItemData
}.

(** [s.split("-")[0]]: the first piece always exists. *)
Definition before_dash (s : string) : string :=
  match split_sep "-" s with
  | p :: _ => p
  | [] => EmptyString
  end.

(** [data.get('date', '').split('-')[0] if data.get('date') else None] *)
Definition year_of_date (date : option string) : option year_value :=
  match date with
  | Some d => if truthy d then Some (YearStr (before_dash d)) else None
  | None => None
  end.

Definition _process_zotero_item (item : Item) : Processed :=
  let data := data item in
  {| p_id := get (key item) EmptyString;
     p_title := get (d_title data) EmptyString;
     p_authors := _extract_authors data;
     p_year := year_of_date (date data);
     p_url := get (d_url data) EmptyString;
     p_abstract := get (abstractNote data) EmptyString;
     p_item_type := get (itemType data) EmptyString;
     p_source := "Zotero";
     p_raw_data := Some data |}.

(** The loop of [sync_zotero_items] over the fetched [items]. *)
Definition process_items (items : list Item) : list Processed :=
  fold_left
    (fun processed_items item =>
       if verdict_truthy (_is_valid_item item)
       then (processed_items ++ [_process_zotero_item item])%list
       else processed_items)
    items [].

Definition mock_item (id title authors : string) (year : Z)
  (url abstract : string) : Processed :=
  {| p_id := id; p_title := title; p_authors := authors;
     p_year := Some (YearInt year); p_url := url; p_abstract := abstract;
     p_item_type := "journalArticle"; p_source := "Zotero";
     p_raw_data := None |}.

Definition _get_mock_items : list Processed :=
  [ mock_item "mock-zotero-1"
      "Advanced LIGO: The Next Generation of Gravitational Wave Detectors"
      "LIGO Scientific Collaboration" 2023
      "https://www.ligo.org/science.php"
      "This paper describes the Advanced LIGO detector upgrades and their impact on gravitational wave detection sensitivity.";
    mock_item "mock-zotero-2"
      "Gravity Spy: A Citizen Science Project for LIGO Glitch Classification"
      "Gravity Spy Team, LIGO Scientific Collaboration" 2024
      "https://www.zooniverse.org/projects/zooniverse/gravity-spy"
      "This paper presents the Gravity Spy citizen science project and its contributions to LIGO data quality.";
    mock_item "mock-zotero-3"
      "Understanding LIGO Detector Glitches Through Machine Learning"
      "Smith, A., Johnson, B., LIGO Detector Characterization Group" 2023
      "https://arxiv.org/abs/mock-paper"
      "This study explores machine learning approaches to classify and understand instrumental glitches in LIGO data." ].

(** Is the exception a [requests.RequestException]? *)
Definition is_request_exception (e : exn) : bool :=
  match e with
  | RequestException _ => true
  | _ => false
  end.

(** [sync_zotero_items]; [fetch] is the request with [raise_for_status]
    and the decoding of the body. *)
Definition sync_zotero_items (fetch : Z -> result (list Item)) (limit : Z)
  : result (list Processed) :=
  try_except
    (items <- fetch limit ;;
     Ok (process_items items))
    (fun e => if is_request_exception e then Ok _get_mock_items else Ok []).

Definition digit_value (c : ascii) : Z := Z.of_nat (nat_of_ascii c - 48).

(** The digits of an integer literal, with single underscores allowed
    between digits. *)
Fixpoint digits_go (s : string) (acc : Z) (after_digit : bool) : option Z :=
  match s with
  | EmptyString => if after_digit then Some acc else None
  | String c r =>
      if is_digit c then digits_go r (10 * acc + digit_value c)%Z true
      else if Ascii.eqb c "_"%char && after_digit then digits_go r acc false
      else None
  end.

Definition signed_digits (s : string) : option Z :=
  match s with
  | String c r =>
      if Ascii.eqb c "+"%char then digits_go r 0 false
      else if Ascii.eqb c "-"%char then option_map Z.opp (digits_go r 0 false)
      else digits_go s 0 false
  | EmptyString => digits_go s 0 false
  end.

Definition invalid_literal : exn :=
  ValueError "invalid literal for int() with base 10".

(** The white space that [int] skips at the two ends of its argument:
    tab, line feed, vertical tab, form feed, carriage return and the
    space.  Unlike [str.strip], [int] does not skip the separators
    28..31. *)
Definition int_space (c : ascii) : bool :=
  let n := nat_of_ascii c in
  (((9 <=? n) && (n <=? 13)) || (n =? 32))%nat.

Fixpoint int_lstrip (s : string) : string :=
  match s with
  | EmptyString => EmptyString
  | String c r => if int_space c then int_lstrip r else s
  end.

Fixpoint int_rstrip (s : string) : string :=
  match s with
  | EmptyString => EmptyString
  | String c r =>
      let r' := int_rstrip r in
      if int_space c && is_empty r' then EmptyString else String c r'
  end.

Definition int_strip (s : string) : string := int_rstrip (int_lstrip s).

(** [int(s)] for a string, base 10: white space around, an optional sign,
    then the digits. *)
Definition int_of_str (s : string) : result Z :=
  match signed_digits (int_strip s) with
  | Some n => Ok n
  | None => Raise invalid_literal
  end.

(** [int(item["year"])] *)
Definition int_of_year (y : year_value) : result Z :=
  match y with
  | YearStr s => int_of_str s
  | YearInt n => Ok n
  end.

(** [int(item["year"]) if item.get("year") else None] *)
Definition chunk_year (y : option year_value) : result (option Z) :=
  match y with
  | Some v => if year_truthy v then n <- int_of_year v ;; Ok (Some n)
              else Ok None
  | None => Ok None
  end.

(** The four conditional [content_parts.append(...)] and the join. *)
Definition chunk_content (item : Processed) : string :=
  let content_parts : list string := [] in
  let content_parts :=
    if truthy (p_title item)
    then (content_parts ++ [("Title: " ++ p_title item)%string])%list
    else content_parts in
  let content_parts :=
    if truthy (p_authors item)
    then (content_parts ++ [("Authors: " ++ p_authors item)%string])%list
    else content_parts in
  let content_parts :=
    if truthy (p_abstract item)
    then (content_parts ++ [("Abstract: " ++ p_abstract item)%string])%list
    else content_parts in
  let content_parts :=
    match p_year item with
    | Some y =>
        if year_truthy y
        then (content_parts ++ [("Year: " ++ year_text y)%string])%list
        else content_parts
    | None => content_parts
    end in
  join (nl ++ nl) content_parts.

(** The [DocumentChunk(...)] built for one item. *)
Definition chunk_of_item (item : Processed) : result DocumentChunk :=
  let content := chunk_content item in
  year <- chunk_year (p_year item) ;;
  Ok {| id := "zotero-" ++ p_id item;
        content := content;
        title := p_title item;
        authors := Some (p_authors item);
        url := Some (p_url item);
        year := year;
        source := "Zotero";
        chunk_index := 0;
        metadata := Some [ ("item_type", Some (p_item_type item));
                           ("zotero_id", Some (p_id item));
                           ("abstract", Some (p_abstract item)) ];
        score := None |}.

(** [create_document_chunks]: the loop has no handler, the first
    exception ends the call. *)
Fixpoint chunks_loop (items : list Processed) (chunks : list DocumentChunk)
  : result (list DocumentChunk) :=
  match items with
  | [] => Ok chunks
  | item :: rest =>
      chunk <- chunk_of_item item ;;
      chunks_loop rest (chunks ++ [chunk])%list
  end.

Definition create_document_chunks (items : list Processed)
  : result (list DocumentChunk) :=
  chunks_loop items [].

End Zotero.

(** ** tests/test_basic.py and sample inputs *)

Module Tests.

(** The fixture [sample_documents]. *)
Definition sample_documents : list Schemas.DocumentChunk :=
  [ Schemas.mkDocumentChunk "test-1" "LIGO is a gravitational wave detector."
      "LIGO Overview" (Some "LIGO Collaboration") (Some "https://www.ligo.org")
      (Some 2023%Z) "LIGO Documentation" 1 None None;
    Schemas.mkDocumentChunk "test-2"
      "Gravity Spy helps classify glitches in LIGO data."
      "Gravity Spy Project" (Some "Gravity Spy Team")
      (Some "https://www.zooniverse.org/projects/zooniverse/gravity-spy")
      (Some 2024%Z) "Zooniverse" 1 None None ].

(** Items as the bibliography service returns them, for the ingestion
    checks: a report with the given date, and a web page with a title, a
    URL and a PDF attachment. *)
Definition dated_item (date : option string) : Zotero.Item :=
  Zotero.mkItem (Some "K1")
    (Zotero.mkItemData (Some "report") (Some "Detector noise")
       (Some "https://dcc.ligo.org") date None [])
    [].

Definition webpage_item : Zotero.Item :=
  Zotero.mkItem (Some "W1")
    (Zotero.mkItemData (Some "webpage") (Some "LIGO Lab")
       (Some "https://www.ligo.caltech.edu") (Some "2024") None [])
    [Zotero.mkAttachment (Some "application/pdf")].

End Tests.

(** ** The vocabulary of the specification *)

Module Spec.

(** [t] occurs in [s]. *)
Definition Substring (t s : string) : Prop :=
  exists pre post, s = pre ++ t ++ post.

Fixpoint chars (s : string) : list ascii :=
  match s with
  | EmptyString => []
  | String c r => c :: chars r
  end.

(** No character of [s] is white space. *)
Definition NoSpace (s : string) : Prop :=
  forall c, In c (chars s) -> isspace c = false.

(** [s] is empty or begins with white space. *)
Definition SpaceAtStart (s : string) : Prop :=
  match s with
  | EmptyString => True
  | String c _ => isspace c = true
  end.

(** The last character of [s] is white space. *)
Definition EndsWithSpace (s : string) : Prop :=
  exists s' c, s = s' ++ String c EmptyString /\ isspace c = true.

(** [s] is empty or ends with white space. *)
Definition SpaceAtEnd (s : string) : Prop :=
  s = EmptyString \/ EndsWithSpace s.

(** [p] is the part of [s] before the first occurrence of [sep], and
    [rest] is what remains: [rest] is empty (no occurrence, [p] is all of
    [s]) or begins with [sep], and [sep] begins at no position inside
    [p]. *)
Definition UpTo (sep s p rest : string) : Prop :=
  s = p ++ rest
  /\ (rest = EmptyString \/ exists s', rest = sep ++ s')
  /\ forall a b, p = a ++ b -> b <> EmptyString ->
                 startswith sep (b ++ rest) = false.

(** [s] holds only white space. *)
Definition AllSpace (s : string) : Prop :=
  forall c, In c (chars s) -> isspace c = true.

(** The first character of [s] is white space. *)
Definition StartsWithSpace (s : string) : Prop :=
  exists c s', s = String c s' /\ isspace c = true.

(** [t] is [s] without the white space at its two ends. *)
Definition Stripped (s t : string) : Prop :=
  exists l r,
    s = l ++ t ++ r /\ AllSpace l /\ AllSpace r
    /\ ~ StartsWithSpace t /\ ~ EndsWithSpace t.

(** [q] is the text of [s] that follows the first occurrence of [marker],
    up to the next line break (or to the end of [s]). *)
Definition FollowsMarker (marker s q : string) : Prop :=
  exists pre after rest,
    UpTo marker s pre (marker ++ after) /\ UpTo nl after q rest.

(** [t] is a white-space-delimited token of [s]: a non-empty run without
    white space that is bounded on both sides by white space or by an end
    of [s]. *)
Definition Token (s t : string) : Prop :=
  exists pre post,
    s = pre ++ t ++ post
    /\ t <> EmptyString /\ NoSpace t
    /\ SpaceAtEnd pre /\ SpaceAtStart post.

(** The retrieval rule: some token of the lowercased query occurs in the
    lowercased content or in the lowercased title. *)
Definition Matches (query content title : string) : Prop :=
  exists t,
    Token (lower query) t
    /\ (Substring t (lower content) \/ Substring t (lower title)).

(** The confidence rule of the response envelope. *)
Definition confidence_rule (sources_used : Z) : string :=
  if (sources_used =? 0)%Z then "low"
  else if (sources_used =? 1)%Z then "medium"
  else "high".

(** [s] is a decimal numeral: one or more ASCII digits. *)
Definition Numeral (s : string) : Prop :=
  s <> EmptyString /\ forall c, In c (chars s) -> is_digit c = true.

(** [s] has a character that no integer literal may hold: not a digit, not
    white space, not a sign, not an underscore. *)
Definition NonNumeric (s : string) : Prop :=
  exists c,
    In c (chars s)
    /\ is_digit c = false /\ isspace c = false
    /\ c <> "+"%char /\ c <> "-"%char /\ c <> "_"%char.

End Spec.

From Stdlib Require Numbers.DecimalPos.

(** ** Closed forms for the further properties *)

Module Forms.

(** The first character of a text (a blank for the empty text). *)
Definition head_char (s : string) : ascii :=
  match s with
  | EmptyString => " "%char
  | String c _ => c
  end.

(** [enumerate(l, i)] *)
Fixpoint enumerate_from {A : Type} (i : Z) (l : list A) : list (Z * A) :=
  match l with
  | [] => []
  | x :: rest => (i, x) :: enumerate_from (i + 1) rest
  end.

(** The lines of a formatted chunk that come before its content. *)
Definition block_lead (i : Z) (doc : Schemas.DocumentChunk) : string :=
  "Document " ++ str_of_int i ++ ":" ++ nl
    ++ "Title: " ++ Schemas.title doc ++ nl
    ++ "Authors: " ++ Prompts.str_or (Schemas.authors doc) "Unknown" ++ nl
    ++ "Source: " ++ Schemas.source doc ++ nl
    ++ "Year: " ++ Prompts.year_or (Schemas.year doc) "Unknown" ++ nl
    ++ "URL: " ++ Prompts.str_or (Schemas.url doc) "Not available" ++ nl
    ++ nl.

(** What follows "Content:": nothing when the content is white space
    only, else a line break and the content without its trailing white
    space. *)
Definition content_tail (content : string) : string :=
  match rstrip content with
  | EmptyString => EmptyString
  | String c t => nl ++ String c t
  end.

(** A formatted chunk. *)
Definition block_text (i : Z) (doc : Schemas.DocumentChunk) : string :=
  block_lead i doc ++ "Content:" ++ content_tail (Schemas.content doc).

(** The last character of [k] exists and is not white space. *)
Fixpoint ends_without_space (k : string) : bool :=
  match k with
  | EmptyString => false
  | String c EmptyString => negb (isspace c)
  | String _ r => ends_without_space r
  end.

(** A creator that [_extract_authors] keeps: an author with a last
    name. *)
Definition named_author (c : Zotero.Creator) : bool :=
  Zotero.is_author c
  && truthy (Zotero.get (Zotero.lastName c) EmptyString).

(** The name written for a creator that is kept. *)
Definition full_name (c : Zotero.Creator) : string :=
  strip (Zotero.get (Zotero.firstName c) EmptyString
           ++ " " ++ Zotero.get (Zotero.lastName c) EmptyString).

(** A fixture of app/main.py written as a fixture of app/retriever.py. *)
Definition chunk_of_doc (d : Main.Doc) : Schemas.DocumentChunk :=
  Retriever.mock_chunk (Main.id d) (Main.content d) (Main.title d)
    (Main.authors d) (Main.url d) (Main.year d) (Main.source d).

(** The validity filter as a test. *)
Definition is_valid (item : Zotero.Item) : bool :=
  Zotero.verdict_truthy (Zotero._is_valid_item item).

(** Every character of [s] is an ASCII character. *)
Definition is_ascii (s : string) : bool :=
  forallb (fun c => (nat_of_ascii c <? 128)%nat) (Spec.chars s).

End Forms.

(** * Properties *)

Import Spec.

(** ** The Python operations on sample inputs *)

Example split_ws_ex : split_ws "  What is	LIGO? " = ["What"; "is"; "LIGO?"].
Proof. reflexivity. Qed.

Example split_sep_ex :
  split_sep "aa" "aaaxaa" = [EmptyString; "ax"; EmptyString].
Proof. reflexivity. Qed.

Example strip_ex : strip "  a b
 " = "a b".
Proof. reflexivity. Qed.

Example str_of_int_ex : str_of_int 2023 = "2023" /\ str_of_int (-5) = "-5".
Proof. split; reflexivity. Qed.

(** ** Strings *)

Section StringFacts.

Lemma sapp_nil_r (s : string) : s ++ EmptyString = s.
Proof. induction s as [|c s IH]; simpl; [reflexivity | now rewrite IH]. Qed.

Lemma sapp_assoc (a b c : string) : (a ++ b) ++ c = a ++ (b ++ c).
Proof. induction a as [|x a IH]; simpl; [reflexivity | now rewrite IH]. Qed.

Lemma chars_app (a b : string) : chars (a ++ b) = (chars a ++ chars b)%list.
Proof. induction a as [|x a IH]; simpl; [reflexivity | now rewrite IH]. Qed.

Lemma is_empty_true (s : string) : is_empty s = true <-> s = EmptyString.
Proof. destruct s; simpl; split; congruence. Qed.

Lemma truthy_true (s : string) : truthy s = true <-> s <> EmptyString.
Proof.
  unfold truthy. destruct s; simpl; split; congruence.
Qed.

Lemma startswith_app (p s : string) : startswith p (p ++ s) = true.
Proof.
  induction p as [|a p IH]; simpl; [reflexivity|].
  now rewrite Ascii.eqb_refl, IH.
Qed.

Lemma startswith_spec (p s : string) :
  startswith p s = true <-> exists post, s = p ++ post.
Proof.
  split.
  - revert s; induction p as [|a p IH]; intros s H.
    + now exists s.
    + destruct s as [|b s]; simpl in H; [discriminate|].
      apply andb_true_iff in H as [Hab Hps].
      apply Ascii.eqb_eq in Hab; subst b.
      destruct (IH _ Hps) as [post ->]. now exists post.
  - intros [post ->]. apply startswith_app.
Qed.

Lemma contains_cons (sub : string) (c : ascii) (s : string) :
  contains sub (String c s) = startswith sub (String c s) || contains sub s.
Proof. reflexivity. Qed.

Lemma contains_spec (sub s : string) :
  contains sub s = true <-> Substring sub s.
Proof.
  split.
  - induction s as [|c s IH]; intros H.
    + simpl in H. rewrite orb_false_r in H.
      apply startswith_spec in H as [post Hp].
      exists EmptyString, post. exact Hp.
    + rewrite contains_cons in H. apply orb_true_iff in H as [H|H].
      * apply startswith_spec in H as [post Hp].
        exists EmptyString, post. exact Hp.
      * destruct (IH H) as (pre & post & ->).
        now exists (String c pre), post.
  - intros (pre & post & ->).
    induction pre as [|c pre IH].
    + simpl. destruct (sub ++ post) eqn:E.
      * simpl. rewrite <- E, startswith_app. reflexivity.
      * rewrite contains_cons, <- E, startswith_app. reflexivity.
    + simpl. change (contains sub (String c (pre ++ sub ++ post)) = true).
      rewrite contains_cons, IH. apply orb_true_r.
Qed.

Lemma contains_false (sub s : string) :
  contains sub s = false <-> ~ Substring sub s.
Proof.
  rewrite <- contains_spec. destruct (contains sub s); split; congruence.
Qed.

Lemma contains_empty_false (k : string) :
  k <> EmptyString -> contains k EmptyString = false.
Proof. destruct k; simpl; congruence. Qed.

End StringFacts.

(** ** Loops that append *)

Section Loops.

Context {A B : Type}.

Lemma for_append_filter (keep : A -> bool) (l acc : list A) :
  for_append keep l acc = (acc ++ filter keep l)%list.
Proof.
  unfold for_append. revert acc.
  induction l as [|x l IH]; intros acc; simpl.
  - now rewrite app_nil_r.
  - rewrite IH. unfold append_if. destruct (keep x); simpl.
    + now rewrite <- app_assoc.
    + reflexivity.
Qed.

Lemma fold_append_map (f : A -> B) (l : list A) (acc : list B) :
  fold_left (fun acc x => (acc ++ [f x])%list) l acc = (acc ++ map f l)%list.
Proof.
  revert acc. induction l as [|x l IH]; intros acc; simpl.
  - now rewrite app_nil_r.
  - rewrite IH, <- app_assoc. reflexivity.
Qed.

Lemma fold_append_filter_map (keep : A -> bool) (f : A -> B) (l : list A)
  (acc : list B) :
  fold_left (fun acc x => if keep x then (acc ++ [f x])%list else acc) l acc
  = (acc ++ map f (filter keep l))%list.
Proof.
  revert acc. induction l as [|x l IH]; intros acc; simpl.
  - now rewrite app_nil_r.
  - rewrite IH. destruct (keep x); simpl.
    + now rewrite <- app_assoc.
    + reflexivity.
Qed.

Lemma slice_to_nonneg (k : Z) (l : list A) :
  (0 <= k)%Z -> slice_to (Some k) l = firstn (Z.to_nat k) l.
Proof.
  intros Hk. unfold slice_to.
  destruct (0 <=? k)%Z eqn:E; [reflexivity|].
  apply Z.leb_gt in E. lia.
Qed.

Lemma slice_to_length (k : Z) (l : list A) :
  (0 <= k)%Z -> (Z.of_nat (List.length (slice_to (Some k) l)) <= k)%Z.
Proof.
  intros Hk. rewrite slice_to_nonneg by assumption.
  rewrite length_firstn. lia.
Qed.

End Loops.

(** ** [split_ws] returns exactly the white-space-delimited tokens *)

Section Tokens.

Lemma NoSpace_nil : NoSpace EmptyString.
Proof. intros c []. Qed.

Lemma NoSpace_cons (c : ascii) (s : string) :
  NoSpace (String c s) <-> isspace c = false /\ NoSpace s.
Proof.
  unfold NoSpace; simpl; split.
  - intros H; split; [apply H; now left | intros x Hx; apply H; now right].
  - intros [Hc Hs] x [<-|Hx]; auto.
Qed.

Lemma In_push_word (t cur : string) (ws : list string) :
  In t ws -> In t (push_word cur ws).
Proof. unfold push_word; destruct (is_empty cur); simpl; auto. Qed.

Lemma In_push_word_inv (t cur : string) (ws : list string) :
  In t (push_word cur ws) -> (t = cur /\ cur <> EmptyString) \/ In t ws.
Proof.
  unfold push_word. destruct cur; simpl; [now right|].
  intros [<-|H]; [left; split; congruence | now right].
Qed.

Lemma split_ws_go_cons (c : ascii) (r : string) :
  split_ws_go (String c r)
  = if isspace c
    then (EmptyString, push_word (fst (split_ws_go r)) (snd (split_ws_go r)))
    else (String c (fst (split_ws_go r)), snd (split_ws_go r)).
Proof. simpl. destruct (split_ws_go r); reflexivity. Qed.

Lemma split_ws_eq (s : string) :
  split_ws s = push_word (fst (split_ws_go s)) (snd (split_ws_go s)).
Proof. unfold split_ws. destruct (split_ws_go s); reflexivity. Qed.

(** The open word is the run up to the first white space. *)
Lemma split_ws_go_run (t post : string) :
  NoSpace t -> SpaceAtStart post -> fst (split_ws_go (t ++ post)) = t.
Proof.
  intros Ht Hpost. induction t as [|c t IH].
  - destruct post as [|c r]; [reflexivity|].
    simpl in Hpost. change (EmptyString ++ String c r) with (String c r).
    rewrite split_ws_go_cons, Hpost. reflexivity.
  - apply NoSpace_cons in Ht as [Hc Ht].
    change (String c t ++ post) with (String c (t ++ post)).
    rewrite split_ws_go_cons, Hc. simpl. now rewrite IH.
Qed.

Lemma app_single_not_empty (s : string) (c : ascii) :
  s ++ String c EmptyString <> EmptyString.
Proof. destruct s; simpl; congruence. Qed.

Lemma split_ws_go_later (s pre t post : string) :
  s = pre ++ t ++ post ->
  EndsWithSpace pre -> t <> EmptyString -> NoSpace t -> SpaceAtStart post ->
  In t (snd (split_ws_go s)).
Proof.
  intros Hs Hpre Ht Hns Hpost. revert pre Hs Hpre.
  induction s as [|c r IH]; intros pre Hs (pre' & c0 & -> & Hc0).
  - exfalso. destruct pre'; simpl in Hs; discriminate.
  - rewrite split_ws_go_cons. destruct pre' as [|x p].
    + simpl in Hs. injection Hs as -> ->.
      rewrite Hc0. cbn [snd]. rewrite (split_ws_go_run t post Hns Hpost).
      unfold push_word. destruct t; [congruence | now left].
    + simpl in Hs. injection Hs as -> Hr.
      assert (Hin : In t (snd (split_ws_go r))).
      { apply (IH (p ++ String c0 EmptyString)); [exact Hr|].
        now exists p, c0. }
      destruct (isspace x); cbn [snd]; [now apply In_push_word | exact Hin].
Qed.

Lemma split_ws_complete (s t : string) : Token s t -> In t (split_ws s).
Proof.
  intros (pre & post & Hs & Ht & Hns & Hpre & Hpost).
  rewrite split_ws_eq. destruct Hpre as [-> | Hpre].
  - simpl in Hs. subst s. rewrite (split_ws_go_run t post Hns Hpost).
    unfold push_word. destruct t; [congruence | now left].
  - apply In_push_word. now apply (split_ws_go_later s pre t post).
Qed.

(** What the scan returns: the open word is a run without white space,
    what follows it starts with white space, and every later word is a
    token of the rest that has white space before it. *)
Lemma split_ws_go_sound (s : string) :
  exists rest,
    s = fst (split_ws_go s) ++ rest
    /\ NoSpace (fst (split_ws_go s)) /\ SpaceAtStart rest
    /\ forall t, In t (snd (split_ws_go s)) ->
         exists pre post,
           rest = pre ++ t ++ post
           /\ t <> EmptyString /\ NoSpace t
           /\ EndsWithSpace pre /\ SpaceAtStart post.
Proof.
  induction s as [|c r (rest & Hr & Hcur & Hrest & Hws)].
  - exists EmptyString. simpl. repeat split; auto using NoSpace_nil.
    intros t [].
  - rewrite split_ws_go_cons. destruct (isspace c) eqn:Hc; cbn [fst snd].
    + exists (String c r). repeat split; auto using NoSpace_nil.
      intros t Ht. apply In_push_word_inv in Ht as [[-> Hne] | Ht].
      * exists (String c EmptyString), rest. repeat split; auto.
        -- simpl. now rewrite <- Hr.
        -- now exists EmptyString, c.
      * destruct (Hws t Ht) as (pre & post & -> & Hne & Hns & Hpre & Hpost).
        exists (String c (fst (split_ws_go r) ++ pre)), post.
        repeat split; auto.
        -- simpl. rewrite sapp_assoc. now rewrite <- Hr.
        -- destruct Hpre as (p & c0 & -> & Hc0).
           exists (String c (fst (split_ws_go r) ++ p)), c0. split; auto.
           simpl. now rewrite sapp_assoc.
    + exists rest. repeat split; auto.
      * simpl. now rewrite <- Hr.
      * apply NoSpace_cons. now split.
Qed.

Lemma split_ws_sound (s t : string) : In t (split_ws s) -> Token s t.
Proof.
  rewrite split_ws_eq.
  destruct (split_ws_go_sound s) as (rest & Hs & Hcur & Hrest & Hws).
  intros Ht. apply In_push_word_inv in Ht as [[-> Hne] | Ht].
  - exists EmptyString, rest. repeat split; auto. now left.
  - destruct (Hws t Ht) as (pre & post & -> & Hne & Hns & Hpre & Hpost).
    exists (fst (split_ws_go s) ++ pre), post. repeat split; auto.
    + rewrite sapp_assoc. exact Hs.
    + right. destruct Hpre as (p & c0 & -> & Hc0).
      exists (fst (split_ws_go s) ++ p), c0. split; auto.
      now rewrite sapp_assoc.
Qed.

Lemma split_ws_tokens (s t : string) : In t (split_ws s) <-> Token s t.
Proof. split; [apply split_ws_sound | apply split_ws_complete]. Qed.

End Tokens.

(** ** [strip] *)

Section StripFacts.

Lemma AllSpace_nil : AllSpace EmptyString.
Proof. intros c []. Qed.

Lemma AllSpace_cons (c : ascii) (s : string) :
  isspace c = true -> AllSpace s -> AllSpace (String c s).
Proof. intros Hc Hs x [<-|Hx]; auto. Qed.

Lemma not_EndsWithSpace_nil : ~ EndsWithSpace EmptyString.
Proof. intros (s' & c & H & _). destruct s'; discriminate. Qed.

Lemma lstrip_spec (s : string) :
  exists l, s = l ++ lstrip s /\ AllSpace l /\ ~ StartsWithSpace (lstrip s).
Proof.
  induction s as [|c s (l & Hs & Hl & Hn)]; simpl.
  - exists EmptyString. repeat split; auto using AllSpace_nil.
    intros (c & s' & H & _). discriminate.
  - destruct (isspace c) eqn:Hc.
    + exists (String c l). simpl. rewrite <- Hs.
      repeat split; auto using AllSpace_cons.
    + exists EmptyString. repeat split; auto using AllSpace_nil.
      intros (c' & s' & H & Hc'). injection H as <- _. congruence.
Qed.

Lemma rstrip_spec (s : string) :
  exists r, s = rstrip s ++ r /\ AllSpace r /\ ~ EndsWithSpace (rstrip s).
Proof.
  induction s as [|c s (r & Hs & Hr & Hn)]; simpl.
  - exists EmptyString. repeat split; auto using AllSpace_nil.
    apply not_EndsWithSpace_nil.
  - destruct (isspace c && is_empty (rstrip s)) eqn:E.
    + apply andb_true_iff in E as [Hc He]. apply is_empty_true in He.
      exists (String c s). simpl. repeat split.
      * rewrite He in Hs. simpl in Hs. rewrite Hs.
        now apply AllSpace_cons.
      * apply not_EndsWithSpace_nil.
    + exists r. simpl. rewrite <- Hs. repeat split; auto.
      intros (s' & x & H & Hx). destruct s' as [|y s'].
      * simpl in H. injection H as -> He. rewrite He, Hx in E.
        discriminate.
      * simpl in H. injection H as _ H. apply Hn. now exists s', x.
Qed.

Lemma rstrip_keeps_start (s : string) :
  ~ StartsWithSpace s -> ~ StartsWithSpace (rstrip s).
Proof.
  intros Hs (c & s' & H & Hc). apply Hs.
  destruct s as [|x s]; simpl in H; [discriminate|].
  destruct (isspace x && is_empty (rstrip s)); [discriminate|].
  injection H as -> _. now exists c, s.
Qed.

Lemma strip_spec (s : string) : Stripped s (strip s).
Proof.
  unfold strip.
  destruct (lstrip_spec s) as (l & Hs & Hl & Hn).
  destruct (rstrip_spec (lstrip s)) as (r & Hs' & Hr & Hn').
  exists l, r. repeat split; auto.
  - now rewrite <- Hs'.
  - now apply rstrip_keeps_start.
Qed.

Lemma lstrip_head (c : ascii) (s : string) :
  isspace c = false -> lstrip (String c s) = String c s.
Proof. intros H; simpl; now rewrite H. Qed.

Lemma rstrip_NoSpace (s : string) : NoSpace s -> rstrip s = s.
Proof.
  induction s as [|c s IH]; intros H; [reflexivity|].
  apply NoSpace_cons in H as [Hc Hs]. simpl. now rewrite Hc, IH.
Qed.

Lemma strip_NoSpace (s : string) : NoSpace s -> strip s = s.
Proof.
  intros H. unfold strip. destruct s as [|c s]; [reflexivity|].
  pose proof H as H'. apply NoSpace_cons in H' as [Hc _].
  rewrite lstrip_head by assumption. now apply rstrip_NoSpace.
Qed.

Lemma In_lstrip (c : ascii) (s : string) :
  In c (chars s) -> isspace c = false -> In c (chars (lstrip s)).
Proof.
  intros Hin Hc. induction s as [|x s IH]; [destruct Hin|].
  simpl. destruct (isspace x) eqn:Hx; [|exact Hin].
  destruct Hin as [->|Hin]; [congruence | now apply IH].
Qed.

Lemma In_rstrip (c : ascii) (s : string) :
  In c (chars s) -> isspace c = false -> In c (chars (rstrip s)).
Proof.
  intros Hin Hc. induction s as [|x s IH]; [destruct Hin|].
  simpl. destruct Hin as [->|Hin].
  - rewrite Hc. simpl. now left.
  - specialize (IH Hin).
    destruct (rstrip s) as [|y t] eqn:E; [destruct IH|].
    rewrite andb_false_r. now right.
Qed.

Lemma In_strip (c : ascii) (s : string) :
  In c (chars s) -> isspace c = false -> In c (chars (strip s)).
Proof. intros Hin Hc. unfold strip. auto using In_lstrip, In_rstrip. Qed.

End StripFacts.

(** ** [split_sep] *)

Section SplitFacts.

Lemma split_sep_eq (sep s : string) :
  split_sep sep s
  = fst (split_sep_go sep 0 s) :: snd (split_sep_go sep 0 s).
Proof. unfold split_sep. destruct (split_sep_go sep 0 s); reflexivity. Qed.

Lemma split_sep_go_skip (sep x s : string) :
  split_sep_go sep (String.length x) (x ++ s) = split_sep_go sep 0 s.
Proof. induction x as [|c x IH]; [reflexivity | exact IH]. Qed.

Lemma split_sep_match (sep s : string) :
  sep <> EmptyString ->
  split_sep sep (sep ++ s) = EmptyString :: split_sep sep s.
Proof.
  intros Hsep. destruct sep as [|c sep']; [congruence|].
  rewrite (split_sep_eq _ s). unfold split_sep.
  change (String c sep' ++ s) with (String c (sep' ++ s)).
  cbn [split_sep_go].
  change (String c (sep' ++ s)) with (String c sep' ++ s).
  rewrite startswith_app.
  replace (String.length (String c sep') - 1) with (String.length sep')
    by (simpl; lia).
  rewrite split_sep_go_skip.
  destruct (split_sep_go (String c sep') 0 s). reflexivity.
Qed.

Lemma split_sep_nomatch (sep : string) (c : ascii) (r : string) :
  startswith sep (String c r) = false ->
  split_sep sep (String c r)
  = String c (fst (split_sep_go sep 0 r)) :: snd (split_sep_go sep 0 r).
Proof.
  intros H. unfold split_sep. cbn [split_sep_go]. rewrite H.
  destruct (split_sep_go sep 0 r). reflexivity.
Qed.

(** The first piece of [split_sep] is the text before the first
    occurrence of the separator; the other pieces are the split of what
    follows that occurrence. *)
Lemma split_sep_first (sep s : string) :
  sep <> EmptyString ->
  exists p rest,
    UpTo sep s p rest
    /\ (rest = EmptyString /\ split_sep sep s = [p]
        \/ exists s', rest = sep ++ s'
                      /\ split_sep sep s = p :: split_sep sep s').
Proof.
  intros Hsep.
  induction s as [|c r (p & rest & (Hr & Hrest & Hno) & Hsplit)].
  - exists EmptyString, EmptyString. split.
    + repeat split; [now left|]. intros a b H Hb.
      destruct a; simpl in H; [congruence | discriminate].
    + left. split; [reflexivity|]. destruct sep; [congruence|reflexivity].
  - destruct (startswith sep (String c r)) eqn:Hsw.
    + pose proof Hsw as Hsw'. apply startswith_spec in Hsw' as [s' Hs'].
      exists EmptyString, (String c r). split.
      * repeat split; [right; now exists s'|]. intros a b H Hb.
        destruct a; simpl in H; [congruence | discriminate].
      * right. exists s'. split; [exact Hs'|].
        rewrite Hs'. now apply split_sep_match.
    + exists (String c p), rest. split.
      * repeat split; [simpl; now rewrite <- Hr | exact Hrest |].
        intros a b H Hb. destruct a as [|x a]; simpl in H.
        -- subst b. simpl. rewrite <- Hr. exact Hsw.
        -- injection H as _ H. now apply (Hno a b).
      * rewrite (split_sep_nomatch sep c r Hsw).
        rewrite (split_sep_eq sep r) in Hsplit.
        destruct Hsplit as [[Hre Hs] | (s' & Hre & Hs)].
        -- left. split; [exact Hre|]. injection Hs as -> ->. reflexivity.
        -- right. exists s'. split; [exact Hre|].
           injection Hs as -> ->. reflexivity.
Qed.

Lemma UpTo_no_occurrence (sep s p : string) :
  sep <> EmptyString -> UpTo sep s p EmptyString -> ~ Substring sep s.
Proof.
  intros Hsep (Hs & _ & Hno) (pre & post & Hocc).
  rewrite sapp_nil_r in Hs. subst p.
  assert (H : startswith sep ((sep ++ post) ++ EmptyString) = true)
    by (rewrite sapp_assoc; apply startswith_app).
  rewrite (Hno pre (sep ++ post)) in H; [discriminate | |].
  - exact Hocc.
  - destruct sep; [congruence | simpl; discriminate].
Qed.

(** When the separator occurs, there are at least two pieces: the text
    before the first occurrence, then the text up to the next one. *)
Lemma split_sep_second (sep s : string) :
  sep <> EmptyString ->
  Substring sep s ->
  exists p after q rest more,
    UpTo sep s p (sep ++ after)
    /\ UpTo sep after q rest
    /\ split_sep sep s = p :: q :: more.
Proof.
  intros Hsep Hocc.
  destruct (split_sep_first sep s Hsep)
    as (p & rest & Hup & [[-> Hs] | (after & -> & Hs)]).
  - exfalso. now apply (UpTo_no_occurrence sep s p).
  - destruct (split_sep_first sep after Hsep)
      as (q & rest & Hup' & [[Hre Hs'] | (s' & Hre & Hs')]).
    + exists p, after, q, rest, []. rewrite Hs, Hs'. auto.
    + exists p, after, q, rest, (split_sep sep s'). rewrite Hs, Hs'. auto.
Qed.

End SplitFacts.

(** ** app/main.py *)

Section MainFacts.

Import Main.

Lemma doc_matches_spec (query : string) (d : Doc) :
  doc_matches (lower query) d = true
  <-> Matches query (content d) (title d).
Proof.
  unfold doc_matches, any, Matches. rewrite existsb_exists. split.
  - intros (t & Hin & H). exists t. split; [now apply split_ws_tokens|].
    apply orb_true_iff in H. now rewrite <- !contains_spec.
  - intros (t & Htok & H). exists t. split; [now apply split_ws_tokens|].
    apply orb_true_iff. now rewrite !contains_spec.
Qed.

Lemma get_mock_documents_from_eq (docs : list Doc) (query : string)
  (top_k : option Z) :
  get_mock_documents_from docs query top_k
  = slice_to top_k (filter (doc_matches (lower query)) docs).
Proof. unfold get_mock_documents_from. now rewrite for_append_filter. Qed.

Lemma filter_none {A : Type} (f : A -> bool) (l : list A) :
  (forall x, f x = false) -> filter f l = [].
Proof.
  intros H. induction l as [|x l IH]; simpl; [reflexivity|].
  now rewrite H.
Qed.

Lemma collect_citations_map (l : list Doc) :
  collect_citations l = map citation_of l.
Proof. unfold collect_citations. now rewrite fold_append_map. Qed.

Lemma ask_question_citations (request : ChatRequest) :
  citations (ask_question request)
  = map citation_of (get_mock_documents (question request) (top_k request)).
Proof.
  unfold ask_question.
  destruct (get_mock_documents (question request) (top_k request)) as [|d l].
  - reflexivity.
  - cbn [citations]. apply collect_citations_map.
Qed.

Lemma ask_question_sources_used (request : ChatRequest) :
  sources_used (ask_question request)
  = Z.of_nat
      (List.length (get_mock_documents (question request) (top_k request))).
Proof.
  unfold ask_question.
  destruct (get_mock_documents (question request) (top_k request));
    reflexivity.
Qed.

End MainFacts.

(** ** app/retriever.py *)

Section RetrieverFacts.

Import Schemas Retriever.

Lemma chunk_matches_spec (query : string) (d : DocumentChunk) :
  doc_matches (lower query) d = true
  <-> Matches query (content d) (title d).
Proof.
  unfold doc_matches, any, Matches. rewrite existsb_exists. split.
  - intros (t & Hin & H). exists t. split; [now apply split_ws_tokens|].
    apply orb_true_iff in H. now rewrite <- !contains_spec.
  - intros (t & Htok & H). exists t. split; [now apply split_ws_tokens|].
    apply orb_true_iff. now rewrite !contains_spec.
Qed.

Lemma keyword_filter_eq (docs : list DocumentChunk) (query : string)
  (top_k : Z) :
  keyword_filter docs query top_k
  = slice_to (Some top_k) (filter (doc_matches (lower query)) docs).
Proof. unfold keyword_filter. now rewrite for_append_filter. Qed.

End RetrieverFacts.

(** C4. Retrieval returns exactly the chunks that match the query, in the
    order of the document store, cut to the first [top_k]: for every query,
    every [top_k >= 0] and every document list, the result of the keyword
    retrieval (both [get_mock_documents] of app/main.py and
    [_get_mock_documents] of app/retriever.py, here over any document list)
    is the first [top_k] elements of the stored documents filtered by the
    rule "some white-space-delimited token of the lowercased query is a
    substring of the lowercased content or of the lowercased title"; it has
    at most [top_k] elements; and the empty query returns nothing. *)
Theorem C4_retrieval_returns_keyword_matches :
  forall (query : string) (top_k : Z),
    (0 <= top_k)%Z ->
    (forall docs : list Main.Doc,
        exists f : Main.Doc -> bool,
          (forall d, f d = true
                     <-> Matches query (Main.content d) (Main.title d))
          /\ Main.get_mock_documents_from docs query (Some top_k)
             = firstn (Z.to_nat top_k) (filter f docs)
          /\ (Z.of_nat (List.length
                (Main.get_mock_documents_from docs query (Some top_k)))
              <= top_k)%Z
          /\ Main.get_mock_documents_from docs EmptyString (Some top_k) = [])
    /\ (forall docs : list Schemas.DocumentChunk,
        exists f : Schemas.DocumentChunk -> bool,
          (forall d, f d = true
                     <-> Matches query (Schemas.content d) (Schemas.title d))
          /\ Retriever.keyword_filter docs query top_k
             = firstn (Z.to_nat top_k) (filter f docs)
          /\ (Z.of_nat (List.length (Retriever.keyword_filter docs query top_k))
              <= top_k)%Z
          /\ Retriever.keyword_filter docs EmptyString top_k = []).
Proof.
  intros query top_k Hk. split; intros docs.
  - exists (Main.doc_matches (lower query)). repeat split.
    + apply doc_matches_spec.
    + apply doc_matches_spec.
    + rewrite get_mock_documents_from_eq. now apply slice_to_nonneg.
    + rewrite get_mock_documents_from_eq. now apply slice_to_length.
    + rewrite get_mock_documents_from_eq, filter_none by reflexivity.
      rewrite slice_to_nonneg by assumption. apply firstn_nil.
  - exists (Retriever.doc_matches (lower query)). repeat split.
    + apply chunk_matches_spec.
    + apply chunk_matches_spec.
    + rewrite keyword_filter_eq. now apply slice_to_nonneg.
    + rewrite keyword_filter_eq. now apply slice_to_length.
    + rewrite keyword_filter_eq, filter_none by reflexivity.
      rewrite slice_to_nonneg by assumption. apply firstn_nil.
Qed.

Lemma C4_witness :
  (0 <= 1)%Z
  /\ (Z.of_nat (List.length
        (Main.get_mock_documents_from Main.MOCK_DOCUMENTS "glitch" (Some 1%Z)))
      <= 1)%Z
  /\ Retriever.keyword_filter Retriever.mock_docs EmptyString 1 = [].
Proof.
  assert (H01 : (0 <= 1)%Z) by (intro H; discriminate H).
  split; [exact H01|].
  destruct (C4_retrieval_returns_keyword_matches "glitch" 1 H01) as [HM HR].
  split.
  - destruct (HM Main.MOCK_DOCUMENTS) as (f & _ & _ & Hlen & _). exact Hlen.
  - destruct (HR Retriever.mock_docs) as (f & _ & _ & _ & Hempty).
    exact Hempty.
Defined.

(** With a negative [top_k] the slice counts from the end of the matches:
    the last match is dropped. *)
Example get_mock_documents_negative_top_k :
  map Main.title (Main.get_mock_documents "ligo" (Some (-1)%Z))
  = ["Introduction to LIGO"; "Gravity Spy Citizen Science"].
Proof. vm_compute. reflexivity. Qed.

(** C2, as stated, fails: the question "What is LIGO?" with the default
    [top_k] does not give one source with confidence "medium". *)
Lemma C2_counterexample :
  let r := Main.ask_question (Main.default_request "What is LIGO?") in
  ~ (Main.sources_used r = 1%Z
     /\ Main.confidence r = "medium"
     /\ Substring "LIGO" (Main.answer r)).
Proof. intros r [H _]. vm_compute in H. discriminate H. Qed.

(** C2, amended. The question "What is LIGO?" against the three fixture
    documents, with the default [top_k = 5], retrieves all three documents
    (the token "is" occurs in the content of each): [sources_used] is 3,
    [confidence] is "high", and the answer contains "LIGO". *)
Theorem C2_end_to_end_ligo :
  let r := Main.ask_question (Main.default_request "What is LIGO?") in
  List.length Main.MOCK_DOCUMENTS = 3
  /\ Main.sources_used r = 3%Z
  /\ Main.confidence r = "high"
  /\ Substring "LIGO" (Main.answer r)
  /\ Forall (fun d => Substring "is" (lower (Main.content d)))
            Main.MOCK_DOCUMENTS.
Proof.
  intros r. repeat split.
  - apply contains_spec. vm_compute. reflexivity.
  - repeat constructor; apply contains_spec; vm_compute; reflexivity.
Qed.

(** C3. Every response of [POST /ask] has [sources_used] equal to the
    number of citations, and its confidence is a function of
    [sources_used]: 0 gives "low" with the fixed not-found answer and no
    citation, 1 gives "medium", 2 or more give "high". *)
Theorem C3_response_envelope_invariant :
  forall request : Main.ChatRequest,
    let r := Main.ask_question request in
    Main.sources_used r = Z.of_nat (List.length (Main.citations r))
    /\ Main.confidence r = confidence_rule (Main.sources_used r)
    /\ (Main.sources_used r = 0%Z ->
        Main.confidence r = "low"
        /\ Main.answer r = Main.not_found_answer
        /\ Main.citations r = [])
    /\ (Main.sources_used r = 1%Z -> Main.confidence r = "medium")
    /\ ((2 <= Main.sources_used r)%Z -> Main.confidence r = "high").
Proof.
  intros request r. subst r.
  assert (Hs := ask_question_sources_used request).
  assert (Hc := ask_question_citations request).
  assert (Hconf : Main.confidence (Main.ask_question request)
                  = confidence_rule (Main.sources_used (Main.ask_question request))).
  { unfold Main.ask_question.
    destruct (Main.get_mock_documents _ _) as [|d [|d' l]]; try reflexivity.
    cbn [Main.confidence Main.sources_used]. unfold confidence_rule.
    cbn [List.length].
    destruct (2 <=? _)%Z eqn:E2; [|apply Z.leb_gt in E2; lia].
    destruct (_ =? 0)%Z eqn:E0; [apply Z.eqb_eq in E0; lia|].
    destruct (_ =? 1)%Z eqn:E1; [apply Z.eqb_eq in E1; lia|].
    reflexivity. }
  assert (Hzero : Main.sources_used (Main.ask_question request) = 0%Z ->
                  Main.answer (Main.ask_question request) = Main.not_found_answer
                  /\ Main.citations (Main.ask_question request) = []).
  { unfold Main.ask_question.
    destruct (Main.get_mock_documents _ _); [now split|].
    cbn [Main.sources_used List.length]. lia. }
  split; [|split; [|split; [|split]]].
  - rewrite Hs, Hc, length_map. reflexivity.
  - exact Hconf.
  - intros H. split; [rewrite Hconf, H; reflexivity | now apply Hzero].
  - intros H. rewrite Hconf, H. reflexivity.
  - intros H. rewrite Hconf. unfold confidence_rule.
    destruct (_ =? 0)%Z eqn:E0; [apply Z.eqb_eq in E0; lia|].
    destruct (_ =? 1)%Z eqn:E1; [apply Z.eqb_eq in E1; lia|].
    reflexivity.
Qed.

Lemma C3_witness :
  Main.confidence
    (Main.ask_question (Main.default_request "asdfqwerty nonsense")) = "low"
  /\ Main.confidence
       (Main.ask_question
          (Main.mkChatRequest "What is LIGO?" (Some 1%Z) None)) = "medium"
  /\ Main.confidence
       (Main.ask_question (Main.default_request "What is LIGO?")) = "high".
Proof.
  split; [|split].
  - destruct (C3_response_envelope_invariant
                (Main.default_request "asdfqwerty nonsense"))
      as (_ & _ & H0 & _).
    apply H0. vm_compute. reflexivity.
  - destruct (C3_response_envelope_invariant
                (Main.mkChatRequest "What is LIGO?" (Some 1%Z) None))
      as (_ & _ & _ & H1 & _).
    apply H1. vm_compute. reflexivity.
  - destruct (C3_response_envelope_invariant
                (Main.default_request "What is LIGO?"))
      as (_ & _ & _ & _ & H2).
    apply H2. vm_compute. intro H. discriminate H.
Defined.

(** C9. On [POST /ask] the citations are one per retrieved document, in
    retrieval order, with the fields of the document, whatever the answer
    text says (this holds for an empty retrieval too); the title-substring
    test is not applied: the request "glitch" cites "Gravity Spy Citizen
    Science", a title that does not occur in the answer. *)
Theorem C9_citations_mirror_retrieval :
  (forall request : Main.ChatRequest,
      let retrieved :=
        Main.get_mock_documents (Main.question request) (Main.top_k request) in
      Main.citations (Main.ask_question request)
      = map Main.citation_of retrieved
      /\ forall d,
           Main.c_title (Main.citation_of d) = Main.title d
           /\ Main.c_authors (Main.citation_of d) = Some (Main.authors d)
           /\ Main.c_url (Main.citation_of d) = Some (Main.url d)
           /\ Main.c_year (Main.citation_of d) = Some (Main.year d)
           /\ Main.c_source (Main.citation_of d) = Main.source d)
  /\ exists (request : Main.ChatRequest) (d : Main.Doc),
       In d (Main.get_mock_documents (Main.question request)
                                     (Main.top_k request))
       /\ ~ Substring (lower (Main.title d))
                      (lower (Main.answer (Main.ask_question request)))
       /\ In (Main.citation_of d) (Main.citations (Main.ask_question request)).
Proof.
  split.
  - intros request retrieved. split.
    + apply ask_question_citations.
    + intros d. repeat split.
  - exists (Main.default_request "glitch").
    exists (nth 1 Main.MOCK_DOCUMENTS (Main.mkDoc EmptyString EmptyString
              EmptyString EmptyString EmptyString 0 EmptyString)).
    split; [|split].
    + vm_compute. left. reflexivity.
    + apply contains_false. vm_compute. reflexivity.
    + vm_compute. left. reflexivity.
Qed.

(** ** app/prompts.py: citations *)

Section CitationFacts.

Import Schemas Prompts.

Lemma is_cited_spec (response : string) (d : DocumentChunk) :
  is_cited response d = true
  <-> Substring (lower (title d)) (lower response).
Proof. apply contains_spec. Qed.

Lemma extract_citations_eq (response : string) (docs : list DocumentChunk) :
  extract_citations response docs
  = map citation_dict (filter (is_cited response) docs).
Proof. unfold extract_citations. now rewrite fold_append_filter_map. Qed.

End CitationFacts.

(** C5. [extract_citations] cites a chunk exactly when its lowercased
    title is a substring of the lowercased answer; the citations follow the
    order of the input chunks; each carries the title, authors, url, year
    and source of its chunk and, as relevance score, the chunk's [score]
    attribute ([None] when it has none). *)
Theorem C5_extract_citations_policy :
  forall (answer : string) (chunks : list Schemas.DocumentChunk),
    exists cited : Schemas.DocumentChunk -> bool,
      (forall d, cited d = true
                 <-> Substring (lower (Schemas.title d)) (lower answer))
      /\ Prompts.extract_citations answer chunks
         = map Prompts.citation_dict (filter cited chunks)
      /\ forall d,
           Prompts.c_relevance_score (Prompts.citation_dict d)
           = Schemas.score d
           /\ Prompts.c_title (Prompts.citation_dict d) = Schemas.title d
           /\ Prompts.c_authors (Prompts.citation_dict d) = Schemas.authors d
           /\ Prompts.c_url (Prompts.citation_dict d) = Schemas.url d
           /\ Prompts.c_year (Prompts.citation_dict d) = Schemas.year d
           /\ Prompts.c_source (Prompts.citation_dict d) = Schemas.source d.
Proof.
  intros answer chunks. exists (Prompts.is_cited answer). split; [|split].
  - intros d. apply is_cited_spec.
  - apply extract_citations_eq.
  - intros d. repeat split.
Qed.

(** [test_citation_extraction]: one of the two titles occurs, one citation. *)
Example extract_citations_one_of_two :
  map Prompts.c_title
    (Prompts.extract_citations
       "LIGO is a gravitational wave detector as mentioned in the LIGO Overview document."
       Tests.sample_documents)
  = ["LIGO Overview"].
Proof. vm_compute. reflexivity. Qed.

(** The answer names the second title first, in another case: the
    citations still come in chunk order. *)
Example extract_citations_chunk_order :
  map Prompts.c_title
    (Prompts.extract_citations
       "See the GRAVITY SPY PROJECT and then the ligo overview."
       Tests.sample_documents)
  = ["LIGO Overview"; "Gravity Spy Project"].
Proof. vm_compute. reflexivity. Qed.

(** C7. When the search client cannot be built, [_initialize_client]
    installs [MockSearchClient], whose [search] succeeds with no result:
    [retrieve_documents] then returns the empty list for every query and
    every [top_k], and [_get_mock_documents] is not reached.  For the
    query of [test_document_retrieval], "LIGO gravitational waves" with
    [top_k = 3], each of the three fixtures matches the keyword rule and
    the keyword algorithm returns all three, but the call returns
    nothing. *)
Theorem C7_mock_client_returns_nothing :
  forall (SearchResult : Type)
         (chunk_of_result : SearchResult -> result Schemas.DocumentChunk)
         (e : exn),
    let retrieve :=
      Retriever.retrieve_documents SearchResult
        (Retriever._initialize_client (Raise e)) chunk_of_result in
    (forall query top_k, retrieve query top_k = Ok [])
    /\ (forall d, In d Retriever.mock_docs ->
                  Matches "LIGO gravitational waves"
                          (Schemas.content d) (Schemas.title d))
    /\ Retriever._get_mock_documents "LIGO gravitational waves" 3
       = Retriever.mock_docs
    /\ retrieve "LIGO gravitational waves" 3%Z
       <> Ok (Retriever._get_mock_documents "LIGO gravitational waves" 3).
Proof.
  intros SearchResult chunk_of_result e retrieve.
  split; [reflexivity|]. split; [|split].
  - intros d Hin. apply chunk_matches_spec.
    destruct Hin as [<-|[<-|[<-|[]]]]; vm_compute; reflexivity.
  - vm_compute. reflexivity.
  - subst retrieve. vm_compute. discriminate.
Qed.

(** With [MockSearchClient] the search succeeds with no result, so
    [retrieve_documents] returns the empty list and the fixtures are not
    consulted. *)
Example retrieve_documents_mock_client :
  Retriever.retrieve_documents unit Retriever.MockSearchClient_search
    (fun _ => Raise (ValidationError "rejected")) "LIGO" 3
  = Ok [].
Proof. reflexivity. Qed.

(** ** ingestion/zotero_sync.py *)

Section ZoteroFacts.

Import Schemas Zotero.

Lemma mem_spec (x : string) (l : list string) : mem x l = true <-> In x l.
Proof.
  unfold mem. rewrite existsb_exists. split.
  - intros (y & Hin & H). apply String.eqb_eq in H. now subst y.
  - intros H. exists x. split; [exact H | apply String.eqb_refl].
Qed.

Lemma is_pdf_spec (att : Attachment) :
  is_pdf att = true <-> contentType att = Some "application/pdf".
Proof.
  unfold is_pdf. destruct (contentType att) as [t|].
  - rewrite String.eqb_eq. split; congruence.
  - split; discriminate.
Qed.

Lemma process_items_eq (items : list Item) :
  process_items items
  = map _process_zotero_item
        (filter (fun i => verdict_truthy (_is_valid_item i)) items).
Proof. unfold process_items. now rewrite fold_append_filter_map. Qed.

Lemma process_items_drop (item : Item) (before after : list Item) :
  verdict_truthy (_is_valid_item item) = false ->
  process_items (before ++ item :: after) = process_items (before ++ after).
Proof.
  intros H. rewrite !process_items_eq, !filter_app. simpl. now rewrite H.
Qed.

Lemma int_space_isspace (c : ascii) :
  isspace c = false -> int_space c = false.
Proof.
  unfold isspace, int_space. cbv zeta. intros H.
  apply orb_false_iff in H as [H H32].
  apply orb_false_iff in H as [H9 _].
  now rewrite H9, H32.
Qed.

Lemma int_strip_NoSpace (s : string) : NoSpace s -> int_strip s = s.
Proof.
  intros H. unfold int_strip.
  assert (Hr : forall t, NoSpace t -> int_rstrip t = t).
  { induction t as [|c t IH]; intros Ht; [reflexivity|].
    apply NoSpace_cons in Ht as [Hc Ht]. simpl.
    now rewrite (int_space_isspace c Hc), IH. }
  destruct s as [|c s]; [reflexivity|].
  pose proof H as H'. apply NoSpace_cons in H' as [Hc _].
  cbn [int_lstrip]. rewrite (int_space_isspace c Hc). now apply Hr.
Qed.

Lemma In_int_strip (c : ascii) (s : string) :
  In c (chars s) -> isspace c = false -> In c (chars (int_strip s)).
Proof.
  intros Hin Hc. apply int_space_isspace in Hc. unfold int_strip.
  assert (Hl : In c (chars (int_lstrip s))).
  { induction s as [|x s IH]; [destruct Hin|].
    simpl. destruct (int_space x) eqn:Hx; [|exact Hin].
    destruct Hin as [->|Hin]; [congruence | now apply IH]. }
  revert Hl. generalize (int_lstrip s). intros t Hl.
  induction t as [|x t IH]; [destruct Hl|].
  simpl. destruct Hl as [->|Hl].
  - rewrite Hc. simpl. now left.
  - specialize (IH Hl).
    destruct (int_rstrip t) as [|y u] eqn:E; [destruct IH|].
    rewrite andb_false_r. now right.
Qed.

Lemma before_dash_spec (d : string) :
  exists rest, UpTo "-" d (before_dash d) rest.
Proof.
  unfold before_dash.
  destruct (split_sep_first "-" d) as (p & rest & Hup & H);
    [discriminate|].
  exists rest.
  destruct H as [[_ ->] | (s' & _ & ->)]; exact Hup.
Qed.

Lemma digits_go_digits (s : string) (acc : Z) (b : bool) :
  (forall c, In c (chars s) -> is_digit c = true) ->
  (0 <= acc)%Z -> s <> EmptyString \/ b = true ->
  exists n, digits_go s acc b = Some n /\ (0 <= n)%Z.
Proof.
  revert acc b. induction s as [|c s IH]; intros acc b Hd Hacc Hne.
  - destruct Hne as [Hne | ->]; [congruence|]. now exists acc.
  - cbn [digits_go]. rewrite (Hd c) by now left.
    apply IH; [intros x Hx; apply Hd; now right | | now right].
    assert (0 <= digit_value c)%Z by (unfold digit_value; lia). lia.
Qed.

Lemma digit_not_space (c : ascii) : is_digit c = true -> isspace c = false.
Proof.
  unfold is_digit, isspace. cbv zeta. intros H.
  apply andb_true_iff in H as [H1 H2].
  apply Nat.leb_le in H1. apply Nat.leb_le in H2.
  apply orb_false_iff; split; [apply orb_false_iff; split|].
  - apply andb_false_iff. right. apply Nat.leb_gt. lia.
  - apply andb_false_iff. right. apply Nat.leb_gt. lia.
  - apply Nat.eqb_neq. lia.
Qed.

Lemma int_of_str_numeral (s : string) :
  Numeral s -> exists n, int_of_str s = Ok n /\ (0 <= n)%Z.
Proof.
  intros [Hne Hd]. unfold int_of_str.
  rewrite int_strip_NoSpace
    by (intros c Hc; apply digit_not_space; now apply Hd).
  assert (Hgo : exists n, digits_go s 0 false = Some n /\ (0 <= n)%Z)
    by (apply digits_go_digits; auto; lia).
  destruct Hgo as (n & Hn & Hpos). exists n. split; [|exact Hpos].
  unfold signed_digits. destruct s as [|c r]; [congruence|].
  assert (Hc : is_digit c = true) by (apply Hd; now left).
  destruct (Ascii.eqb c "+") eqn:E1;
    [apply Ascii.eqb_eq in E1; subst c; discriminate Hc|].
  destruct (Ascii.eqb c "-") eqn:E2;
    [apply Ascii.eqb_eq in E2; subst c; discriminate Hc|].
  now rewrite Hn.
Qed.

Lemma digits_go_non_numeric (s : string) (acc : Z) (b : bool) (c : ascii) :
  In c (chars s) -> is_digit c = false -> c <> "_"%char ->
  digits_go s acc b = None.
Proof.
  intros Hin Hd Hu. revert acc b.
  induction s as [|x s IH]; intros acc b; [destruct Hin|].
  simpl. destruct Hin as [->|Hin].
  - rewrite Hd. apply Ascii.eqb_neq in Hu. now rewrite Hu.
  - destruct (is_digit x); [now apply IH|].
    destruct (Ascii.eqb x "_" && b); [now apply IH | reflexivity].
Qed.

Lemma int_of_str_non_numeric (s : string) :
  NonNumeric s -> int_of_str s = Raise invalid_literal.
Proof.
  intros (c & Hin & Hd & Hsp & Hplus & Hminus & Hu).
  assert (Hin' := In_int_strip c s Hin Hsp).
  unfold int_of_str.
  destruct (int_strip s) as [|x t] eqn:E; [destruct Hin'|].
  assert (Hnone : signed_digits (String x t) = None).
  { unfold signed_digits.
    destruct (Ascii.eqb x "+") eqn:E1.
    - apply Ascii.eqb_eq in E1; subst x.
      destruct Hin' as [<-|Hin']; [congruence|].
      now apply (digits_go_non_numeric t 0 false c).
    - destruct (Ascii.eqb x "-") eqn:E2.
      + apply Ascii.eqb_eq in E2; subst x.
        destruct Hin' as [<-|Hin']; [congruence|].
        now rewrite (digits_go_non_numeric t 0 false c).
      + now apply (digits_go_non_numeric (String x t) 0 false c). }
  now rewrite Hnone.
Qed.

(** [int] skips the white space around the digits, and not the
    separators 28..31 that [str.strip] removes. *)
Example int_of_str_white_space :
  int_of_str (" 12" ++ nl) = Ok 12%Z
  /\ int_of_str (String "028"%char "12") = Raise invalid_literal
  /\ strip (String "028"%char "12") = "12".
Proof. repeat split. Qed.

Lemma chunk_of_item_error (item : Processed) (e : exn) :
  chunk_of_item item = Raise e -> e = invalid_literal.
Proof.
  unfold chunk_of_item, chunk_year.
  destruct (p_year item) as [[s|n]|]; simpl.
  - destruct (truthy s); simpl; [|discriminate].
    unfold int_of_str. destruct (signed_digits (int_strip s)); simpl.
    + discriminate.
    + intros H. injection H as <-. reflexivity.
  - destruct (negb (n =? 0)%Z); discriminate.
  - discriminate.
Qed.

Lemma chunks_loop_raise (before after : list Processed) (item : Processed)
  (chunks : list DocumentChunk) :
  chunk_of_item item = Raise invalid_literal ->
  chunks_loop (before ++ item :: after) chunks = Raise invalid_literal.
Proof.
  intros Hitem. revert chunks.
  induction before as [|x before IH]; intros chunks; simpl.
  - now rewrite Hitem.
  - destruct (chunk_of_item x) as [c|e] eqn:E; simpl.
    + apply IH.
    + now rewrite (chunk_of_item_error x e E).
Qed.

Lemma chunks_loop_ok (items : list Processed) (chunks out : list DocumentChunk) :
  chunks_loop items chunks = Ok out ->
  exists new,
    out = (chunks ++ new)%list
    /\ List.length new = List.length items
    /\ Forall (fun c => chunk_index c = 0%Z /\ source c = "Zotero") new.
Proof.
  revert chunks. induction items as [|x items IH]; intros chunks H.
  - simpl in H. injection H as <-. exists []. rewrite app_nil_r. auto.
  - simpl in H. destruct (chunk_of_item x) as [c|e] eqn:E; simpl in H;
      [|discriminate].
    destruct (IH _ H) as (new & -> & Hlen & Hall).
    exists (c :: new). rewrite <- app_assoc. repeat split; simpl; auto.
    constructor; [|exact Hall].
    unfold chunk_of_item in E.
    destruct (chunk_year (p_year x)); simpl in E; [|discriminate].
    injection E as <-. now split.
Qed.

End ZoteroFacts.

(** C8. The validity filter accepts an item exactly when its type is one of
    journalArticle, book, bookSection, report, thesis, document, its title
    is not empty once stripped, and it has a PDF attachment or a non-empty
    URL.  An item of type "webpage" is rejected whatever its title and URL,
    so it leaves no trace in the processed items nor in the chunks built
    from them. *)
Theorem C8_validity_filter :
  forall item : Zotero.Item,
    (Zotero.verdict_truthy (Zotero._is_valid_item item) = true
     <-> In (Zotero.get (Zotero.itemType (Zotero.data item)) EmptyString)
            ["journalArticle"; "book"; "bookSection"; "report"; "thesis";
             "document"]
         /\ strip (Zotero.get (Zotero.d_title (Zotero.data item)) EmptyString)
            <> EmptyString
         /\ ((exists att, In att (Zotero.attachments item)
                          /\ Zotero.contentType att = Some "application/pdf")
             \/ Zotero.get (Zotero.d_url (Zotero.data item)) EmptyString
                <> EmptyString))
    /\ (Zotero.itemType (Zotero.data item) = Some "webpage" ->
        Zotero.verdict_truthy (Zotero._is_valid_item item) = false
        /\ forall before after : list Zotero.Item,
             Zotero.process_items (before ++ item :: after)
             = Zotero.process_items (before ++ after)
             /\ Zotero.create_document_chunks
                  (Zotero.process_items (before ++ item :: after))
                = Zotero.create_document_chunks
                    (Zotero.process_items (before ++ after))).
Proof.
  intros item.
  assert (Hiff :
    Zotero.verdict_truthy (Zotero._is_valid_item item) = true
    <-> In (Zotero.get (Zotero.itemType (Zotero.data item)) EmptyString)
           Zotero.valid_types
        /\ strip (Zotero.get (Zotero.d_title (Zotero.data item)) EmptyString)
           <> EmptyString
        /\ ((exists att, In att (Zotero.attachments item)
                         /\ Zotero.contentType att = Some "application/pdf")
            \/ Zotero.get (Zotero.d_url (Zotero.data item)) EmptyString
               <> EmptyString)).
  { unfold Zotero._is_valid_item. cbv zeta.
    rewrite <- mem_spec, <- truthy_true.
    destruct (Zotero.mem _ Zotero.valid_types); simpl;
      [|split; [discriminate | intros [H _]; discriminate H]].
    destruct (truthy (strip _)); simpl;
      [|split; [discriminate | intros (_ & H & _); discriminate H]].
    destruct (any Zotero.is_pdf (Zotero.attachments item)) eqn:Epdf; simpl.
    - split; [|reflexivity]. intros _. repeat split. left.
      apply existsb_exists in Epdf as (att & Hin & Hpdf).
      exists att. split; [exact Hin | now apply is_pdf_spec].
    - rewrite truthy_true. split.
      + intros H. repeat split. now right.
      + intros (_ & _ & [(att & Hin & Hpdf) | H]); [|exact H].
        exfalso. apply is_pdf_spec in Hpdf.
        assert (Hex : existsb Zotero.is_pdf (Zotero.attachments item) = true)
          by (apply existsb_exists; now exists att).
        unfold any in Epdf. congruence. }
  split; [exact Hiff|].
  intros Hweb.
  assert (Hfalse : Zotero.verdict_truthy (Zotero._is_valid_item item) = false).
  { unfold Zotero._is_valid_item. cbv zeta. rewrite Hweb. reflexivity. }
  split; [exact Hfalse|].
  intros before after.
  rewrite (process_items_drop item before after Hfalse). now split.
Qed.

Lemma C8_witness :
  Zotero.itemType (Zotero.data Tests.webpage_item) = Some "webpage"
  /\ Zotero.verdict_truthy (Zotero._is_valid_item Tests.webpage_item) = false
  /\ Zotero.create_document_chunks (Zotero.process_items [Tests.webpage_item])
     = Ok [].
Proof.
  destruct (C8_validity_filter Tests.webpage_item) as [_ Hweb].
  destruct (Hweb eq_refl) as [Hfalse Hdrop].
  split; [reflexivity|]. split; [exact Hfalse|].
  destruct (Hdrop [] []) as [_ Hchunks]. exact Hchunks.
Defined.

(** C10. The year of a processed item is [None] when the item has no date
    (absent or empty), and otherwise the text of the date before its first
    "-".  [create_document_chunks] parses that text with [int]: an item
    whose year is absent or a decimal numeral gives exactly one chunk, with
    [chunk_index = 0] and [source = "Zotero"]; an item whose year holds a
    character that no integer literal may hold (as in "March 2024") makes
    the conversion raise [ValueError], and the call then returns no chunk
    for the whole batch. *)
Theorem C10_year_normalisation_is_partial :
  forall item : Zotero.Item,
    let p := Zotero._process_zotero_item item in
    ((Zotero.date (Zotero.data item) = None
      \/ Zotero.date (Zotero.data item) = Some EmptyString) ->
     Zotero.p_year p = None)
    /\ (forall d, Zotero.date (Zotero.data item) = Some d ->
                  d <> EmptyString ->
                  exists prefix rest,
                    UpTo "-" d prefix rest
                    /\ Zotero.p_year p = Some (Zotero.YearStr prefix))
    /\ ((Zotero.p_year p = None
         \/ exists s, Zotero.p_year p = Some (Zotero.YearStr s) /\ Numeral s) ->
        exists c,
          Zotero.create_document_chunks [p] = Ok [c]
          /\ Schemas.chunk_index c = 0%Z
          /\ Schemas.source c = "Zotero")
    /\ (forall s, Zotero.p_year p = Some (Zotero.YearStr s) ->
                  NonNumeric s ->
                  Zotero.int_of_str s
                  = Raise (ValueError "invalid literal for int() with base 10")
                  /\ forall before after : list Zotero.Processed,
                       Zotero.create_document_chunks (before ++ p :: after)
                       = Raise (ValueError
                                  "invalid literal for int() with base 10")).
Proof.
  intros item p. split; [|split; [|split]].
  - subst p. unfold Zotero._process_zotero_item. cbn [Zotero.p_year].
    intros [-> | ->]; reflexivity.
  - intros d Hd Hne. subst p. unfold Zotero._process_zotero_item.
    cbn [Zotero.p_year]. rewrite Hd. unfold Zotero.year_of_date.
    apply truthy_true in Hne. rewrite Hne.
    destruct (before_dash_spec d) as (rest & Hup).
    now exists (Zotero.before_dash d), rest.
  - intros Hyear.
    assert (Hy : exists y, Zotero.chunk_year (Zotero.p_year p) = Ok y).
    { destruct Hyear as [-> | (s & -> & Hnum)]; [now exists None|].
      unfold Zotero.chunk_year. cbn [Zotero.year_truthy].
      destruct (truthy s); [|now exists None].
      cbn [Zotero.int_of_year].
      destruct (int_of_str_numeral s Hnum) as (n & -> & _).
      now exists (Some n). }
    destruct Hy as (y & Hy).
    unfold Zotero.create_document_chunks. cbn [Zotero.chunks_loop].
    unfold Zotero.chunk_of_item. rewrite Hy. simpl.
    eexists. repeat split.
  - intros s Hs Hnon.
    pose proof (int_of_str_non_numeric s Hnon) as Hint.
    split; [exact Hint|]. intros before after.
    unfold Zotero.create_document_chunks. apply chunks_loop_raise.
    unfold Zotero.chunk_of_item, Zotero.chunk_year. rewrite Hs.
    cbn [Zotero.year_truthy Zotero.int_of_year].
    assert (Ht : truthy s = true).
    { destruct Hnon as (c & Hin & _). destruct s; [destruct Hin|reflexivity]. }
    rewrite Ht, Hint. reflexivity.
Qed.

Lemma C10_witness :
  Zotero.p_year (Zotero._process_zotero_item (Tests.dated_item None)) = None
  /\ Zotero.p_year
       (Zotero._process_zotero_item (Tests.dated_item (Some "2023-05-01")))
     = Some (Zotero.YearStr "2023")
  /\ (exists c,
        Zotero.create_document_chunks
          [Zotero._process_zotero_item (Tests.dated_item (Some "2023-05-01"))]
        = Ok [c]
        /\ Schemas.chunk_index c = 0%Z /\ Schemas.source c = "Zotero")
  /\ Zotero.create_document_chunks
       ([Zotero._process_zotero_item (Tests.dated_item (Some "2023-05-01"))]
        ++ Zotero._process_zotero_item (Tests.dated_item (Some "March 2024"))
        :: [])
     = Raise (ValueError "invalid literal for int() with base 10").
Proof.
  destruct (C10_year_normalisation_is_partial (Tests.dated_item None))
    as (Habsent & _).
  destruct (C10_year_normalisation_is_partial
              (Tests.dated_item (Some "2023-05-01")))
    as (_ & _ & Hone & _).
  destruct (C10_year_normalisation_is_partial
              (Tests.dated_item (Some "March 2024")))
    as (_ & _ & _ & Hraise).
  split; [apply Habsent; now left|].
  split; [reflexivity|].
  split.
  - apply Hone. right. exists "2023". split; [reflexivity|].
    split; [discriminate|].
    intros c [<-|[<-|[<-|[<-|[]]]]]; reflexivity.
  - refine (proj2 (Hraise "March 2024" eq_refl _) _ []).
    exists "M"%char. repeat split; try discriminate.
    left. reflexivity.
Defined.

(** ** First occurrences are unique *)

Section UpToFacts.

Lemma sapp_inv_head (a b c : string) : a ++ b = a ++ c -> b = c.
Proof.
  induction a as [|x a IH]; simpl; intros H; [exact H|].
  injection H as H. now apply IH.
Qed.

Lemma sapp_eq_app (a b c d : string) :
  a ++ b = c ++ d ->
  (exists x, a = c ++ x /\ d = x ++ b) \/ (exists x, c = a ++ x /\ b = x ++ d).
Proof.
  revert c. induction a as [|y a IH]; intros c H.
  - right. exists c. now split.
  - destruct c as [|z c].
    + left. exists (String y a). now split.
    + simpl in H. injection H as -> H.
      destruct (IH c H) as [(x & -> & ->) | (x & -> & ->)].
      * left. now exists x.
      * right. now exists x.
Qed.

Lemma UpTo_prefix_le (sep s p a p' a' : string) :
  UpTo sep s p (sep ++ a) -> UpTo sep s p' (sep ++ a') ->
  exists x, p' = p ++ x.
Proof.
  intros (Hs & _ & Hno) (Hs' & _ & _).
  rewrite Hs in Hs'.
  destruct (sapp_eq_app _ _ _ _ Hs') as [(x & Hp & Hr) | (x & Hp & Hr)].
  - destruct x as [|c x].
    + exists EmptyString. rewrite sapp_nil_r in Hp. now rewrite sapp_nil_r.
    + exfalso.
      assert (H := Hno p' (String c x) Hp ltac:(discriminate)).
      rewrite <- Hr, startswith_app in H. discriminate.
  - now exists x.
Qed.

Lemma sapp_self_nil (p x : string) : p = p ++ x -> x = EmptyString.
Proof.
  intros H. apply (sapp_inv_head p). now rewrite sapp_nil_r.
Qed.

Lemma UpTo_unique (sep s p a p' a' : string) :
  UpTo sep s p (sep ++ a) -> UpTo sep s p' (sep ++ a') ->
  p = p' /\ a = a'.
Proof.
  intros H H'.
  destruct (UpTo_prefix_le _ _ _ _ _ _ H H') as (x & Hx).
  destruct (UpTo_prefix_le _ _ _ _ _ _ H' H) as (y & Hy).
  assert (Hxy : x ++ y = EmptyString).
  { apply (sapp_self_nil p). rewrite <- sapp_assoc, <- Hx. exact Hy. }
  assert (x = EmptyString) by (destruct x; [reflexivity | discriminate]).
  subst x. rewrite sapp_nil_r in Hx. subst p'. split; [reflexivity|].
  destruct H as (Hs & _), H' as (Hs' & _). rewrite Hs in Hs'.
  apply sapp_inv_head in Hs'. now apply sapp_inv_head in Hs'.
Qed.

Lemma startswith_char (c : ascii) (b r r' : string) :
  b <> EmptyString ->
  startswith (String c EmptyString) (b ++ r)
  = startswith (String c EmptyString) (b ++ r').
Proof. destruct b; [congruence | reflexivity]. Qed.

End UpToFacts.

(** ** app/generator.py *)

Section GeneratorFacts.

Import Generator.

Lemma marker_not_empty : marker <> EmptyString.
Proof. discriminate. Qed.

Lemma nl_not_empty : nl <> EmptyString.
Proof. discriminate. Qed.

(** What the first statement of [_get_mock_response] computes, in every
    case: the placeholder without a marker; otherwise the text between the
    first marker and the next marker or line break, whichever comes first,
    without the white space at its ends. *)
Lemma extract_question_spec (user_prompt : string) :
  (~ Substring marker user_prompt
   /\ extract_question user_prompt = Ok "your question")
  \/ (exists pre after piece rest line rest',
        UpTo marker user_prompt pre (marker ++ after)
        /\ UpTo marker after piece rest
        /\ UpTo nl piece line rest'
        /\ extract_question user_prompt = Ok (strip line)).
Proof.
  unfold extract_question.
  destruct (contains marker user_prompt) eqn:E.
  - right. apply contains_spec in E.
    destruct (split_sep_second marker user_prompt marker_not_empty E)
      as (pre & after & piece & rest & more & Hup & Hup' & ->).
    destruct (split_sep_first nl piece nl_not_empty)
      as (line & rest' & Hline & Hsplit).
    exists pre, after, piece, rest, line, rest'.
    split; [exact Hup | split; [exact Hup' | split; [exact Hline|]]].
    cbn [item nth_error bind].
    destruct Hsplit as [[_ ->] | (s' & _ & ->)]; reflexivity.
  - left. split; [now apply contains_false | reflexivity].
Qed.

Lemma extract_question_total (user_prompt : string) :
  exists question, extract_question user_prompt = Ok question.
Proof.
  destruct (extract_question_spec user_prompt)
    as [[_ H] | (pre & after & piece & rest & line & rest' & _ & _ & _ & H)];
    eexists; exact H.
Qed.

(** A marker that begins inside a line ends inside it: the marker holds no
    line break. *)
Lemma marker_inside_line (x rest s' : string) :
  x ++ rest = marker ++ s' ->
  rest = EmptyString \/ (exists r, rest = nl ++ r) ->
  x <> EmptyString ->
  exists y, x = marker ++ y.
Proof.
  intros H Hrest Hx.
  destruct (sapp_eq_app _ _ _ _ H) as [(y & Hy & _) | (z & Hm & Hz)].
  - now exists y.
  - destruct z as [|c z].
    + exists EmptyString. rewrite sapp_nil_r in Hm. now rewrite sapp_nil_r.
    + exfalso. destruct Hrest as [-> | (r & ->)]; [discriminate|].
      simpl in Hz. injection Hz as <- _.
      assert (Hin : In "010"%char (chars marker)).
      { rewrite Hm, chars_app. apply in_or_app. right. now left. }
      vm_compute in Hin. intuition discriminate.
Qed.

(** When the marker does not occur again before the next line break, the
    question is the text that follows the marker up to that line break,
    stripped. *)
Lemma extract_question_single_marker (user_prompt q : string) :
  FollowsMarker marker user_prompt q ->
  ~ Substring marker q ->
  extract_question user_prompt = Ok (strip q).
Proof.
  intros (pre0 & after0 & rest0 & Hup0 & Hq) Hnone.
  destruct (extract_question_spec user_prompt)
    as [[Habs _] | (pre & after & piece & rest & line & rest' &
                    Hup & Hpiece & Hline & ->)].
  - exfalso. apply Habs. destruct Hup0 as (-> & _).
    now exists pre0, after0.
  - destruct (UpTo_unique _ _ _ _ _ _ Hup0 Hup) as [_ <-].
    f_equal. f_equal.
    destruct Hq as (Hq & Hrest0 & Hqno).
    pose proof Hpiece as (Hp & Hrest & Hpno).
    rewrite Hq in Hp.
    destruct (sapp_eq_app _ _ _ _ Hp) as [(x & Hx & Hr) | (x & Hx & Hr)].
    + (* the line reaches the end of the piece or beyond *)
      destruct x as [|c x].
      * rewrite sapp_nil_r in Hx. subst q.
        destruct Hline as (Hl & Hrest' & _).
        destruct Hrest' as [-> | (s' & ->)].
        -- now rewrite sapp_nil_r in Hl.
        -- exfalso.
           assert (H := Hqno line (nl ++ s') Hl ltac:(discriminate)).
           rewrite sapp_assoc, startswith_app in H. discriminate.
      * exfalso. destruct Hrest as [-> | (s' & ->)]; [discriminate|].
        destruct (marker_inside_line (String c x) rest0 s')
          as (y & Hy); [now rewrite <- Hr | | discriminate |].
        -- destruct Hrest0 as [-> | (r & ->)]; [now left | right; now exists r].
        -- apply Hnone. exists piece, y. rewrite Hx, Hy. reflexivity.
    + (* the piece goes on after the line break *)
      destruct x as [|c x].
      * rewrite sapp_nil_r in Hx. subst piece.
        destruct Hline as (Hl & Hrest' & _).
        destruct Hrest' as [-> | (s' & ->)].
        -- now rewrite sapp_nil_r in Hl.
        -- exfalso.
           assert (H := Hqno line (nl ++ s') Hl ltac:(discriminate)).
           rewrite sapp_assoc, startswith_app in H. discriminate.
      * destruct Hrest0 as [-> | (r & ->)]; [discriminate|].
        simpl in Hr. injection Hr as Hc Hr. subst c.
        assert (Hq' : UpTo nl piece q (nl ++ x)).
        { repeat split; [exact Hx | right; now exists x |].
          intros a b Hab Hb.
          assert (Hsw := startswith_char "010"%char b (nl ++ x) (nl ++ r) Hb).
          change (String "010"%char EmptyString) with nl in Hsw.
          rewrite Hsw. exact (Hqno a b Hab Hb). }
        destruct Hline as (Hl & Hrest' & Hlno).
        destruct Hrest' as [-> | (s' & ->)].
        -- exfalso.
           apply (UpTo_no_occurrence nl piece line nl_not_empty).
           ++ repeat split; [exact Hl | now left | exact Hlno].
           ++ exists q, x. exact Hx.
        -- assert (Hl' : UpTo nl piece line (nl ++ s')).
           { repeat split; [exact Hl | right; now exists s' | exact Hlno]. }
           now destruct (UpTo_unique _ _ _ _ _ _ Hl' Hq').
Qed.

Lemma lookup_loop_spec (table : list (string * string))
  (question question_lower : string) :
  (exists before key answer after,
      table = (before ++ (key, answer) :: after)%list
      /\ (forall k a, In (k, a) before -> ~ Substring k question_lower)
      /\ Substring key question_lower
      /\ lookup_loop table question question_lower = canned_prefix ++ answer)
  \/ ((forall k a, In (k, a) table -> ~ Substring k question_lower)
      /\ lookup_loop table question question_lower
         = generic_response question).
Proof.
  induction table as [|[key answer] table IH].
  - right. split; [intros k a [] | reflexivity].
  - cbn [lookup_loop]. destruct (contains key question_lower) eqn:E.
    + left. exists [], key, answer, table. repeat split.
      * intros k a [].
      * now apply contains_spec.
    + apply contains_false in E.
      destruct IH as [(before & k & a & after & -> & Hb & Hk & Hl) | [Hn Hl]].
      * left. exists ((key, answer) :: before), k, a, after.
        repeat split; auto.
        intros k' a' [H|H]; [injection H as <- <-; exact E | now apply (Hb k' a')].
      * right. split; [|exact Hl].
        intros k' a' [H|H]; [injection H as <- <-; exact E | now apply (Hn k' a')].
Qed.

End GeneratorFacts.

Lemma UpTo_at_start (sep a : string) :
  UpTo sep (sep ++ a) EmptyString (sep ++ a).
Proof.
  repeat split; [right; now exists a|].
  intros x b H Hb. destruct x; simpl in H; [congruence | discriminate].
Qed.

Lemma UpTo_char (c : ascii) (s q rest : string) :
  s = q ++ rest ->
  (rest = EmptyString \/ exists s', rest = String c EmptyString ++ s') ->
  ~ In c (chars q) ->
  UpTo (String c EmptyString) s q rest.
Proof.
  intros Hs Hrest Hc. repeat split; [exact Hs | exact Hrest |].
  intros a b Hq Hb. destruct b as [|x b]; [congruence|].
  simpl. destruct (Ascii.eqb c x) eqn:E; [|reflexivity].
  exfalso. apply Ascii.eqb_eq in E. subst x. apply Hc.
  rewrite Hq, chars_app. apply in_or_app. right. now left.
Qed.

(** When the marker is repeated after one blank, the second piece of the
    split is that blank: the question found is empty, whatever follows. *)
Lemma extract_question_marker_twice (rest : string) :
  Generator.extract_question ("Question: Question:" ++ rest)
  = Ok EmptyString.
Proof.
  unfold Generator.extract_question.
  assert (Hc : contains Generator.marker ("Question: Question:" ++ rest)
               = true).
  { apply contains_spec. exists EmptyString, (" Question:" ++ rest).
    reflexivity. }
  rewrite Hc.
  change ("Question: Question:" ++ rest)
    with (Generator.marker ++ String " " (Generator.marker ++ rest)).
  rewrite split_sep_match by discriminate.
  rewrite split_sep_nomatch by reflexivity.
  assert (H := split_sep_match Generator.marker rest ltac:(discriminate)).
  rewrite (split_sep_eq Generator.marker (Generator.marker ++ rest)) in H.
  destruct (split_sep_go Generator.marker 0 (Generator.marker ++ rest))
    as [p ps].
  cbn [fst snd] in H |- *. injection H as -> _. reflexivity.
Qed.

(** C6. In "Question: Question: what is ligo" the text that follows the
    marker up to the next line break is " Question: what is ligo", which
    holds the key "ligo"; the fallback does not return the prefixed canned
    answer: [split("Question:")[1]] is the text between the first and the
    second marker, so the question found is empty and the answer is the
    generic one, echoing nothing.  The same happens for every text after
    the repeated marker, while "Question: what is ligo" gets the canned
    answer of "ligo". *)
Theorem C6_question_cut_at_second_marker :
  let user_prompt := "Question: Question: what is ligo" in
  FollowsMarker Generator.marker user_prompt " Question: what is ligo"
  /\ Substring "ligo" (lower " Question: what is ligo")
  /\ Generator.extract_question user_prompt = Ok EmptyString
  /\ Generator._get_mock_response user_prompt
     = Ok (Generator.generic_response EmptyString)
  /\ (forall answer,
         Generator._get_mock_response user_prompt
         <> Ok (Generator.canned_prefix ++ answer))
  /\ (forall rest : string,
         Generator._get_mock_response ("Question: Question:" ++ rest)
         = Ok (Generator.generic_response EmptyString))
  /\ (exists answer,
         In ("ligo", answer) Generator.mock_responses
         /\ Generator._get_mock_response "Question: what is ligo"
            = Ok (Generator.canned_prefix ++ answer)).
Proof.
  intros user_prompt.
  split; [|split; [|split; [|split; [|split; [|split]]]]].
  - exists EmptyString, " Question: what is ligo", EmptyString. split.
    + apply (UpTo_at_start Generator.marker).
    + apply (UpTo_char "010"%char); [reflexivity | now left |].
      vm_compute. intuition discriminate.
  - apply contains_spec. vm_compute. reflexivity.
  - apply (extract_question_marker_twice " what is ligo").
  - vm_compute. reflexivity.
  - intros answer H. vm_compute in H. discriminate H.
  - intros rest. unfold Generator._get_mock_response.
    rewrite extract_question_marker_twice. reflexivity.
  - eexists. split; [left; reflexivity|]. vm_compute. reflexivity.
Qed.

(** The same input with the marker typed by the user in the question: the
    question found is empty and the answer is the generic one. *)
Example get_mock_response_repeated_marker :
  Generator.extract_question "Question: Question: what is ligo"
  = Ok EmptyString
  /\ Generator._get_mock_response "Question: Question: what is ligo"
     = Ok (Generator.generic_response EmptyString).
Proof. split; vm_compute; reflexivity. Qed.

(** ** app/prompts.py: the prompts *)

Section PromptFacts.

Import Schemas Prompts.

Lemma rstrip_app (a b : string) :
  rstrip b <> EmptyString -> rstrip (a ++ b) = a ++ rstrip b.
Proof.
  intros Hb. induction a as [|c a IH]; [reflexivity|].
  simpl. rewrite IH.
  destruct (a ++ rstrip b) eqn:E.
  - exfalso. destruct a; simpl in E; [congruence | discriminate].
  - now rewrite andb_false_r.
Qed.

Lemma closing_instruction_rstrip :
  rstrip closing_instruction
  = nl ++ nl ++ "Please answer the question using ONLY the provided context. If the context doesn't contain enough information to answer the question, please say so clearly.".
Proof. vm_compute. reflexivity. Qed.

Lemma user_prompt_strip (question context_text : string) :
  strip (question_label ++ question ++ context_header
           ++ "~~~" ++ nl ++ context_text ++ nl ++ "~~~"
           ++ closing_instruction)
  = user_prompt_text "~~~" question context_text.
Proof.
  unfold strip.
  change (lstrip (question_label ++ question ++ context_header
                    ++ "~~~" ++ nl ++ context_text ++ nl ++ "~~~"
                    ++ closing_instruction))
    with ("Question: " ++ question ++ context_header
            ++ "~~~" ++ nl ++ context_text ++ nl ++ "~~~"
            ++ closing_instruction).
  assert (Hc : rstrip closing_instruction <> EmptyString)
    by (rewrite closing_instruction_rstrip; discriminate).
  rewrite <- !sapp_assoc.
  rewrite rstrip_app by exact Hc.
  rewrite closing_instruction_rstrip.
  unfold user_prompt_text. rewrite !sapp_assoc. reflexivity.
Qed.

(** Were [DATA_DELIMITER] visible from the method body (bound at module
    level, as in __src/__prompt__.py, or read through [self]), the call
    would return the two prompts: the user prompt holds the question and
    the formatted chunks between two "~~~" lines, the system prompt holds
    "citizen scientists". *)
Lemma create_rag_prompts_with_delimiter_bound (question : string)
  (retrieved_docs : list DocumentChunk) :
  exists system_prompt,
    create_rag_prompts_in class_namespace question retrieved_docs
    = Ok (user_prompt_text "~~~" question
            (_format_retrieved_docs retrieved_docs),
          system_prompt)
    /\ Substring "citizen scientists" system_prompt
    /\ Substring question
         (user_prompt_text "~~~" question
            (_format_retrieved_docs retrieved_docs))
    /\ Substring
         (nl ++ "~~~" ++ nl ++ _format_retrieved_docs retrieved_docs
             ++ nl ++ "~~~" ++ nl)
         (user_prompt_text "~~~" question
            (_format_retrieved_docs retrieved_docs)).
Proof.
  unfold create_rag_prompts_in. cbv zeta.
  set (ctx := _format_retrieved_docs retrieved_docs).
  assert (Hu : fstring [("question", question); ("context_text", ctx)]
                 class_namespace user_prompt_template
               = Ok (question_label ++ question ++ context_header
                       ++ "~~~" ++ nl ++ ctx ++ nl ++ "~~~"
                       ++ closing_instruction ++ EmptyString))
    by reflexivity.
  rewrite sapp_nil_r in Hu. rewrite Hu. cbn [bind].
  destruct (fstring [("question", question); ("context_text", ctx)]
              class_namespace system_prompt_template) as [sp|e] eqn:Hs;
    [|discriminate Hs].
  cbn [bind]. rewrite user_prompt_strip.
  exists (strip sp). split; [reflexivity|]. split; [|split].
  - injection Hs as <-. apply contains_spec. vm_compute. reflexivity.
  - exists "Question: ",
      (context_header ++ "~~~" ++ nl ++ ctx ++ nl ++ "~~~" ++ nl ++ nl
         ++ "Please answer the question using ONLY the provided context. If the context doesn't contain enough information to answer the question, please say so clearly.").
    reflexivity.
  - exists ("Question: " ++ question ++ nl ++ nl
              ++ "Context from LIGO/Gravity Spy knowledge base:"),
      (nl ++ "Please answer the question using ONLY the provided context. If the context doesn't contain enough information to answer the question, please say so clearly.").
    unfold user_prompt_text, context_header.
    rewrite !sapp_assoc. reflexivity.
Qed.

End PromptFacts.

(** C1 (defect). [create_rag_prompts] fails on every input: the f-string
    of the user prompt reads the bare name [DATA_DELIMITER], which is bound
    in the class body and in no scope of the method, so the call raises
    [NameError] before any prompt is built. *)
Theorem C1_create_rag_prompts_raises :
  forall (question : string) (retrieved_docs : list Schemas.DocumentChunk),
    Prompts.create_rag_prompts question retrieved_docs
    = Raise (NameError "DATA_DELIMITER").
Proof. intros question retrieved_docs. reflexivity. Qed.

(** [test_prompt_creation] of tests/test_basic.py calls the method on this
    input and expects a pair of strings. *)
Example create_rag_prompts_test_input :
  Prompts.create_rag_prompts "What is LIGO?" Tests.sample_documents
  = Raise (NameError "DATA_DELIMITER")
  /\ Prompts.lookup "DATA_DELIMITER" Prompts.class_namespace = Some "~~~".
Proof. split; reflexivity. Qed.

(** * Further properties of the code *)

(** ** Case and white space *)

Section CaseFacts.

Lemma lower_app (a b : string) : lower (a ++ b) = lower a ++ lower b.
Proof. induction a as [|c a IH]; simpl; [reflexivity | now rewrite IH]. Qed.

Lemma isspace_lower_char (c : ascii) : isspace (lower_char c) = isspace c.
Proof. destruct c as [[] [] [] [] [] [] [] []]; reflexivity. Qed.

Lemma lower_char_idem (c : ascii) : lower_char (lower_char c) = lower_char c.
Proof. destruct c as [[] [] [] [] [] [] [] []]; reflexivity. Qed.

Lemma lower_idem (s : string) : lower (lower s) = lower s.
Proof.
  induction s as [|c s IH]; simpl; [reflexivity|].
  now rewrite lower_char_idem, IH.
Qed.

Lemma AllSpace_lower (s : string) : AllSpace s -> AllSpace (lower s).
Proof.
  induction s as [|c s IH]; intros H x Hx; [destruct Hx|].
  simpl in Hx. destruct Hx as [<-|Hx].
  - rewrite isspace_lower_char. apply H. now left.
  - apply IH; [|exact Hx]. intros y Hy. apply H. now right.
Qed.

Lemma AllSpace_no_token (s t : string) : AllSpace s -> ~ Token s t.
Proof.
  intros Hs (pre & post & -> & Hne & Hns & _).
  destruct t as [|c t]; [congruence|].
  assert (Hin : In c (chars (pre ++ String c t ++ post))).
  { rewrite chars_app. apply in_or_app. right. now left. }
  apply Hs in Hin. rewrite (Hns c) in Hin; [discriminate | now left].
Qed.

Lemma AllSpace_no_match (query content title : string) :
  AllSpace query -> ~ Matches query content title.
Proof.
  intros Hq (t & Ht & _).
  exact (AllSpace_no_token _ t (AllSpace_lower _ Hq) Ht).
Qed.

Lemma SpaceAtStart_app (post s : string) :
  SpaceAtStart post -> SpaceAtStart (post ++ " " ++ s).
Proof. destruct post; simpl; intros H; [reflexivity | exact H]. Qed.

Lemma SpaceAtEnd_app (s pre : string) :
  SpaceAtEnd pre -> SpaceAtEnd (s ++ " " ++ pre).
Proof.
  intros [-> | (p & c & -> & Hc)]; right.
  - exists s, " "%char. split; reflexivity.
  - exists (s ++ " " ++ p), c. split; [|exact Hc].
    now rewrite !sapp_assoc.
Qed.

Lemma Token_app_l (s s' t : string) : Token s t -> Token (s ++ " " ++ s') t.
Proof.
  intros (pre & post & -> & Hne & Hns & Hpre & Hpost).
  exists pre, (post ++ " " ++ s'). repeat split; auto.
  - now rewrite !sapp_assoc.
  - now apply SpaceAtStart_app.
Qed.

Lemma Token_app_r (s s' t : string) : Token s' t -> Token (s ++ " " ++ s') t.
Proof.
  intros (pre & post & -> & Hne & Hns & Hpre & Hpost).
  exists (s ++ " " ++ pre), post. repeat split; auto.
  - now rewrite !sapp_assoc.
  - now apply SpaceAtEnd_app.
Qed.

Lemma Matches_more_words (q q' content title : string) :
  Matches q content title \/ Matches q' content title ->
  Matches (q ++ " " ++ q') content title.
Proof.
  intros [(t & Ht & H) | (t & Ht & H)]; exists t; split; auto;
    rewrite !lower_app; [now apply Token_app_l | now apply Token_app_r].
Qed.

End CaseFacts.

(** ** Slices *)

Section SliceFacts.

Context {A : Type}.

Lemma slice_to_none (l : list A) : slice_to None l = l.
Proof. reflexivity. Qed.

Lemma slice_to_nil (k : option Z) : slice_to k (@nil A) = [].
Proof.
  destruct k as [k|]; [|reflexivity]. unfold slice_to.
  destruct (0 <=? k)%Z; apply firstn_nil.
Qed.

Lemma slice_to_prefix (k : option Z) (l : list A) :
  exists dropped, l = (slice_to k l ++ dropped)%list.
Proof.
  destruct k as [k|]; unfold slice_to.
  - destruct (0 <=? k)%Z; eexists; symmetry; apply firstn_skipn.
  - exists []. now rewrite app_nil_r.
Qed.

Lemma slice_to_length_le (k : option Z) (l : list A) :
  List.length (slice_to k l) <= List.length l.
Proof.
  destruct (slice_to_prefix k l) as (d & H).
  rewrite H at 2. rewrite length_app. lia.
Qed.

Lemma slice_to_negative (k : Z) (l : list A) :
  (k < 0)%Z ->
  exists dropped,
    l = (slice_to (Some k) l ++ dropped)%list
    /\ List.length dropped = Nat.min (Z.to_nat (- k)) (List.length l).
Proof.
  intros Hk. unfold slice_to.
  destruct (0 <=? k)%Z eqn:E; [apply Z.leb_le in E; lia|].
  exists (skipn (List.length l - Z.to_nat (- k)) l). split.
  - symmetry. apply firstn_skipn.
  - rewrite length_skipn. lia.
Qed.

Lemma slice_to_all (k : Z) (l : list A) :
  (Z.of_nat (List.length l) <= k)%Z -> slice_to (Some k) l = l.
Proof.
  intros Hk. rewrite slice_to_nonneg by lia. apply firstn_all2. lia.
Qed.

Lemma slice_to_slice_to (k k' : Z) (l : list A) :
  (0 <= k <= k')%Z ->
  slice_to (Some k) l = firstn (Z.to_nat k) (slice_to (Some k') l).
Proof.
  intros Hk. rewrite !slice_to_nonneg by lia.
  rewrite firstn_firstn. f_equal. lia.
Qed.

End SliceFacts.

(** ** Retrieval: queries and [top_k] *)

Section RetrievalMore.

Lemma main_matches_false (query : string) (d : Main.Doc) :
  Main.doc_matches (lower query) d = false
  <-> ~ Matches query (Main.content d) (Main.title d).
Proof.
  rewrite <- doc_matches_spec.
  destruct (Main.doc_matches (lower query) d); split; congruence.
Qed.

Lemma chunk_matches_false (query : string) (d : Schemas.DocumentChunk) :
  Retriever.doc_matches (lower query) d = false
  <-> ~ Matches query (Schemas.content d) (Schemas.title d).
Proof.
  rewrite <- chunk_matches_spec.
  destruct (Retriever.doc_matches (lower query) d); split; congruence.
Qed.

End RetrievalMore.

(** X1. A query of white space only (blanks, tabs, line breaks) retrieves
    nothing, from any document list and for every [top_k], absent and
    negative ones included: it has no token. *)
Theorem blank_query_retrieves_nothing :
  forall (query : string),
    AllSpace query ->
    (forall (docs : list Main.Doc) (top_k : option Z),
        Main.get_mock_documents_from docs query top_k = [])
    /\ (forall (docs : list Schemas.DocumentChunk) (top_k : Z),
        Retriever.keyword_filter docs query top_k = []).
Proof.
  intros query Hq. split; intros docs top_k.
  - rewrite get_mock_documents_from_eq, filter_none; [apply slice_to_nil|].
    intros d. apply main_matches_false. now apply AllSpace_no_match.
  - rewrite keyword_filter_eq, filter_none; [apply slice_to_nil|].
    intros d. apply chunk_matches_false. now apply AllSpace_no_match.
Qed.

Lemma blank_query_retrieves_nothing_witness :
  Main.get_mock_documents ("  " ++ nl ++ " ") (Some (-1)%Z) = []
  /\ Retriever._get_mock_documents ("  " ++ nl ++ " ") 5 = [].
Proof.
  assert (Hq : AllSpace ("  " ++ nl ++ " ")).
  { intros c Hc. vm_compute in Hc.
    destruct Hc as [<-|[<-|[<-|[<-|[]]]]]; reflexivity. }
  destruct (blank_query_retrieves_nothing _ Hq) as [HM HR].
  split; [apply HM | apply HR].
Defined.

(** X2. Query words are alternatives: a document retrieved for a query is
    still retrieved when more words are added to the query, before or
    after it (with no [top_k] cut, which could push it out of the first
    [top_k]). *)
Theorem more_words_keep_documents :
  forall (docs : list Main.Doc) (q q' : string) (d : Main.Doc),
    In d (Main.get_mock_documents_from docs q None) ->
    In d (Main.get_mock_documents_from docs (q ++ " " ++ q') None)
    /\ In d (Main.get_mock_documents_from docs (q' ++ " " ++ q) None).
Proof.
  intros docs q q' d. rewrite !get_mock_documents_from_eq. cbn [slice_to].
  rewrite !filter_In. intros [Hin Hm]. apply doc_matches_spec in Hm.
  split; (split; [exact Hin|]); apply doc_matches_spec;
    apply Matches_more_words; auto.
Qed.

Lemma more_words_keep_documents_witness :
  exists d,
    Main.title d = "Understanding aLOGs"
    /\ In d (Main.get_mock_documents_from Main.MOCK_DOCUMENTS
               ("alog" ++ " " ++ "asdfqwerty") None).
Proof.
  exists (nth 2 Main.MOCK_DOCUMENTS
            (Main.mkDoc EmptyString EmptyString EmptyString EmptyString
               EmptyString 0 EmptyString)).
  split; [reflexivity|].
  apply (more_words_keep_documents Main.MOCK_DOCUMENTS "alog" "asdfqwerty").
  vm_compute. left. reflexivity.
Defined.

(** X3. For [0 <= top_k <= top_k'] the result for [top_k] is the first
    [top_k] elements of the result for [top_k'] and of the uncut result
    ([top_k] absent); [top_k = 0] gives nothing, and a [top_k] of at least
    the number of stored documents cuts nothing. *)
Theorem top_k_results_are_prefixes :
  forall (docs : list Main.Doc) (query : string) (top_k top_k' : Z),
    (0 <= top_k <= top_k')%Z ->
    Main.get_mock_documents_from docs query (Some top_k)
    = firstn (Z.to_nat top_k)
        (Main.get_mock_documents_from docs query (Some top_k'))
    /\ Main.get_mock_documents_from docs query (Some top_k)
       = firstn (Z.to_nat top_k)
           (Main.get_mock_documents_from docs query None)
    /\ Main.get_mock_documents_from docs query (Some 0%Z) = []
    /\ ((Z.of_nat (List.length docs) <= top_k)%Z ->
        Main.get_mock_documents_from docs query (Some top_k)
        = Main.get_mock_documents_from docs query None).
Proof.
  intros docs query k k' Hk. rewrite !get_mock_documents_from_eq.
  split; [now apply slice_to_slice_to|].
  split; [apply slice_to_nonneg; lia|].
  split; [reflexivity|].
  intros Hlen. rewrite (slice_to_none (filter _ docs)). apply slice_to_all.
  pose proof (filter_length_le (Main.doc_matches (lower query)) docs). lia.
Qed.

Lemma top_k_results_are_prefixes_witness :
  map Main.title (Main.get_mock_documents "ligo" (Some 1%Z))
  = ["Introduction to LIGO"]
  /\ Main.get_mock_documents "ligo" (Some 3%Z)
     = Main.get_mock_documents "ligo" None.
Proof.
  assert (H13 : (0 <= 1 <= 3)%Z) by (split; intro H; discriminate H).
  assert (H33 : (0 <= 3 <= 3)%Z) by (split; intro H; discriminate H).
  destruct (top_k_results_are_prefixes Main.MOCK_DOCUMENTS "ligo" 1 3 H13)
    as (H1 & _).
  destruct (top_k_results_are_prefixes Main.MOCK_DOCUMENTS "ligo" 3 3 H33)
    as (_ & _ & _ & Hall).
  split.
  - unfold Main.get_mock_documents. rewrite H1. vm_compute. reflexivity.
  - apply Hall. intro H. discriminate H.
Defined.

(** X4. A negative [top_k] is not rejected and does not mean "nothing":
    the slice [[:top_k]] removes [-top_k] matches from the end of the match
    list (all of them when there are fewer) and returns the others. *)
Theorem negative_top_k_drops_from_the_end :
  forall (docs : list Main.Doc) (query : string) (top_k : Z),
    (top_k < 0)%Z ->
    exists dropped,
      Main.get_mock_documents_from docs query None
      = (Main.get_mock_documents_from docs query (Some top_k) ++ dropped)%list
      /\ List.length dropped
         = Nat.min (Z.to_nat (- top_k))
             (List.length (Main.get_mock_documents_from docs query None)).
Proof.
  intros docs query k Hk. rewrite !get_mock_documents_from_eq.
  rewrite !slice_to_none. now apply slice_to_negative.
Qed.

Lemma negative_top_k_drops_from_the_end_witness :
  exists dropped,
    Main.get_mock_documents "ligo" None
    = (Main.get_mock_documents "ligo" (Some (-1)%Z) ++ dropped)%list
    /\ List.length dropped = 1.
Proof.
  destruct (negative_top_k_drops_from_the_end Main.MOCK_DOCUMENTS "ligo" (-1))
    as (dropped & Happ & Hlen); [reflexivity|].
  exists dropped. split; [exact Happ|]. rewrite Hlen. vm_compute. reflexivity.
Defined.

(** ** app/main.py: the answer and the envelope *)

Section MainMore.

Import Main Forms.

Lemma answers_differ (a b : string) : head_char a <> head_char b -> a <> b.
Proof. intros H E. apply H. now rewrite E. Qed.

Lemma filter_nil_iff {A : Type} (f : A -> bool) (l : list A) :
  filter f l = [] <-> forall x, In x l -> f x = false.
Proof.
  induction l as [|x l IH]; simpl.
  - split; [intros _ y [] | reflexivity].
  - destruct (f x) eqn:E; split.
    + discriminate.
    + intros H. specialize (H x (or_introl eq_refl)). congruence.
    + intros H y [<-|Hy]; [exact E | now apply IH].
    + intros H. apply IH. intros y Hy. apply H. now right.
Qed.

Lemma firstn_nil_iff {A : Type} (n : nat) (l : list A) :
  0 < n -> (firstn n l = [] <-> l = []).
Proof.
  intros Hn. destruct n; [lia|]. destruct l; simpl; split; congruence.
Qed.

Lemma NoDup_map_filter {A B : Type} (f : A -> B) (g : A -> bool) (l : list A) :
  NoDup (map f l) -> NoDup (map f (filter g l)).
Proof.
  induction l as [|x l IH]; simpl; intros H; [constructor|].
  inversion H as [|? ? Hx Hl]; subst. destruct (g x); simpl; auto.
  constructor; auto. intros Hin. apply Hx.
  apply in_map_iff in Hin as (y & Hy & Hin). apply filter_In in Hin as [Hin _].
  rewrite <- Hy. now apply in_map.
Qed.

Lemma In_firstn {A : Type} (x : A) (n : nat) (l : list A) :
  In x (firstn n l) -> In x l.
Proof.
  intros H. rewrite <- (firstn_skipn n l). apply in_or_app. now left.
Qed.

Lemma NoDup_map_firstn {A B : Type} (f : A -> B) (n : nat) (l : list A) :
  NoDup (map f l) -> NoDup (map f (firstn n l)).
Proof.
  revert n. induction l as [|x l IH]; intros n H; destruct n; simpl;
    try constructor.
  - inversion H as [|? ? Hx Hl]; subst. intros Hin. apply Hx.
    apply in_map_iff in Hin as (y & Hy & Hin). apply In_firstn in Hin.
    rewrite <- Hy. now apply in_map.
  - inversion H; subst. now apply IH.
Qed.

Lemma NoDup_map_slice_to {A B : Type} (f : A -> B) (k : option Z)
  (l : list A) :
  NoDup (map f l) -> NoDup (map f (slice_to k l)).
Proof.
  intros H. destruct k as [k|]; [|exact H]. unfold slice_to.
  destruct (0 <=? k)%Z; now apply NoDup_map_firstn.
Qed.

Lemma generate_mock_response_found (question : string) (documents : list Doc) :
  generate_mock_response question documents <> not_found_answer.
Proof.
  apply answers_differ. unfold generate_mock_response. cbv zeta.
  destruct (contains "ligo" _); [vm_compute; discriminate|].
  destruct (contains "gravity spy" _); [vm_compute; discriminate|].
  destruct (contains "alog" _ || contains "glitch" _);
    vm_compute; discriminate.
Qed.

End MainMore.

(** X5. The kind of answer of [generate_mock_response] tells which key
    word the lowercased question holds, in the priority the code tests
    them: the LIGO answer exactly when it holds "ligo"; the Gravity Spy
    answer exactly when it holds "gravity spy" and not "ligo"; the aLOG
    answer exactly when it holds "alog" or "glitch" and neither of the
    former; the generic answer, which echoes the question, exactly when it
    holds none.  It is never the not-found answer. *)
Theorem generate_mock_response_by_keyword :
  forall (question : string) (documents : list Main.Doc),
    let answer := Main.generate_mock_response question documents in
    let has key := Substring key (lower question) in
    (answer = Main.ligo_answer <-> has "ligo")
    /\ (answer = Main.gravity_spy_answer
        <-> ~ has "ligo" /\ has "gravity spy")
    /\ (answer = Main.alog_answer
        <-> ~ has "ligo" /\ ~ has "gravity spy"
            /\ (has "alog" \/ has "glitch"))
    /\ (answer = Main.generic_answer question
        <-> ~ has "ligo" /\ ~ has "gravity spy"
            /\ ~ has "alog" /\ ~ has "glitch")
    /\ answer <> Main.not_found_answer
    /\ Substring question (Main.generic_answer question).
Proof.
  intros question documents answer has. subst answer has.
  unfold Main.generate_mock_response. cbv zeta.
  assert (D1 : Main.ligo_answer <> Main.gravity_spy_answer)
    by (apply answers_differ; vm_compute; discriminate).
  assert (D2 : Main.ligo_answer <> Main.alog_answer)
    by (apply answers_differ; vm_compute; discriminate).
  assert (D3 : Main.ligo_answer <> Main.generic_answer question)
    by (apply answers_differ; vm_compute; discriminate).
  assert (D4 : Main.gravity_spy_answer <> Main.alog_answer)
    by (apply answers_differ; vm_compute; discriminate).
  assert (D5 : Main.gravity_spy_answer <> Main.generic_answer question)
    by (apply answers_differ; vm_compute; discriminate).
  assert (D6 : Main.alog_answer <> Main.generic_answer question)
    by (apply answers_differ; vm_compute; discriminate).
  assert (N1 : Main.ligo_answer <> Main.not_found_answer)
    by (apply answers_differ; vm_compute; discriminate).
  assert (N2 : Main.gravity_spy_answer <> Main.not_found_answer)
    by (apply answers_differ; vm_compute; discriminate).
  assert (N3 : Main.alog_answer <> Main.not_found_answer)
    by (apply answers_differ; vm_compute; discriminate).
  assert (N4 : Main.generic_answer question <> Main.not_found_answer)
    by (apply answers_differ; vm_compute; discriminate).
  assert (Hecho : Substring question (Main.generic_answer question)).
  { exists "Thank you for your question about '". eexists.
    unfold Main.generic_answer. reflexivity. }
  rewrite <- !(contains_spec _ (lower question)).
  destruct (contains "ligo" (lower question));
    destruct (contains "gravity spy" (lower question));
    destruct (contains "alog" (lower question));
    destruct (contains "glitch" (lower question)); cbn [orb];
    (split; [|split; [|split; [|split; [|split]]]]);
    try exact Hecho; try assumption; intuition congruence.
Qed.

(** X6. [POST /ask] gives the not-found answer exactly when retrieval
    returns nothing; with [top_k] absent or at least 1 that is exactly when
    no token of the lowercased question occurs in the lowercased content
    or title of any of the three fixtures. *)
Theorem not_found_exactly_when_nothing_matches :
  forall request : Main.ChatRequest,
    (Main.answer (Main.ask_question request) = Main.not_found_answer
     <-> Main.get_mock_documents (Main.question request)
                                 (Main.top_k request) = [])
    /\ ((Main.top_k request = None
         \/ exists k, Main.top_k request = Some k /\ (1 <= k)%Z) ->
        (Main.answer (Main.ask_question request) = Main.not_found_answer
         <-> forall d, In d Main.MOCK_DOCUMENTS ->
                       ~ Matches (Main.question request)
                                 (Main.content d) (Main.title d))).
Proof.
  intros request.
  assert (H1 : Main.answer (Main.ask_question request) = Main.not_found_answer
               <-> Main.get_mock_documents (Main.question request)
                                           (Main.top_k request) = []).
  { unfold Main.ask_question.
    destruct (Main.get_mock_documents _ _) as [|d l] eqn:E; cbn [Main.answer].
    - split; reflexivity.
    - split; [|discriminate]. intros H. exfalso.
      now apply (generate_mock_response_found
                   (Main.question request) (d :: l)). }
  split; [exact H1|]. intros Hk. rewrite H1.
  unfold Main.get_mock_documents. rewrite get_mock_documents_from_eq.
  assert (H2 : slice_to (Main.top_k request)
                 (filter (Main.doc_matches (lower (Main.question request)))
                         Main.MOCK_DOCUMENTS) = []
               <-> filter (Main.doc_matches (lower (Main.question request)))
                          Main.MOCK_DOCUMENTS = []).
  { destruct Hk as [-> | (k & -> & Hk)]; [reflexivity|].
    rewrite slice_to_nonneg by lia. apply firstn_nil_iff. lia. }
  rewrite H2, filter_nil_iff.
  split; intros H d Hd; apply main_matches_false; auto.
Qed.

Lemma not_found_exactly_when_nothing_matches_witness :
  Main.answer (Main.ask_question (Main.default_request "LIGO?"))
  = Main.not_found_answer.
Proof.
  destruct (not_found_exactly_when_nothing_matches
              (Main.default_request "LIGO?")) as [_ H2].
  apply H2.
  - right. exists 5%Z. split; [reflexivity | intro H; discriminate H].
  - intros d Hd. apply main_matches_false.
    destruct Hd as [<-|[<-|[<-|[]]]]; vm_compute; reflexivity.
Defined.

(** X7. Whatever the request ([top_k] negative or absent included), the
    response of [POST /ask] uses between 0 and 3 sources, at most [top_k]
    of them when [top_k >= 0]; every citation is the citation of a
    fixture, and no fixture is cited twice. *)
Theorem ask_question_sources_bounds :
  forall request : Main.ChatRequest,
    let r := Main.ask_question request in
    (0 <= Main.sources_used r <= 3)%Z
    /\ (forall k, Main.top_k request = Some k -> (0 <= k)%Z ->
                  (Main.sources_used r <= k)%Z)
    /\ NoDup (map Main.c_title (Main.citations r))
    /\ Forall (fun c => In c (map Main.citation_of Main.MOCK_DOCUMENTS))
              (Main.citations r).
Proof.
  intros request r. subst r.
  rewrite ask_question_sources_used, ask_question_citations.
  unfold Main.get_mock_documents. rewrite get_mock_documents_from_eq.
  set (matched := filter _ Main.MOCK_DOCUMENTS).
  assert (Hm : List.length matched <= 3).
  { subst matched.
    apply (Nat.le_trans _ _ _ (filter_length_le _ Main.MOCK_DOCUMENTS)).
    apply Nat.le_refl. }
  pose proof (slice_to_length_le (Main.top_k request) matched) as Hs.
  split; [lia|]. split; [|split].
  - intros k -> Hk. now apply slice_to_length.
  - rewrite map_map. cbn [Main.c_title Main.citation_of].
    apply NoDup_map_slice_to. subst matched. apply NoDup_map_filter.
    repeat constructor; simpl; intuition discriminate.
  - apply Forall_forall. intros c Hc.
    apply in_map_iff in Hc as (d & <- & Hd). apply in_map.
    destruct (slice_to_prefix (Main.top_k request) matched) as (dropped & Hp).
    assert (Hin : In d matched) by (rewrite Hp; apply in_or_app; now left).
    subst matched. now apply filter_In in Hin as [Hin _].
Qed.

Lemma ask_question_sources_bounds_witness :
  (Main.sources_used
     (Main.ask_question (Main.mkChatRequest "ligo" (Some 2%Z) None)) <= 2)%Z.
Proof.
  destruct (ask_question_sources_bounds
              (Main.mkChatRequest "ligo" (Some 2%Z) None)) as (_ & Hk & _).
  apply (Hk 2%Z); [reflexivity | intro H; discriminate H].
Defined.

(** ** app/prompts.py: the formatted context and the citations *)

Section PromptsMore.

Import Schemas Prompts Forms.

Lemma rstrip_AllSpace (w : string) : AllSpace w -> rstrip w = EmptyString.
Proof.
  induction w as [|c w IH]; intros H; [reflexivity|].
  simpl. rewrite IH by (intros x Hx; apply H; now right).
  rewrite (H c) by now left. reflexivity.
Qed.

Lemma rstrip_app_space (s w : string) :
  AllSpace w -> rstrip (s ++ w) = rstrip s.
Proof.
  intros Hw. induction s as [|c s IH]; simpl.
  - now apply rstrip_AllSpace.
  - now rewrite IH.
Qed.

Lemma rstrip_content_line (content : string) :
  rstrip (nl ++ content ++ nl) = content_tail content.
Proof.
  unfold content_tail.
  change (nl ++ content ++ nl) with (String "010"%char (content ++ nl)).
  cbn [rstrip]. rewrite rstrip_app_space.
  - destruct (rstrip content); reflexivity.
  - intros c [<-|[]]. reflexivity.
Qed.

Lemma doc_text_strip (i : Z) (doc : DocumentChunk) :
  strip (doc_text i doc) = block_text i doc.
Proof.
  unfold strip.
  change (lstrip (doc_text i doc))
    with ("Document " ++ str_of_int i ++ ":" ++ nl
            ++ "Title: " ++ title doc ++ nl
            ++ "Authors: " ++ str_or (authors doc) "Unknown" ++ nl
            ++ "Source: " ++ source doc ++ nl
            ++ "Year: " ++ year_or (year doc) "Unknown" ++ nl
            ++ "URL: " ++ str_or (url doc) "Not available" ++ nl
            ++ nl
            ++ "Content:" ++ nl
            ++ content doc ++ nl).
  assert (Hsplit :
    "Document " ++ str_of_int i ++ ":" ++ nl
       ++ "Title: " ++ title doc ++ nl
       ++ "Authors: " ++ str_or (authors doc) "Unknown" ++ nl
       ++ "Source: " ++ source doc ++ nl
       ++ "Year: " ++ year_or (year doc) "Unknown" ++ nl
       ++ "URL: " ++ str_or (url doc) "Not available" ++ nl
       ++ nl
       ++ "Content:" ++ nl
       ++ content doc ++ nl
    = block_lead i doc ++ ("Content:" ++ (nl ++ content doc ++ nl))).
  { unfold block_lead. rewrite !sapp_assoc. reflexivity. }
  rewrite Hsplit.
  assert (Hc : rstrip ("Content:" ++ (nl ++ content doc ++ nl))
               = "Content:" ++ content_tail (content doc)).
  { rewrite <- rstrip_content_line. reflexivity. }
  rewrite rstrip_app; rewrite Hc; [reflexivity | discriminate].
Qed.

Lemma format_loop_eq (i : Z) (docs : list DocumentChunk) (acc : list string) :
  format_loop i docs acc
  = (acc ++ map (fun p => block_text (fst p) (snd p))
                (enumerate_from i docs))%list.
Proof.
  revert i acc. induction docs as [|d docs IH]; intros i acc; simpl.
  - now rewrite app_nil_r.
  - rewrite IH, <- app_assoc, doc_text_strip. reflexivity.
Qed.

Lemma lower_substring (t s : string) :
  Substring t s -> Substring (lower t) (lower s).
Proof.
  intros (pre & post & ->). exists (lower pre), (lower post).
  now rewrite !lower_app.
Qed.

End PromptsMore.

(** X8. The context text is the blocks of the chunks, in input order and
    numbered from 1, separated by one blank line (nothing for no chunk).
    A block is the lines "Document i:", "Title:", "Authors:", "Source:",
    "Year:", "URL:", a blank line and "Content:", then the content on the
    next line without its trailing white space; a content of white space
    only leaves "Content:" as the last line.  Missing or empty authors and
    url, and a missing or zero year, are written "Unknown", "Not
    available" and "Unknown". *)
Theorem format_retrieved_docs_layout :
  forall docs : list Schemas.DocumentChunk,
    Prompts._format_retrieved_docs docs
    = join (nl ++ nl)
        (map (fun p => Forms.block_text (fst p) (snd p))
             (Forms.enumerate_from 1 docs))
    /\ List.length (Forms.enumerate_from 1 docs) = List.length docs
    /\ (forall i doc,
           (AllSpace (Schemas.content doc) ->
            Forms.block_text i doc = Forms.block_lead i doc ++ "Content:")
           /\ (forall content,
                  rstrip (Schemas.content doc) = content ->
                  content <> EmptyString ->
                  Forms.block_text i doc
                  = Forms.block_lead i doc ++ "Content:" ++ nl ++ content))
    /\ Prompts.year_or (Some 0%Z) "Unknown" = "Unknown"
    /\ Prompts.year_or None "Unknown" = "Unknown"
    /\ Prompts.str_or (Some EmptyString) "Unknown" = "Unknown"
    /\ Prompts.str_or None "Not available" = "Not available".
Proof.
  intros docs. split; [|split; [|split]].
  - unfold Prompts._format_retrieved_docs. now rewrite format_loop_eq.
  - generalize 1%Z. induction docs as [|d docs IH]; intros i; simpl;
      [reflexivity | now rewrite IH].
  - intros i doc. split.
    + intros Hc. unfold Forms.block_text, Forms.content_tail.
      rewrite (rstrip_AllSpace _ Hc). reflexivity.
    + intros content Hr Hne. unfold Forms.block_text, Forms.content_tail.
      rewrite Hr. destruct content; [congruence | reflexivity].
  - repeat split.
Qed.

Lemma format_retrieved_docs_layout_witness :
  Forms.block_text 1
    (Schemas.mkDocumentChunk "d1" ("  body text " ++ nl) "T" None None
       (Some 0%Z) "S" 0 None None)
  = Forms.block_lead 1
      (Schemas.mkDocumentChunk "d1" ("  body text " ++ nl) "T" None None
         (Some 0%Z) "S" 0 None None)
    ++ "Content:" ++ nl ++ "  body text".
Proof.
  destruct (format_retrieved_docs_layout []) as (_ & _ & Hblock & _).
  destruct (Hblock 1%Z
              (Schemas.mkDocumentChunk "d1" ("  body text " ++ nl) "T" None
                 None (Some 0%Z) "S" 0 None None)) as [_ Hcontent].
  apply Hcontent; [reflexivity | discriminate].
Defined.

(** X9. Citing is monotone in the answer, for texts of ASCII characters
    (where lowercasing works character by character): a citation obtained
    for an answer is still obtained when text is added before or after the
    answer. *)
Theorem longer_answer_keeps_citations :
  forall (answer before after : string)
         (chunks : list Schemas.DocumentChunk) (c : Prompts.CitationDict),
    Forms.is_ascii (before ++ answer ++ after) = true ->
    In c (Prompts.extract_citations answer chunks) ->
    In c (Prompts.extract_citations (before ++ answer ++ after) chunks).
Proof.
  intros answer before after chunks c _.
  rewrite !extract_citations_eq, !in_map_iff.
  intros (d & Hd & Hin). exists d. split; [exact Hd|].
  apply filter_In in Hin as [Hin Hc]. apply filter_In. split; [exact Hin|].
  apply is_cited_spec. apply is_cited_spec in Hc.
  destruct Hc as (pre & post & Hc).
  exists (lower before ++ pre), (post ++ lower after).
  rewrite !lower_app, Hc, !sapp_assoc. reflexivity.
Qed.

Lemma longer_answer_keeps_citations_witness :
  exists c,
    Prompts.c_title c = "LIGO Overview"
    /\ In c (Prompts.extract_citations
               ("See " ++ "the ligo overview" ++ ".") Tests.sample_documents).
Proof.
  exists (Prompts.citation_dict
            (hd (Schemas.mkDocumentChunk EmptyString EmptyString EmptyString
                   None None None EmptyString 0 None None)
                Tests.sample_documents)).
  split; [reflexivity|].
  apply longer_answer_keeps_citations; [reflexivity|].
  vm_compute. left. reflexivity.
Defined.

(** X10. There is at most one citation per chunk, and a chunk whose title
    is empty is cited for every answer, the empty answer included: the
    empty text occurs in any text. *)
Theorem empty_title_is_always_cited :
  forall (answer : string) (chunks : list Schemas.DocumentChunk),
    List.length (Prompts.extract_citations answer chunks)
    <= List.length chunks
    /\ forall d,
         In d chunks -> Schemas.title d = EmptyString ->
         In (Prompts.citation_dict d)
            (Prompts.extract_citations answer chunks).
Proof.
  intros answer chunks. rewrite extract_citations_eq. split.
  - rewrite length_map. apply filter_length_le.
  - intros d Hin Ht. apply in_map. apply filter_In. split; [exact Hin|].
    apply is_cited_spec. rewrite Ht. exists EmptyString, (lower answer).
    reflexivity.
Qed.

Lemma empty_title_is_always_cited_witness :
  let untitled :=
    Schemas.mkDocumentChunk "u1" "text" EmptyString None None None "S" 0
      None None in
  In (Prompts.citation_dict untitled)
     (Prompts.extract_citations EmptyString [untitled]).
Proof.
  intros untitled.
  destruct (empty_title_is_always_cited EmptyString [untitled]) as [_ H].
  apply H; [now left | reflexivity].
Defined.

(** ** app/generator.py and app/retriever.py: both paths *)

Section GeneratorMore.

Import Generator.

Lemma get_mock_response_total (user_prompt : string) :
  exists response, _get_mock_response user_prompt = Ok response.
Proof.
  unfold _get_mock_response.
  destruct (extract_question_total user_prompt) as (q & ->).
  eexists. reflexivity.
Qed.

Lemma lower_lstrip (s : string) : lower (lstrip s) = lstrip (lower s).
Proof.
  induction s as [|c s IH]; [reflexivity|].
  simpl. rewrite isspace_lower_char. destruct (isspace c); [exact IH|].
  reflexivity.
Qed.

Lemma is_empty_lower (s : string) : is_empty (lower s) = is_empty s.
Proof. destruct s; reflexivity. Qed.

Lemma lower_rstrip (s : string) : lower (rstrip s) = rstrip (lower s).
Proof.
  induction s as [|c s IH]; [reflexivity|].
  simpl. rewrite isspace_lower_char, <- IH, is_empty_lower.
  destruct (isspace c && is_empty (rstrip s)); reflexivity.
Qed.

Lemma lower_strip (s : string) : lower (strip s) = strip (lower s).
Proof. unfold strip. now rewrite lower_rstrip, lower_lstrip. Qed.

(** A key that begins with a character that is not white space occurs in
    [lstrip s] exactly when it occurs in [s]. *)
Lemma contains_lstrip (a : ascii) (k s : string) :
  isspace a = false ->
  contains (String a k) (lstrip s) = contains (String a k) s.
Proof.
  intros Ha. induction s as [|c s IH]; [reflexivity|].
  cbn [lstrip]. destruct (isspace c) eqn:Hc; [|reflexivity].
  rewrite IH, (contains_cons _ c s). cbn [startswith].
  destruct (Ascii.eqb a c) eqn:E; [|reflexivity].
  apply Ascii.eqb_eq in E. congruence.
Qed.

Lemma startswith_rstrip (k s : string) :
  Forms.ends_without_space k = true ->
  startswith k (rstrip s) = startswith k s.
Proof.
  revert s. induction k as [|a k IH]; intros s Hk; [discriminate Hk|].
  destruct s as [|c r]; [reflexivity|].
  cbn [rstrip]. destruct k as [|b k].
  - cbn [Forms.ends_without_space] in Hk. apply negb_true_iff in Hk.
    destruct (isspace c && is_empty (rstrip r)) eqn:E; cbn [startswith].
    + apply andb_true_iff in E as [Hc _].
      destruct (Ascii.eqb a c) eqn:Eac; [|reflexivity].
      apply Ascii.eqb_eq in Eac. congruence.
    + reflexivity.
  - assert (Hk' : Forms.ends_without_space (String b k) = true) by exact Hk.
    destruct (isspace c && is_empty (rstrip r)) eqn:E.
    + apply andb_true_iff in E as [_ He]. apply is_empty_true in He.
      change (startswith (String a (String b k)) (String c r))
        with (Ascii.eqb a c && startswith (String b k) r).
      rewrite <- (IH r Hk'), He. cbn [startswith]. now rewrite andb_false_r.
    + change (startswith (String a (String b k)) (String c (rstrip r)))
        with (Ascii.eqb a c && startswith (String b k) (rstrip r)).
      rewrite (IH r Hk'). reflexivity.
Qed.

Lemma contains_rstrip (k s : string) :
  Forms.ends_without_space k = true ->
  contains k (rstrip s) = contains k s.
Proof.
  intros Hk. induction s as [|c r IH]; [reflexivity|].
  rewrite (contains_cons k c r), <- (startswith_rstrip k (String c r) Hk), <- IH.
  cbn [rstrip]. destruct (isspace c && is_empty (rstrip r)) eqn:E.
  - apply andb_true_iff in E as [_ He]. apply is_empty_true in He.
    rewrite He. cbn [contains]. destruct (startswith k EmptyString); reflexivity.
  - apply contains_cons.
Qed.

Lemma contains_strip (a : ascii) (k s : string) :
  isspace a = false -> Forms.ends_without_space (String a k) = true ->
  contains (String a k) (strip s) = contains (String a k) s.
Proof.
  intros Ha Hk. unfold strip.
  now rewrite contains_rstrip, contains_lstrip.
Qed.

Lemma table_key_strip (k a s : string) :
  In (k, a) mock_responses -> contains k (strip s) = contains k s.
Proof.
  intros [H|[H|[H|[H|[]]]]]; injection H as <- _;
    apply contains_strip; reflexivity.
Qed.

Lemma lookup_loop_first (before after : list (string * string))
  (key answer q ql : string) :
  (forall k a, In (k, a) before -> contains k ql = false) ->
  contains key ql = true ->
  lookup_loop (before ++ (key, answer) :: after) q ql
  = canned_prefix ++ answer.
Proof.
  intros Hb Hk. induction before as [|[k a] before IH]; simpl.
  - now rewrite Hk.
  - rewrite (Hb k a) by now left. apply IH.
    intros k' a' H. apply (Hb k' a'). now right.
Qed.

Lemma lookup_loop_none (table : list (string * string)) (q ql : string) :
  (forall k a, In (k, a) table -> contains k ql = false) ->
  lookup_loop table q ql = generic_response q.
Proof.
  intros Hn. induction table as [|[k a] table IH]; simpl; [reflexivity|].
  rewrite (Hn k a) by now left. apply IH.
  intros k' a' H. apply (Hn k' a'). now right.
Qed.

Lemma one_line_question (q rest : string) :
  ~ In "010"%char (chars q) ->
  ~ Substring marker q ->
  rest = EmptyString \/ (exists r, rest = nl ++ r) ->
  extract_question ("Question: " ++ q ++ rest) = Ok (strip q).
Proof.
  intros Hnl Hm Hrest.
  change (strip q) with (strip (" " ++ q)).
  apply extract_question_single_marker.
  - exists EmptyString, (" " ++ q ++ rest), rest. split.
    + apply (UpTo_at_start marker).
    + apply (UpTo_char "010"%char); [reflexivity | exact Hrest |].
      intros [H|H]; [discriminate H | now apply Hnl].
  - intros (pre & post & H). destruct pre as [|c pre].
    + discriminate H.
    + simpl in H. injection H as _ H. apply Hm. now exists pre, post.
Qed.

End GeneratorMore.

(** X11. [generate_response] never raises, with or without a client: a
    completion that succeeds is returned unchanged, and when the client
    raises the text is the one returned with no client at all. *)
Theorem generate_response_never_raises :
  forall (client : option Generator.Client)
         (user_prompt system_prompt : string) (max_tokens : Z),
    (exists text,
        Generator.generate_response client user_prompt system_prompt max_tokens
        = Ok text)
    /\ (forall complete text,
           client = Some complete ->
           complete system_prompt user_prompt max_tokens = Ok text ->
           Generator.generate_response client user_prompt system_prompt
                                       max_tokens = Ok text)
    /\ (forall complete e,
           client = Some complete ->
           complete system_prompt user_prompt max_tokens = Raise e ->
           Generator.generate_response client user_prompt system_prompt
                                       max_tokens
           = Generator.generate_response None user_prompt system_prompt
                                         max_tokens).
Proof.
  intros client user_prompt system_prompt max_tokens.
  destruct (get_mock_response_total user_prompt) as (fallback & Hf).
  unfold Generator.generate_response. split; [|split].
  - destruct client as [complete|].
    + destruct (complete system_prompt user_prompt max_tokens) as [text|e];
        simpl; [now exists text | now exists fallback].
    + rewrite Hf. now exists fallback.
  - intros complete text -> ->. reflexivity.
  - intros complete e -> ->. simpl. now rewrite Hf.
Qed.

Lemma generate_response_never_raises_witness :
  Generator.generate_response (Some (fun _ _ _ => Ok "LIGO has two sites."))
    "Question: Where is LIGO?" "You are a LIGO scientist." 500
  = Ok "LIGO has two sites."
  /\ Generator.generate_response
       (Some (fun _ _ _ => Raise (AzureError "timeout")))
       "Question: Where is LIGO?" "You are a LIGO scientist." 500
     = Generator.generate_response None
         "Question: Where is LIGO?" "You are a LIGO scientist." 500.
Proof.
  split.
  - destruct (generate_response_never_raises
                (Some (fun _ _ _ => Ok "LIGO has two sites."))
                "Question: Where is LIGO?" "You are a LIGO scientist." 500)
      as (_ & Hok & _).
    apply (Hok (fun _ _ _ => Ok "LIGO has two sites.")); reflexivity.
  - destruct (generate_response_never_raises
                (Some (fun _ _ _ => Raise (AzureError "timeout")))
                "Question: Where is LIGO?" "You are a LIGO scientist." 500)
      as (_ & _ & Hraise).
    apply (Hraise (fun _ _ _ => Raise (AzureError "timeout"))
                  (AzureError "timeout")); reflexivity.
Defined.

(** X12. On a prompt laid out as the prompt template and the tests lay it
    out ("Question: " and a one-line question that does not hold the
    marker, then the end of the prompt or a line break and anything), the
    fallback recovers the question without the white space at its ends,
    and answers by the first key of the table that occurs in the
    lowercased question as typed: stripping removes no occurrence of a
    key.  With no key it echoes the stripped question. *)
Theorem fallback_recovers_the_question :
  forall (q rest : string),
    ~ In "010"%char (chars q) ->
    ~ Substring Generator.marker q ->
    let prompt := "Question: " ++ q ++ nl ++ rest in
    Generator.extract_question prompt = Ok (strip q)
    /\ Generator.extract_question ("Question: " ++ q) = Ok (strip q)
    /\ (forall before key answer after,
           Generator.mock_responses = (before ++ (key, answer) :: after)%list ->
           (forall k a, In (k, a) before -> ~ Substring k (lower q)) ->
           Substring key (lower q) ->
           Generator._get_mock_response prompt
           = Ok (Generator.canned_prefix ++ answer))
    /\ ((forall k a, In (k, a) Generator.mock_responses
                     -> ~ Substring k (lower q)) ->
        Generator._get_mock_response prompt
        = Ok (Generator.generic_response (strip q))).
Proof.
  intros q rest Hnl Hm prompt. subst prompt.
  assert (Hq : Generator.extract_question ("Question: " ++ q ++ nl ++ rest)
               = Ok (strip q)).
  { apply one_line_question; auto. right. now exists rest. }
  assert (Hkey : forall k a, In (k, a) Generator.mock_responses ->
                   contains k (lower (strip q)) = contains k (lower q)).
  { intros k a Hin. rewrite lower_strip. now apply (table_key_strip k a). }
  split; [exact Hq|]. split; [|split].
  - rewrite <- (sapp_nil_r q) at 1. apply one_line_question; auto.
  - intros before key answer after Ht Hb Hk.
    unfold Generator._get_mock_response. rewrite Hq. cbn [bind]. f_equal.
    rewrite Ht. apply lookup_loop_first.
    + intros k a Hin.
      rewrite (Hkey k a) by (rewrite Ht; apply in_or_app; now left).
      apply contains_false. now apply (Hb k a).
    + rewrite (Hkey key answer)
        by (rewrite Ht; apply in_or_app; right; now left).
      now apply contains_spec.
  - intros Hn. unfold Generator._get_mock_response. rewrite Hq. cbn [bind].
    f_equal. apply lookup_loop_none. intros k a Hin.
    rewrite (Hkey k a Hin). apply contains_false. now apply (Hn k a).
Qed.

Lemma fallback_recovers_the_question_witness :
  Generator.extract_question
    ("Question: " ++ "  What about Gravity Spy glitches?  "
       ++ nl ++ "Context: none")
  = Ok "What about Gravity Spy glitches?"
  /\ exists text,
       Generator._get_mock_response
         ("Question: " ++ "  What about Gravity Spy glitches?  "
            ++ nl ++ "Context: none")
       = Ok (Generator.canned_prefix ++ text)
       /\ Substring "Gravity Spy is a citizen science project" text.
Proof.
  assert (Hnl : ~ In "010"%char (chars "  What about Gravity Spy glitches?  ")).
  { vm_compute. intuition discriminate. }
  assert (Hm : ~ Substring Generator.marker
                   "  What about Gravity Spy glitches?  ").
  { apply contains_false. vm_compute. reflexivity. }
  destruct (fallback_recovers_the_question
              "  What about Gravity Spy glitches?  " "Context: none" Hnl Hm)
    as (Hq & _ & Hfirst & _).
  split; [rewrite Hq; reflexivity|].
  eexists. split.
  - apply (Hfirst [hd (EmptyString, EmptyString) Generator.mock_responses]
             "gravity spy" _ (tl (tl Generator.mock_responses))).
    + reflexivity.
    + intros k a [H|[]]. injection H as <- _.
      apply contains_false. vm_compute. reflexivity.
    + apply contains_spec. vm_compute. reflexivity.
  - apply contains_spec. vm_compute. reflexivity.
Defined.

Section RetrieverMore.

Import Schemas Retriever.

Lemma collect_ok {SearchResult : Type}
  (chunk_of_result : SearchResult -> result DocumentChunk)
  (results : list SearchResult) (docs acc : list DocumentChunk) :
  Forall2 (fun r d => chunk_of_result r = Ok d) results docs ->
  collect SearchResult chunk_of_result results acc = Ok (acc ++ docs)%list.
Proof.
  intros H. revert acc. induction H as [|r d results docs Hr _ IH];
    intros acc; simpl.
  - now rewrite app_nil_r.
  - rewrite Hr. cbn [bind]. rewrite IH, <- app_assoc. reflexivity.
Qed.

End RetrieverMore.

(** X13. When the search succeeds and every result is accepted by the
    model, [retrieve_documents] returns the chunks of the results, all of
    them and in the order of the service: it applies neither the keyword
    filter nor a cut to [top_k] of its own, and it does not consult the
    fixtures, so an empty result list gives an empty answer. *)
Theorem retrieve_documents_returns_search_results :
  forall (SearchResult : Type)
         (search : string -> Z -> result (list SearchResult))
         (chunk_of_result : SearchResult -> result Schemas.DocumentChunk)
         (query : string) (top_k : Z)
         (results : list SearchResult) (docs : list Schemas.DocumentChunk),
    search query top_k = Ok results ->
    Forall2 (fun r d => chunk_of_result r = Ok d) results docs ->
    Retriever.retrieve_documents SearchResult search chunk_of_result
                                 query top_k = Ok docs
    /\ List.length docs = List.length results.
Proof.
  intros SearchResult search chunk_of_result query top_k results docs Hs Hv.
  split.
  - unfold Retriever.retrieve_documents. rewrite Hs. cbn [bind].
    rewrite (collect_ok chunk_of_result results docs [] Hv). reflexivity.
  - symmetry. exact (Forall2_length Hv).
Qed.

Lemma retrieve_documents_returns_search_results_witness :
  Retriever.retrieve_documents Schemas.DocumentChunk
    (fun _ _ => Ok Tests.sample_documents) (fun d => Ok d) "alog" 1
  = Ok Tests.sample_documents
  /\ Retriever.retrieve_documents Schemas.DocumentChunk
       Retriever.MockSearchClient_search (fun d => Ok d) "LIGO" 3
     = Ok [].
Proof.
  split.
  - apply (retrieve_documents_returns_search_results Schemas.DocumentChunk
             (fun _ _ => Ok Tests.sample_documents) (fun d => Ok d) "alog" 1
             Tests.sample_documents Tests.sample_documents eq_refl).
    repeat constructor.
  - apply (retrieve_documents_returns_search_results Schemas.DocumentChunk
             Retriever.MockSearchClient_search (fun d => Ok d) "LIGO" 3
             [] [] eq_refl).
    constructor.
Defined.

(** ** ingestion/zotero_sync.py: authors, sync and batches *)

Section ZoteroMore.

Import Schemas Zotero Forms.

Lemma extract_authors_eq (data : ItemData) :
  _extract_authors data
  = match map full_name (filter named_author (creators data)) with
    | [] => "Unknown"
    | name :: names => join ", " (name :: names)
    end.
Proof.
  unfold _extract_authors. cbv zeta.
  assert (H : forall l acc,
    fold_left
      (fun authors creator =>
         if is_author creator then
           if truthy (get (lastName creator) EmptyString)
           then (authors ++ [strip (get (firstName creator) EmptyString
                                      ++ " " ++ get (lastName creator)
                                                    EmptyString)])%list
           else authors
         else authors) l acc
    = (acc ++ map full_name (filter named_author l))%list).
  { induction l as [|c l IH]; intros acc; simpl.
    - now rewrite app_nil_r.
    - rewrite IH. unfold named_author.
      destruct (is_author c); simpl; [|reflexivity].
      destruct (truthy (get (lastName c) EmptyString)); simpl;
        [now rewrite <- app_assoc | reflexivity]. }
  rewrite H. cbn [app].
  destruct (map full_name (filter named_author (creators data)));
    reflexivity.
Qed.

Lemma named_author_spec (c : Creator) :
  named_author c = true
  <-> creatorType c = Some "author"
      /\ exists l, lastName c = Some l /\ l <> EmptyString.
Proof.
  unfold named_author, is_author. split.
  - intros H. apply andb_true_iff in H as [Ha Hl]. split.
    + destruct (creatorType c) as [t|]; [|discriminate].
      apply String.eqb_eq in Ha. now subst t.
    + destruct (lastName c) as [l|]; [|discriminate].
      exists l. split; [reflexivity | now apply truthy_true].
  - intros [-> (l & -> & Hl)]. apply truthy_true in Hl.
    simpl. exact Hl.
Qed.

Lemma valid_item_fields (item : Item) :
  verdict_truthy (_is_valid_item item) = true ->
  mem (get (itemType (data item)) EmptyString) valid_types = true
  /\ truthy (strip (get (d_title (data item)) EmptyString)) = true.
Proof.
  unfold _is_valid_item. cbv zeta.
  destruct (mem _ valid_types); simpl; [|discriminate].
  destruct (truthy (strip _)); simpl; [|discriminate].
  now split.
Qed.

Lemma chunks_loop_spec (items : list Processed)
  (acc : list DocumentChunk) (out : list DocumentChunk) :
  chunks_loop items acc = Ok out
  <-> exists new,
        out = (acc ++ new)%list
        /\ Forall2 (fun p c => chunk_of_item p = Ok c) items new.
Proof.
  revert acc. induction items as [|x items IH]; intros acc; simpl.
  - split.
    + intros H. injection H as <-. exists []. rewrite app_nil_r. auto.
    + intros (new & -> & H). inversion H. now rewrite app_nil_r.
  - destruct (chunk_of_item x) as [c|e] eqn:E; cbn [bind].
    + rewrite IH. split.
      * intros (new & -> & H). exists (c :: new).
        rewrite <- app_assoc. split; [reflexivity | now constructor].
      * intros (new & -> & H). inversion H as [|? c' ? new' Hc Hrest]; subst.
        rewrite E in Hc. injection Hc as <-. exists new'.
        rewrite <- app_assoc. auto.
    + split; [discriminate|]. intros (new & _ & H).
      inversion H as [|? c' ? new' Hc Hrest]; subst. congruence.
Qed.

Lemma chunk_of_item_fields (p : Processed) (c : DocumentChunk) :
  chunk_of_item p = Ok c ->
  id c = "zotero-" ++ p_id p /\ title c = p_title p
  /\ content c = chunk_content p
  /\ chunk_index c = 0%Z /\ source c = "Zotero".
Proof.
  unfold chunk_of_item. destruct (chunk_year (p_year p)); cbn [bind];
    [|discriminate].
  intros H. injection H as <-. repeat split.
Qed.

Lemma chunk_of_item_raise (p : Processed) (e : exn) :
  chunk_of_item p = Raise e
  <-> e = invalid_literal
      /\ exists s, p_year p = Some (YearStr s) /\ s <> EmptyString
                   /\ int_of_str s = Raise invalid_literal.
Proof.
  unfold chunk_of_item, chunk_year. split.
  - destruct (p_year p) as [[s|n]|]; cbn [year_truthy int_of_year].
    + destruct (truthy s) eqn:Ht; cbn [bind]; [|discriminate].
      destruct (int_of_str s) as [n|e'] eqn:Ei; cbn [bind]; [discriminate|].
      intros H. injection H as <-.
      assert (e' = invalid_literal).
      { unfold int_of_str in Ei. destruct (signed_digits (int_strip s));
          [discriminate | now injection Ei as <-]. }
      subst e'. split; [reflexivity|]. exists s.
      repeat split; auto. now apply truthy_true.
    + destruct (negb (n =? 0)%Z); discriminate.
    + discriminate.
  - intros (-> & s & -> & Hs & Hi). cbn [year_truthy int_of_year].
    apply truthy_true in Hs. rewrite Hs, Hi. reflexivity.
Qed.

Lemma chunks_loop_raise_inv (items : list Processed)
  (acc : list DocumentChunk) (e : exn) :
  chunks_loop items acc = Raise e ->
  exists p, In p items /\ chunk_of_item p = Raise e.
Proof.
  revert acc. induction items as [|x items IH]; intros acc; simpl;
    [discriminate|].
  destruct (chunk_of_item x) as [c|e'] eqn:E; cbn [bind].
  - intros H. destruct (IH _ H) as (p & Hin & Hp). exists p. auto.
  - intros H. injection H as <-. exists x. auto.
Qed.

Lemma chunks_fields (items : list Processed) (new : list DocumentChunk) :
  Forall2 (fun p c => chunk_of_item p = Ok c) items new ->
  List.length new = List.length items
  /\ map id new = map (fun p => "zotero-" ++ p_id p) items
  /\ map title new = map p_title items
  /\ Forall (fun c => chunk_index c = 0%Z /\ source c = "Zotero") new.
Proof.
  intros H. induction H as [|p c items new Hc _ (Hlen & Hid & Htitle & Hall)].
  - repeat split; constructor.
  - destruct (chunk_of_item_fields p c Hc) as (Hi & Ht & _ & Hx & Hs).
    simpl. rewrite Hlen, Hid, Htitle, Hi, Ht. repeat split.
    constructor; auto.
Qed.

Lemma chunks_raise_iff (items : list Processed) (e : exn) :
  create_document_chunks items = Raise e
  <-> e = invalid_literal
      /\ exists p s,
           In p items /\ p_year p = Some (YearStr s)
           /\ s <> EmptyString
           /\ int_of_str s = Raise invalid_literal.
Proof.
  unfold create_document_chunks. split.
  - intros H. apply chunks_loop_raise_inv in H as (p & Hin & Hp).
    apply chunk_of_item_raise in Hp as (-> & s & Hy & Hs & Hi).
    split; [reflexivity|]. now exists p, s.
  - intros (-> & p & s & Hin & Hy & Hs & Hi).
    apply in_split in Hin as (before & after & ->).
    apply chunks_loop_raise. apply chunk_of_item_raise.
    split; [reflexivity|]. now exists s.
Qed.

Lemma chunk_of_item_more (p : Processed) (c : DocumentChunk) :
  chunk_of_item p = Ok c ->
  authors c = Some (p_authors p) /\ url c = Some (p_url p)
  /\ chunk_year (p_year p) = Ok (year c).
Proof.
  unfold chunk_of_item. destruct (chunk_year (p_year p)); cbn [bind];
    [|discriminate].
  intros H. injection H as <-. repeat split.
Qed.

Lemma Forall2_map_left {A B C : Type} (f : A -> B) (R : B -> C -> Prop)
  (l : list A) (l' : list C) :
  Forall2 R (map f l) l' -> Forall2 (fun x y => R (f x) y) l l'.
Proof.
  revert l'. induction l as [|x l IH]; intros l' H; inversion H; subst;
    constructor; auto.
Qed.

Lemma Forall2_refine {A B : Type} (P : A -> Prop) (R S : A -> B -> Prop)
  (l : list A) (l' : list B) :
  Forall P l -> Forall2 R l l' ->
  (forall x y, P x -> R x y -> S x y) -> Forall2 S l l'.
Proof.
  intros HP HR Himp. induction HR as [|x y l l' Hxy _ IH]; constructor.
  - apply Himp; [now inversion HP | exact Hxy].
  - apply IH. now inversion HP.
Qed.

Lemma year_of_date_str (date : option string) (s : string) :
  year_of_date date = Some (YearStr s)
  <-> exists d, date = Some d /\ d <> EmptyString /\ s = before_dash d.
Proof.
  unfold year_of_date. split.
  - destruct date as [d|]; [|discriminate].
    destruct (truthy d) eqn:E; [|discriminate].
    intros H. injection H as <-. exists d.
    repeat split. now apply truthy_true.
  - intros (d & -> & Hd & ->). apply truthy_true in Hd. now rewrite Hd.
Qed.

End ZoteroMore.

(** X14. [_extract_authors] writes the creators whose type is "author"
    and whose last name is not empty, in their order, each as
    "first last" without white space at the ends, joined by ", ";
    editors, other creator types and authors without a last name change
    nothing; with nobody kept the result is "Unknown"; an author without
    a first name is written by the last name alone. *)
Theorem extract_authors_keeps_named_authors :
  forall data : Zotero.ItemData,
    Zotero._extract_authors data
    = match map Forms.full_name
                (filter Forms.named_author (Zotero.creators data)) with
      | [] => "Unknown"
      | name :: names => join ", " (name :: names)
      end
    /\ (forall c,
           Forms.named_author c = true
           <-> Zotero.creatorType c = Some "author"
               /\ exists l, Zotero.lastName c = Some l /\ l <> EmptyString)
    /\ (forall data' before c after,
           Zotero.creators data = (before ++ c :: after)%list ->
           Zotero.creators data' = (before ++ after)%list ->
           Forms.named_author c = false ->
           Zotero._extract_authors data = Zotero._extract_authors data')
    /\ (forall c l,
           Zotero.firstName c = None -> Zotero.lastName c = Some l ->
           Forms.full_name c = strip l).
Proof.
  intros data. split; [apply extract_authors_eq|].
  split; [apply named_author_spec|]. split.
  - intros data' before c after H H' Hc.
    rewrite !extract_authors_eq, H, H', !filter_app. simpl.
    now rewrite Hc.
  - intros c l Hf Hl. unfold Forms.full_name. rewrite Hf, Hl. reflexivity.
Qed.

Lemma extract_authors_keeps_named_authors_witness :
  let creators :=
    [ Zotero.mkCreator (Some "author") (Some "Ann") (Some "Lee");
      Zotero.mkCreator (Some "editor") (Some "Ed") (Some "Itor");
      Zotero.mkCreator (Some "author") None (Some "Solo") ] in
  Zotero._extract_authors
    (Zotero.mkItemData None None None None None creators)
  = Zotero._extract_authors
      (Zotero.mkItemData None None None None None
         [ Zotero.mkCreator (Some "author") (Some "Ann") (Some "Lee");
           Zotero.mkCreator (Some "author") None (Some "Solo") ])
  /\ Forms.full_name (Zotero.mkCreator (Some "author") None (Some "Solo"))
     = "Solo".
Proof.
  intros creators.
  destruct (extract_authors_keeps_named_authors
              (Zotero.mkItemData None None None None None creators))
    as (_ & _ & Hdrop & Hlast).
  split.
  - apply (Hdrop _ [Zotero.mkCreator (Some "author") (Some "Ann") (Some "Lee")]
             (Zotero.mkCreator (Some "editor") (Some "Ed") (Some "Itor"))
             [Zotero.mkCreator (Some "author") None (Some "Solo")]);
      reflexivity.
  - rewrite (Hlast _ "Solo"); reflexivity.
Defined.

(** X15. [sync_zotero_items] never raises.  When the request succeeds it
    returns the processed form of the items that pass the validity
    filter, in order: every returned item has a type of the whitelist, a
    title that is not blank and the source "Zotero", and there are at
    most as many as the service sent (the [limit] is passed to the
    service and not applied to its reply).  A [RequestException] gives
    the three mock items, any other exception the empty list. *)
Theorem sync_zotero_items_outcomes :
  forall (fetch : Z -> result (list Zotero.Item)) (limit : Z),
  exists items,
    Zotero.sync_zotero_items fetch limit = Ok items
    /\ (forall raw,
           fetch limit = Ok raw ->
           items = map Zotero._process_zotero_item
                     (filter (fun i => Zotero.verdict_truthy
                                         (Zotero._is_valid_item i)) raw)
           /\ List.length items <= List.length raw
           /\ Forall (fun p =>
                        In (Zotero.p_item_type p)
                           ["journalArticle"; "book"; "bookSection";
                            "report"; "thesis"; "document"]
                        /\ strip (Zotero.p_title p) <> EmptyString
                        /\ Zotero.p_source p = "Zotero")
                     items)
    /\ (forall msg,
           fetch limit = Raise (RequestException msg) ->
           items = Zotero._get_mock_items)
    /\ (forall e,
           fetch limit = Raise e ->
           Zotero.is_request_exception e = false ->
           items = []).
Proof.
  intros fetch limit. unfold Zotero.sync_zotero_items.
  destruct (fetch limit) as [raw|e] eqn:E; cbn [bind try_except].
  - exists (Zotero.process_items raw). split; [reflexivity|].
    split; [|split; discriminate].
    intros raw' H. injection H as <-. rewrite process_items_eq.
    split; [reflexivity|]. split.
    + rewrite length_map. apply filter_length_le.
    + apply Forall_forall. intros p Hp.
      apply in_map_iff in Hp as (i & <- & Hi).
      apply filter_In in Hi as [_ Hv].
      destruct (valid_item_fields i Hv) as [Ht Hn].
      split; [now apply mem_spec|]. split; [now apply truthy_true|].
      reflexivity.
  - destruct (Zotero.is_request_exception e) eqn:Er.
    + exists Zotero._get_mock_items. split; [reflexivity|].
      split; [discriminate|]. split; [reflexivity|].
      intros e' H. injection H as <-. congruence.
    + exists []. split; [reflexivity|].
      split; [discriminate|]. split; [|reflexivity].
      intros msg H. injection H as ->. discriminate Er.
Qed.

Lemma sync_zotero_items_outcomes_witness :
  Zotero.sync_zotero_items
    (fun _ => Ok [Tests.webpage_item; Tests.dated_item (Some "2023");
                  Tests.dated_item None]) 1
  = Ok [Zotero._process_zotero_item (Tests.dated_item (Some "2023"));
        Zotero._process_zotero_item (Tests.dated_item None)]
  /\ Zotero.sync_zotero_items
       (fun _ => Raise (RequestException "503")) 100
     = Ok Zotero._get_mock_items
  /\ Zotero.sync_zotero_items
       (fun _ => Raise (ValueError "unexpected")) 100
     = Ok [].
Proof.
  split; [|split].
  - destruct (sync_zotero_items_outcomes
                (fun _ => Ok [Tests.webpage_item;
                              Tests.dated_item (Some "2023");
                              Tests.dated_item None]) 1)
      as (items & -> & Hok & _).
    destruct (Hok _ eq_refl) as (-> & _). reflexivity.
  - destruct (sync_zotero_items_outcomes
                (fun _ => Raise (RequestException "503")) 100)
      as (items & -> & _ & Hreq & _).
    now rewrite (Hreq "503" eq_refl).
  - destruct (sync_zotero_items_outcomes
                (fun _ => Raise (ValueError "unexpected")) 100)
      as (items & -> & _ & _ & Hother).
    now rewrite (Hother (ValueError "unexpected") eq_refl eq_refl).
Defined.

(** X16. [create_document_chunks] is all or nothing.  When it returns,
    there is exactly one chunk per item, in the order of the items, with
    id "zotero-" followed by the item id, the item's title, chunk index 0
    and source "Zotero".  It raises exactly when some item has a
    non-empty year string that [int] rejects, and then it raises
    [ValueError] and returns no chunk at all; items whose year is absent
    or an integer (as in the mock items) never make it raise. *)
Theorem create_document_chunks_all_or_nothing :
  forall items : list Zotero.Processed,
    (forall chunks,
        Zotero.create_document_chunks items = Ok chunks ->
        List.length chunks = List.length items
        /\ map Schemas.id chunks
           = map (fun p => "zotero-" ++ Zotero.p_id p) items
        /\ map Schemas.title chunks = map Zotero.p_title items
        /\ Forall (fun c => Schemas.chunk_index c = 0%Z
                            /\ Schemas.source c = "Zotero") chunks)
    /\ (forall e,
           Zotero.create_document_chunks items = Raise e
           <-> e = ValueError "invalid literal for int() with base 10"
               /\ exists p s,
                    In p items
                    /\ Zotero.p_year p = Some (Zotero.YearStr s)
                    /\ s <> EmptyString
                    /\ Zotero.int_of_str s
                       = Raise (ValueError
                                  "invalid literal for int() with base 10"))
    /\ ((forall p, In p items ->
                   Zotero.p_year p = None
                   \/ exists n, Zotero.p_year p = Some (Zotero.YearInt n)) ->
        exists chunks, Zotero.create_document_chunks items = Ok chunks).
Proof.
  intros items.
  assert (Hraise := chunks_raise_iff items).
  split; [|split; [exact Hraise|]].
  - intros chunks H. unfold Zotero.create_document_chunks in H.
    apply chunks_loop_spec in H as (new & -> & H). cbn [app].
    now apply chunks_fields.
  - intros Hy.
    destruct (Zotero.create_document_chunks items) as [chunks|e] eqn:E;
      [now exists chunks|].
    destruct (proj1 (Hraise e) eq_refl) as (_ & p & s & Hin & Hp & _).
    destruct (Hy p Hin) as [H | (n & H)]; congruence.
Qed.

Lemma create_document_chunks_all_or_nothing_witness :
  (exists chunks,
      Zotero.create_document_chunks Zotero._get_mock_items = Ok chunks
      /\ map Schemas.id chunks
         = ["zotero-mock-zotero-1"; "zotero-mock-zotero-2";
            "zotero-mock-zotero-3"])
  /\ Zotero.create_document_chunks
       (Zotero._get_mock_items
        ++ [Zotero._process_zotero_item (Tests.dated_item (Some "circa 1999"))])
     = Raise (ValueError "invalid literal for int() with base 10").
Proof.
  split.
  - destruct (create_document_chunks_all_or_nothing Zotero._get_mock_items)
      as (Hok & _ & Hint).
    destruct Hint as (chunks & Hc).
    + intros p [<-|[<-|[<-|[]]]]; right; eexists; reflexivity.
    + exists chunks. split; [exact Hc|].
      destruct (Hok chunks Hc) as (_ & Hid & _). rewrite Hid. reflexivity.
  - destruct (create_document_chunks_all_or_nothing
                (Zotero._get_mock_items
                 ++ [Zotero._process_zotero_item
                       (Tests.dated_item (Some "circa 1999"))]))
      as (_ & Hraise & _).
    apply Hraise. split; [reflexivity|].
    exists (Zotero._process_zotero_item (Tests.dated_item (Some "circa 1999"))),
      "circa 1999".
    split; [apply in_or_app; right; now left|].
    split; [reflexivity|]. split; [discriminate|].
    vm_compute. reflexivity.
Defined.

Section PipelineFacts.

Import Schemas Zotero Forms.

Lemma filter_map_comm {A B : Type} (f : B -> bool) (g : A -> B) (l : list A) :
  filter f (map g l) = map g (filter (fun x => f (g x)) l).
Proof.
  induction l as [|x l IH]; simpl; [reflexivity|].
  rewrite IH. destruct (f (g x)); reflexivity.
Qed.

Lemma slice_to_map {A B : Type} (g : A -> B) (k : option Z) (l : list A) :
  slice_to k (map g l) = map g (slice_to k l).
Proof.
  destruct k as [k|]; [|reflexivity]. unfold slice_to.
  rewrite length_map. destruct (0 <=? k)%Z; apply firstn_map.
Qed.

End PipelineFacts.

(** X17. The ingestion pipeline (the filter and the processing of
    [sync_zotero_items], then [create_document_chunks]) on the items the
    service sent.  When it returns, the chunks correspond one to one, in
    order, to the valid items: id "zotero-" followed by the item key
    (nothing after the dash for an item without key), the item's title,
    which is not blank, its authors and url, source "Zotero", index 0.
    It raises exactly when some valid item has a date whose text before
    the first "-" is not empty and is rejected by [int]; an item that the
    filter rejects cannot make it raise, whatever its date. *)
Theorem ingestion_pipeline_outcomes :
  forall raw : list Zotero.Item,
    (forall chunks,
        Zotero.create_document_chunks (Zotero.process_items raw) = Ok chunks ->
        Forall2
          (fun item c =>
             Schemas.id c
             = "zotero-" ++ Zotero.get (Zotero.key item) EmptyString
             /\ Schemas.title c
                = Zotero.get (Zotero.d_title (Zotero.data item)) EmptyString
             /\ strip (Schemas.title c) <> EmptyString
             /\ Schemas.authors c
                = Some (Zotero._extract_authors (Zotero.data item))
             /\ Schemas.url c
                = Some (Zotero.get (Zotero.d_url (Zotero.data item))
                                   EmptyString)
             /\ Schemas.source c = "Zotero"
             /\ Schemas.chunk_index c = 0%Z)
          (filter Forms.is_valid raw) chunks)
    /\ (forall e,
           Zotero.create_document_chunks (Zotero.process_items raw) = Raise e
           <-> e = ValueError "invalid literal for int() with base 10"
               /\ exists item d,
                    In item raw /\ Forms.is_valid item = true
                    /\ Zotero.date (Zotero.data item) = Some d
                    /\ Zotero.before_dash d <> EmptyString
                    /\ Zotero.int_of_str (Zotero.before_dash d)
                       = Raise (ValueError
                                  "invalid literal for int() with base 10")).
Proof.
  intros raw. rewrite process_items_eq.
  change (fun i => Zotero.verdict_truthy (Zotero._is_valid_item i))
    with Forms.is_valid.
  split.
  - intros chunks H. unfold Zotero.create_document_chunks in H.
    apply chunks_loop_spec in H as (new & -> & H). cbn [app].
    apply Forall2_map_left in H.
    assert (Hvalid : Forall (fun i => Forms.is_valid i = true)
                            (filter Forms.is_valid raw)).
    { apply Forall_forall. intros i Hi. now apply filter_In in Hi. }
    apply (Forall2_refine _ _ _ _ _ Hvalid H).
    intros item c Hv Hc.
    destruct (chunk_of_item_fields _ c Hc) as (Hid & Ht & _ & Hx & Hs).
    destruct (chunk_of_item_more _ c Hc) as (Ha & Hu & _).
    destruct (valid_item_fields item Hv) as (_ & Hne).
    repeat split; auto.
    rewrite Ht. now apply truthy_true.
  - intros e. rewrite chunks_raise_iff. split.
    + intros (-> & p & s & Hin & Hy & Hs & Hi). split; [reflexivity|].
      apply in_map_iff in Hin as (item & <- & Hin).
      apply filter_In in Hin as [Hin Hv].
      cbn [Zotero._process_zotero_item Zotero.p_year] in Hy.
      apply year_of_date_str in Hy as (d & Hd & _ & ->).
      now exists item, d.
    + intros (-> & item & d & Hin & Hv & Hd & Hs & Hi).
      split; [reflexivity|].
      exists (Zotero._process_zotero_item item), (Zotero.before_dash d).
      split; [apply in_map; now apply filter_In|].
      split; [|now split].
      cbn [Zotero._process_zotero_item Zotero.p_year].
      apply year_of_date_str. exists d. repeat split; auto.
      intros ->. now apply Hs.
Qed.

Lemma ingestion_pipeline_outcomes_witness :
  (exists c,
      Zotero.create_document_chunks
        (Zotero.process_items
           [Zotero.mkItem None
              (Zotero.mkItemData (Some "webpage") (Some "Blog") None
                 (Some "March 2024") None []) [];
            Zotero.mkItem None
              (Zotero.mkItemData (Some "thesis") (Some "Noise hunting")
                 (Some "https://dcc.ligo.org") (Some "-2023") None []) []])
      = Ok [c]
      /\ Schemas.id c = "zotero-")
  /\ Zotero.create_document_chunks
       (Zotero.process_items [Tests.dated_item (Some "March 2024")])
     = Raise (ValueError "invalid literal for int() with base 10").
Proof.
  split.
  - set (raw := [Zotero.mkItem None _ []; Zotero.mkItem None _ []]).
    destruct (ingestion_pipeline_outcomes raw) as [Hok _].
    destruct (Zotero.create_document_chunks (Zotero.process_items raw))
      as [chunks|e] eqn:E; [|vm_compute in E; discriminate E].
    specialize (Hok chunks eq_refl).
    change (filter Forms.is_valid raw)
      with [Zotero.mkItem None
              (Zotero.mkItemData (Some "thesis") (Some "Noise hunting")
                 (Some "https://dcc.ligo.org") (Some "-2023") None []) []]
      in Hok.
    inversion Hok as [|? c ? rest (Hid & _) Hrest]; subst.
    inversion Hrest; subst. exists c. split; [reflexivity | exact Hid].
  - destruct (ingestion_pipeline_outcomes
                [Tests.dated_item (Some "March 2024")]) as [_ Hraise].
    apply Hraise. split; [reflexivity|].
    exists (Tests.dated_item (Some "March 2024")), "March 2024".
    repeat split; try (now left); try discriminate.
Defined.

(** X18. The fallback of the retriever and the retrieval of the demo
    service hold the same three fixtures and return the same documents:
    for every query and every [top_k], [_get_mock_documents] is
    [get_mock_documents] with each entry written as a [DocumentChunk]
    (chunk index 1, no metadata). *)
Theorem retriever_fallback_agrees_with_demo :
  forall (query : string) (top_k : Z),
    Retriever.mock_docs = map Forms.chunk_of_doc Main.MOCK_DOCUMENTS
    /\ Retriever._get_mock_documents query top_k
       = map Forms.chunk_of_doc (Main.get_mock_documents query (Some top_k))
    /\ forall docs : list Main.Doc,
         Retriever.keyword_filter (map Forms.chunk_of_doc docs) query top_k
         = map Forms.chunk_of_doc
               (Main.get_mock_documents_from docs query (Some top_k)).
Proof.
  intros query top_k.
  assert (H : forall docs : list Main.Doc,
    Retriever.keyword_filter (map Forms.chunk_of_doc docs) query top_k
    = map Forms.chunk_of_doc
          (Main.get_mock_documents_from docs query (Some top_k))).
  { intros docs.
    rewrite keyword_filter_eq, get_mock_documents_from_eq, filter_map_comm.
    apply slice_to_map. }
  split; [reflexivity|]. split; [|exact H].
  exact (H Main.MOCK_DOCUMENTS).
Qed.


(** ** ingestion/zotero_sync.py: the year of a dated item *)

Section YearFacts.

Import Schemas Zotero.

Lemma uint_digits (d : Decimal.uint) (c : ascii) :
  In c (chars (NilEmpty.string_of_uint d)) -> is_digit c = true.
Proof.
  induction d; simpl; intros H;
    try (destruct H as [<-|H]; [reflexivity | now auto]).
  destruct H.
Qed.

Ltac digit_step :=
  cbn [NilEmpty.string_of_uint digits_go Pos.of_uint_acc Pos.of_uint];
  match goal with
  | |- context [is_digit ?c] => change (is_digit c) with true; cbv iota
  end;
  match goal with
  | |- context [digit_value ?c] =>
      let v := eval vm_compute in (digit_value c) in
      change (digit_value c) with v
  end.

(** [digits_go] on the digits of [d] is the accumulation of
    [Pos.of_uint_acc]. *)
Lemma digits_go_acc (d : Decimal.uint) (acc : positive) (b : bool) :
  d <> Decimal.Nil \/ b = true ->
  digits_go (NilEmpty.string_of_uint d) (Z.pos acc) b
  = Some (Z.pos (Pos.of_uint_acc d acc)).
Proof.
  revert acc b. induction d as [|d IH|d IH|d IH|d IH|d IH|d IH|d IH|d IH
                                 |d IH|d IH]; intros acc b H;
    [destruct H as [H| ->]; [congruence | reflexivity] | ..];
    digit_step; rewrite <- (IH _ true) by (now right); f_equal; lia.
Qed.

Lemma digits_go_uint (d : Decimal.uint) (b : bool) :
  d <> Decimal.Nil \/ b = true ->
  digits_go (NilEmpty.string_of_uint d) 0 b = Some (Z.of_N (Pos.of_uint d)).
Proof.
  revert b. induction d as [|d IH|d IH|d IH|d IH|d IH|d IH|d IH|d IH
                             |d IH|d IH]; intros b H;
    [destruct H as [H| ->]; [congruence | reflexivity] | ..];
    digit_step; cbn [Z.mul Z.add];
    [apply IH; now right | rewrite digits_go_acc by (now right) ..];
    reflexivity.
Qed.

Lemma str_of_int_pos (p : positive) :
  str_of_int (Z.pos p) = NilEmpty.string_of_uint (Pos.to_uint p).
Proof.
  unfold str_of_int. cbn [Z.to_int NilZero.string_of_int].
  unfold NilZero.string_of_uint.
  destruct (Pos.to_uint p) eqn:E; try reflexivity.
  exfalso. exact (DecimalPos.Unsigned.to_uint_nonnil p E).
Qed.

Lemma str_of_int_neg (p : positive) :
  str_of_int (Z.neg p) = String "-" (NilEmpty.string_of_uint (Pos.to_uint p)).
Proof.
  unfold str_of_int. cbn [Z.to_int NilZero.string_of_int].
  unfold NilZero.string_of_uint.
  destruct (Pos.to_uint p) eqn:E; try reflexivity.
  exfalso. exact (DecimalPos.Unsigned.to_uint_nonnil p E).
Qed.

Lemma digits_of_pos (p : positive) :
  digits_go (NilEmpty.string_of_uint (Pos.to_uint p)) 0 false
  = Some (Z.pos p).
Proof.
  rewrite digits_go_uint
    by (left; apply DecimalPos.Unsigned.to_uint_nonnil).
  now rewrite DecimalPos.Unsigned.of_to.
Qed.

Lemma str_of_int_digits (n : Z) (c : ascii) :
  (0 <= n)%Z -> In c (chars (str_of_int n)) -> is_digit c = true.
Proof.
  intros Hn. destruct n as [|p|p]; [| |lia].
  - intros [<-|[]]. reflexivity.
  - rewrite str_of_int_pos. apply uint_digits.
Qed.

(** [int(str(n)) == n] for every integer. *)
Lemma int_of_str_of_int (n : Z) : int_of_str (str_of_int n) = Ok n.
Proof.
  unfold int_of_str. destruct n as [|p|p].
  - reflexivity.
  - rewrite int_strip_NoSpace
      by (intros c Hc; apply digit_not_space;
          now apply (str_of_int_digits (Z.pos p))).
    rewrite str_of_int_pos.
    assert (Hgo := digits_of_pos p).
    assert (Hd := uint_digits (Pos.to_uint p)).
    destruct (NilEmpty.string_of_uint (Pos.to_uint p)) as [|c r];
      [discriminate Hgo|].
    unfold signed_digits.
    assert (Hc : is_digit c = true) by (apply Hd; now left).
    destruct (Ascii.eqb c "+") eqn:E1;
      [apply Ascii.eqb_eq in E1; subst c; discriminate Hc|].
    destruct (Ascii.eqb c "-") eqn:E2;
      [apply Ascii.eqb_eq in E2; subst c; discriminate Hc|].
    now rewrite Hgo.
  - rewrite str_of_int_neg.
    rewrite int_strip_NoSpace.
    + unfold signed_digits. cbn [Ascii.eqb Bool.eqb].
      now rewrite digits_of_pos.
    + intros c [<-|Hc]; [reflexivity|].
      apply digit_not_space. now apply (uint_digits (Pos.to_uint p)).
Qed.

Lemma UpTo_first_unique (sep s p r p' r' : string) :
  sep <> EmptyString ->
  UpTo sep s p r -> UpTo sep s p' r' -> p = p'.
Proof.
  intros Hsep H H'.
  assert (Hs := proj1 H). assert (Hs' := proj1 H').
  destruct (proj1 (proj2 H)) as [-> | [a ->]];
    destruct (proj1 (proj2 H')) as [-> | [a' ->]].
  - rewrite sapp_nil_r in Hs, Hs'. congruence.
  - exfalso. apply (UpTo_no_occurrence sep s p Hsep H).
    now exists p', a'.
  - exfalso. apply (UpTo_no_occurrence sep s p' Hsep H').
    now exists p, a.
  - exact (proj1 (UpTo_unique sep s p a p' a' H H')).
Qed.

(** The text before the first dash of a date that begins with a run
    without dash. *)
Lemma before_dash_prefix (y rest : string) :
  ~ In "-"%char (chars y) ->
  rest = EmptyString \/ (exists r, rest = "-" ++ r) ->
  before_dash (y ++ rest) = y.
Proof.
  intros Hy Hrest.
  destruct (before_dash_spec (y ++ rest)) as [rest' H'].
  assert (H : UpTo "-" (y ++ rest) y rest)
    by (apply UpTo_char; auto).
  symmetry. apply (UpTo_first_unique "-" (y ++ rest) y rest _ rest');
    [discriminate | exact H | exact H'].
Qed.

Lemma join_last (sep x : string) (l : list string) :
  exists pre, join sep (l ++ [x]) = pre ++ x.
Proof.
  unfold join. induction l as [|a l [pre IH]].
  - now exists EmptyString.
  - cbn [app String.concat]. destruct (l ++ [x])%list eqn:E.
    + now destruct l.
    + exists (a ++ sep ++ pre). rewrite IH. now rewrite !sapp_assoc.
Qed.

Lemma chunk_content_year (p : Processed) (y : string) :
  p_year p = Some (YearStr y) -> y <> EmptyString ->
  exists pre, chunk_content p = pre ++ "Year: " ++ y.
Proof.
  intros Hy Hne. unfold chunk_content. cbv zeta. rewrite Hy.
  cbn [year_truthy year_text]. apply truthy_true in Hne. rewrite Hne.
  apply join_last.
Qed.

Lemma str_of_int_nonempty (n : Z) : str_of_int n <> EmptyString.
Proof.
  destruct n as [|p|p]; [discriminate | | rewrite str_of_int_neg; discriminate].
  rewrite str_of_int_pos. intros E.
  assert (H := digits_of_pos p). rewrite E in H. discriminate H.
Qed.

End YearFacts.

(** X19. An item whose date begins with the decimal writing of a year
    [n >= 0], alone or followed by a dash and anything (as in
    "2023-05-17"): [_process_zotero_item] keeps the writing of [n] as the
    year, and [create_document_chunks] turns it back into the integer [n]
    and ends the content with the section "Year: " followed by that
    writing. *)
Theorem dated_item_gets_its_year :
  forall (item : Zotero.Item) (n : Z) (rest : string),
    (0 <= n)%Z ->
    Zotero.date (Zotero.data item) = Some (str_of_int n ++ rest) ->
    rest = EmptyString \/ (exists r, rest = "-" ++ r) ->
    Zotero.p_year (Zotero._process_zotero_item item)
    = Some (Zotero.YearStr (str_of_int n))
    /\ exists c,
         Zotero.create_document_chunks [Zotero._process_zotero_item item]
         = Ok [c]
         /\ Schemas.year c = Some n
         /\ exists pre, Schemas.content c = pre ++ "Year: " ++ str_of_int n.
Proof.
  intros item n rest Hn Hdate Hrest.
  assert (Hne := str_of_int_nonempty n).
  assert (Hyear : Zotero.p_year (Zotero._process_zotero_item item)
                  = Some (Zotero.YearStr (str_of_int n))).
  { cbn [Zotero._process_zotero_item Zotero.p_year]. rewrite Hdate.
    unfold Zotero.year_of_date.
    assert (Ht : truthy (str_of_int n ++ rest) = true).
    { apply truthy_true. destruct (str_of_int n); [congruence | discriminate]. }
    rewrite Ht, before_dash_prefix; [reflexivity | | exact Hrest].
    intros Hin. now apply (str_of_int_digits n) in Hin. }
  split; [exact Hyear|].
  destruct (chunk_content_year _ _ Hyear Hne) as [pre Hpre].
  unfold Zotero.create_document_chunks. cbn [Zotero.chunks_loop].
  unfold Zotero.chunk_of_item, Zotero.chunk_year. rewrite Hyear.
  cbn [Zotero.year_truthy Zotero.int_of_year].
  apply truthy_true in Hne. rewrite Hne, int_of_str_of_int.
  cbn [bind app]. eexists. split; [reflexivity|].
  split; [reflexivity|]. exists pre. exact Hpre.
Qed.

Lemma dated_item_gets_its_year_witness :
  exists c,
    Zotero.create_document_chunks
      [Zotero._process_zotero_item (Tests.dated_item (Some "2023-05-17"))]
    = Ok [c]
    /\ Schemas.year c = Some 2023%Z.
Proof.
  destruct (dated_item_gets_its_year
              (Tests.dated_item (Some "2023-05-17")) 2023 "-05-17")
    as [_ (c & Hc & Hy & _)];
    [lia | reflexivity | right; now exists "05-17" |].
  exists c. split; assumption.
Defined.

(** X20. The fallback of the generator is a function of [user_prompt]
    alone and never raises: without a client, or when the client raises,
    [generate_response] returns [_get_mock_response user_prompt].  The
    question is the placeholder "your question" when the marker
    "Question:" is absent; when the marker is present and does not occur
    again before the next line break, the question is the text that
    follows the first marker up to that line break, without the white
    space at its ends.  The lowercased question is looked up in the table
    ligo, gravity spy, alog, glitch, in that order: the first key that is
    a substring gives the prefixed canned answer; when no key is, the
    answer is the generic one, which echoes the question. *)
Theorem fallback_answer_by_first_key :
  forall (user_prompt system_prompt : string) (max_tokens : Z),
  exists question response,
    Generator.extract_question user_prompt = Ok question
    /\ Generator._get_mock_response user_prompt = Ok response
    /\ Generator.generate_response None user_prompt system_prompt max_tokens
       = Ok response
    /\ (forall (complete : Generator.Client) e,
           complete system_prompt user_prompt max_tokens = Raise e ->
           Generator.generate_response (Some complete) user_prompt
                                       system_prompt max_tokens
           = Ok response)
    /\ (~ Substring Generator.marker user_prompt -> question = "your question")
    /\ (forall q,
           FollowsMarker Generator.marker user_prompt q ->
           ~ Substring Generator.marker q ->
           question = strip q /\ Stripped q question)
    /\ map fst Generator.mock_responses
       = ["ligo"; "gravity spy"; "alog"; "glitch"]
    /\ ((exists before key answer after,
            Generator.mock_responses
            = (before ++ (key, answer) :: after)%list
            /\ (forall k a, In (k, a) before
                            -> ~ Substring k (lower question))
            /\ Substring key (lower question)
            /\ response = Generator.canned_prefix ++ answer)
        \/ ((forall k a, In (k, a) Generator.mock_responses
                         -> ~ Substring k (lower question))
            /\ response = Generator.generic_response question
            /\ Substring question response)).
Proof.
  intros user_prompt system_prompt max_tokens.
  destruct (extract_question_total user_prompt) as (question & Hq).
  exists question,
    (Generator.lookup_loop Generator.mock_responses question (lower question)).
  assert (Hr : Generator._get_mock_response user_prompt
               = Ok (Generator.lookup_loop Generator.mock_responses question
                       (lower question))).
  { unfold Generator._get_mock_response. rewrite Hq. reflexivity. }
  split; [exact Hq|]. split; [exact Hr|].
  split; [unfold Generator.generate_response; now rewrite Hr|].
  split.
  { intros complete e He. unfold Generator.generate_response.
    rewrite He. simpl. exact Hr. }
  split.
  { intros Habs.
    destruct (extract_question_spec user_prompt)
      as [[_ H] | (pre & after & piece & rest & line & rest' & Hup & _)].
    - rewrite H in Hq. now injection Hq as <-.
    - exfalso. apply Habs. destruct Hup as (-> & _). now exists pre, after. }
  split.
  { intros q Hfollow Hnone.
    rewrite (extract_question_single_marker user_prompt q Hfollow Hnone) in Hq.
    injection Hq as <-. split; [reflexivity | apply strip_spec]. }
  split; [reflexivity|].
  destruct (lookup_loop_spec Generator.mock_responses question (lower question))
    as [(before & key & answer & after & Ht & Hb & Hk & Hl) | [Hn Hl]].
  - left. exists before, key, answer, after. auto.
  - right. split; [exact Hn|]. split; [exact Hl|]. rewrite Hl.
    unfold Generator.generic_response.
    now exists "Thank you for your question about '",
      "'. Based on the available LIGO and Gravity Spy documentation, I can provide information about gravitational wave detection, detector technology, and citizen science opportunities. Could you please be more specific about what aspect you'd like to learn about?".
Qed.

Lemma fallback_answer_by_first_key_witness :
  let user_prompt :=
    "Question: What is LIGO?" ++ nl ++ nl
      ++ "Context: LIGO is a gravitational wave detector." in
  Generator.extract_question user_prompt = Ok "What is LIGO?"
  /\ Generator.extract_question "Tell me about black holes"
     = Ok "your question".
Proof.
  intros user_prompt.
  destruct (fallback_answer_by_first_key user_prompt EmptyString 100)
    as (question & response & Hq & _ & _ & _ & _ & Hsingle & _).
  destruct (fallback_answer_by_first_key "Tell me about black holes"
              EmptyString 100)
    as (question' & response' & Hq' & _ & _ & _ & Habsent & _).
  split.
  - destruct (Hsingle " What is LIGO?") as [Hs _].
    + exists EmptyString,
        (" What is LIGO?" ++ nl ++ nl
           ++ "Context: LIGO is a gravitational wave detector."),
        (nl ++ nl ++ "Context: LIGO is a gravitational wave detector.").
      split.
      * apply (UpTo_at_start Generator.marker).
      * apply (UpTo_char "010"%char).
        -- reflexivity.
        -- right.
           now exists (nl ++ "Context: LIGO is a gravitational wave detector.").
        -- vm_compute. intuition discriminate.
    + apply contains_false. vm_compute. reflexivity.
    + rewrite Hq, Hs. reflexivity.
  - rewrite Hq', Habsent; [reflexivity|].
    apply contains_false. vm_compute. reflexivity.
Defined.

(** X21. [retrieve_documents] never raises: whatever the search service
    and the model validation do, it returns a list.  When the service
    raises, or a result is rejected, the list is the keyword retrieval
    over the three fixtures: the fixtures for which some
    white-space-delimited token of the lowercased query occurs in the
    lowercased content or title, in their order, cut by [top_k] (for
    [top_k >= 0] the first [top_k] of them, so at most [top_k]). *)
Theorem retrieve_documents_falls_back_on_error :
  forall (SearchResult : Type)
         (search : string -> Z -> result (list SearchResult))
         (chunk_of_result : SearchResult -> result Schemas.DocumentChunk)
         (query : string) (top_k : Z),
    let retrieve :=
      Retriever.retrieve_documents SearchResult search chunk_of_result
                                   query top_k in
    (exists docs, retrieve = Ok docs)
    /\ (forall e, search query top_k = Raise e ->
                  retrieve = Ok (Retriever._get_mock_documents query top_k))
    /\ (forall results e,
           search query top_k = Ok results ->
           Retriever.collect SearchResult chunk_of_result results [] = Raise e ->
           retrieve = Ok (Retriever._get_mock_documents query top_k))
    /\ exists f : Schemas.DocumentChunk -> bool,
         (forall d, f d = true
                    <-> Matches query (Schemas.content d) (Schemas.title d))
         /\ Retriever._get_mock_documents query top_k
            = slice_to (Some top_k) (filter f Retriever.mock_docs)
         /\ ((0 <= top_k)%Z ->
             Retriever._get_mock_documents query top_k
             = firstn (Z.to_nat top_k) (filter f Retriever.mock_docs)
             /\ (Z.of_nat (List.length
                   (Retriever._get_mock_documents query top_k))
                 <= top_k)%Z).
Proof.
  intros SearchResult search chunk_of_result query top_k retrieve.
  subst retrieve. unfold Retriever.retrieve_documents.
  split; [|split; [|split]].
  - destruct (search query top_k) as [results|e]; simpl.
    + destruct (Retriever.collect _ _ results []) as [docs|e]; simpl;
        eexists; reflexivity.
    + eexists; reflexivity.
  - intros e ->. reflexivity.
  - intros results e -> Hc. simpl. rewrite Hc. reflexivity.
  - exists (Retriever.doc_matches (lower query)).
    unfold Retriever._get_mock_documents. rewrite keyword_filter_eq.
    split; [apply chunk_matches_spec|]. split; [reflexivity|].
    intros Hk. split; [now apply slice_to_nonneg | now apply slice_to_length].
Qed.

Lemma retrieve_documents_falls_back_on_error_witness :
  Retriever.retrieve_documents unit
    (fun _ _ => Raise (AzureError "service unavailable"))
    (fun _ => Raise (ValidationError "rejected"))
    "LIGO gravitational waves" 3
  = Ok (Retriever._get_mock_documents "LIGO gravitational waves" 3)
  /\ (Z.of_nat (List.length
        (Retriever._get_mock_documents "LIGO gravitational waves" 3)) <= 3)%Z.
Proof.
  destruct (retrieve_documents_falls_back_on_error unit
              (fun _ _ => Raise (AzureError "service unavailable"))
              (fun _ => Raise (ValidationError "rejected"))
              "LIGO gravitational waves" 3)
    as (_ & Hraise & _ & f & _ & _ & Hlen).
  split.
  - apply (Hraise (AzureError "service unavailable")). reflexivity.
  - apply Hlen. intro H. discriminate H.
Defined.
